(** * The Consul FSM and the state store behind it

    A shallow embedding of [consul/fsm.go] (the finite state machine that the
    replicated log drives) together with the data it moves around.

    Layout of the development:
    - [structs]: the records of package [structs] that the FSM decodes,
      applies and persists;
    - [StateStoreAPI]: the interface of package [consul/state] as the FSM
      calls it; the FSM is embedded over any implementation of it;
    - the FSM itself: [Apply] and its per-message handlers, [Persist] and
      [Restore];
    - [state_store]: a model of the state store;
    - the properties. *)

From stdpp Require Import gmap strings list fin_maps sorting pretty.
From Stdlib Require Import ZArith Lia.

Open Scope string_scope.
Open Scope Z_scope.

(** ** Package [structs] *)

(** Go's [error] values are compared to [nil] only; an error is its message. *)
Definition error := string.

(** Indexes are [uint64]. *)
Definition uint64_mod : Z := 2 ^ 64.

Record Node := {
  node_Node : string;
  node_Address : string;
  node_CreateIndex : Z;
  node_ModifyIndex : Z
}.

Record NodeService := {
  svc_ID : string;
  svc_Service : string;
  svc_Tags : list string;
  svc_Address : string;
  svc_Port : Z;
  svc_CreateIndex : Z;
  svc_ModifyIndex : Z
}.

Record HealthCheck := {
  chk_Node : string;
  chk_CheckID : string;
  chk_Name : string;
  chk_Status : string;
  chk_Notes : string;
  chk_Output : string;
  chk_ServiceID : string;
  chk_ServiceName : string;
  chk_CreateIndex : Z;
  chk_ModifyIndex : Z
}.

Record DirEntry := {
  de_LockIndex : Z;
  de_Key : string;
  de_Flags : Z;
  de_Value : list Z;
  de_Session : string;
  de_CreateIndex : Z;
  de_ModifyIndex : Z
}.

Record Session := {
  sess_ID : string;
  sess_Name : string;
  sess_Node : string;
  sess_Checks : list string;
  sess_LockDelay : Z;
  sess_Behavior : string;
  sess_TTL : string;
  sess_CreateIndex : Z;
  sess_ModifyIndex : Z
}.

Record ACL := {
  acl_ID : string;
  acl_Name : string;
  acl_Type : string;
  acl_Rules : string;
  acl_CreateIndex : Z;
  acl_ModifyIndex : Z
}.

(** [state_store.Tombstone] *)
Record Tombstone := {
  ts_Key : string;
  ts_Index : Z
}.

Record RegisterRequest := {
  rr_Datacenter : string;
  rr_Node : string;
  rr_Address : string;
  rr_Service : option NodeService;
  rr_Check : option HealthCheck;
  rr_Checks : list HealthCheck
}.

Record DeregisterRequest := {
  dr_Datacenter : string;
  dr_Node : string;
  dr_ServiceID : string;
  dr_CheckID : string
}.

(** The operation names are Go strings; a request can carry any string. *)
Definition KVSSet_op : string := "set".
Definition KVSDelete_op : string := "delete".
Definition KVSDeleteCAS_op : string := "delete-cas".
Definition KVSDeleteTree_op : string := "delete-tree".
Definition KVSCAS_op : string := "cas".
Definition KVSLock_op : string := "lock".
Definition KVSUnlock_op : string := "unlock".
Definition SessionCreate_op : string := "create".
Definition SessionDestroy_op : string := "destroy".
Definition ACLSet_op : string := "set".
Definition ACLForceSet_op : string := "force-set".
Definition ACLDelete_op : string := "delete".
Definition TombstoneReap_op : string := "reap".

Record KVSRequest := {
  kr_Datacenter : string;
  kr_Op : string;
  kr_DirEnt : DirEntry
}.

Record SessionRequest := {
  sr_Datacenter : string;
  sr_Op : string;
  sr_Session : Session
}.

Record ACLRequest := {
  ar_Datacenter : string;
  ar_Op : string;
  ar_ACL : ACL
}.

Record TombstoneRequest := {
  tr_Datacenter : string;
  tr_Op : string;
  tr_ReapIndex : Z
}.

#[global] Instance Node_eq_dec : EqDecision Node.
Proof. solve_decision. Defined.
#[global] Instance NodeService_eq_dec : EqDecision NodeService.
Proof. solve_decision. Defined.
#[global] Instance HealthCheck_eq_dec : EqDecision HealthCheck.
Proof. solve_decision. Defined.
#[global] Instance DirEntry_eq_dec : EqDecision DirEntry.
Proof. solve_decision. Defined.
#[global] Instance Session_eq_dec : EqDecision Session.
Proof. solve_decision. Defined.
#[global] Instance ACL_eq_dec : EqDecision ACL.
Proof. solve_decision. Defined.
#[global] Instance Tombstone_eq_dec : EqDecision Tombstone.
Proof. solve_decision. Defined.
#[global] Instance RegisterRequest_eq_dec : EqDecision RegisterRequest.
Proof. solve_decision. Defined.

(** Modelled from the spec: [structs.IgnoreUnknownTypeFlag], declared in
    package [structs] which is outside the excerpt.  The message type is one
    byte and the flag is its high bit. *)
Definition IgnoreUnknownTypeFlag : Z := 128.

(** The part of package [structs] that the FSM uses and whose declarations
    are outside the excerpt: the six message type constants and the decoder
    of each request.  [structs.Decode] returns an error on a malformed
    payload, here [None]. *)
Record StructsPkg := {
  RegisterRequestType : Z;
  DeregisterRequestType : Z;
  KVSRequestType : Z;
  SessionRequestType : Z;
  ACLRequestType : Z;
  TombstoneRequestType : Z;
  DecodeRegisterRequest : list Z → option RegisterRequest;
  DecodeDeregisterRequest : list Z → option DeregisterRequest;
  DecodeKVSRequest : list Z → option KVSRequest;
  DecodeSessionRequest : list Z → option SessionRequest;
  DecodeACLRequest : list Z → option ACLRequest;
  DecodeTombstoneRequest : list Z → option TombstoneRequest
}.

Definition recognized_types (sx : StructsPkg) : list Z :=
  [ RegisterRequestType sx; DeregisterRequestType sx; KVSRequestType sx;
    SessionRequestType sx; ACLRequestType sx; TombstoneRequestType sx ].

(** The message types are distinct constants of a byte-sized type that leave
    the high bit to the flag (Go rejects a [switch] with duplicate constant
    cases). *)
Definition message_types_ok (sx : StructsPkg) : Prop :=
  NoDup (recognized_types sx) ∧
  Forall (λ t, 0 ≤ t < IgnoreUnknownTypeFlag) (recognized_types sx).

(** ** Package [consul/state] as the FSM sees it *)

(** A call that mutates the store and returns [A]. *)
Definition call (S A : Type) : Type := S → A * S.

Record StateStoreAPI (S Snap : Type) := {
  NewStateStore : error + S;
  EnsureRegistration : Z → RegisterRequest → call S (option error);
  DeleteService : Z → string → string → call S (option error);
  DeleteCheck : Z → string → string → call S (option error);
  DeleteNode : Z → string → call S (option error);
  KVSSet : Z → DirEntry → call S (option error);
  KVSDelete : Z → string → call S (option error);
  KVSDeleteCAS : Z → Z → string → call S (bool * option error);
  KVSDeleteTree : Z → string → call S (option error);
  KVSSetCAS : Z → DirEntry → call S (bool * option error);
  KVSLock : Z → DirEntry → call S (bool * option error);
  KVSUnlock : Z → DirEntry → call S (bool * option error);
  SessionCreate : Z → Session → call S (option error);
  SessionDestroy : Z → string → call S (option error);
  ACLSet : Z → ACL → call S (option error);
  ACLDelete : Z → string → call S (option error);
  ReapTombstones : Z → call S (option error);
  KVSRestore : DirEntry → call S (option error);
  SessionRestore : Session → call S (option error);
  ACLRestore : ACL → call S (option error);
  TombstoneRestore : Tombstone → call S (option error);
  Snapshot : S → Snap;
  LastIndex : Snap → Z;
  NodeDump : Snap → error + list Node;
  ServiceDump : Snap → string → error + list NodeService;
  CheckDump : Snap → string → error + list HealthCheck;
  SessionDump : Snap → error + list Session;
  ACLDump : Snap → error + list ACL;
  KVSDump : Snap → error + list DirEntry;
  TombstoneDump : Snap → error + list Tombstone
}.

Arguments NewStateStore {S Snap}.
Arguments EnsureRegistration {S Snap}.
Arguments DeleteService {S Snap}.
Arguments DeleteCheck {S Snap}.
Arguments DeleteNode {S Snap}.
Arguments KVSSet {S Snap}.
Arguments KVSDelete {S Snap}.
Arguments KVSDeleteCAS {S Snap}.
Arguments KVSDeleteTree {S Snap}.
Arguments KVSSetCAS {S Snap}.
Arguments KVSLock {S Snap}.
Arguments KVSUnlock {S Snap}.
Arguments SessionCreate {S Snap}.
Arguments SessionDestroy {S Snap}.
Arguments ACLSet {S Snap}.
Arguments ACLDelete {S Snap}.
Arguments ReapTombstones {S Snap}.
Arguments KVSRestore {S Snap}.
Arguments SessionRestore {S Snap}.
Arguments ACLRestore {S Snap}.
Arguments TombstoneRestore {S Snap}.
Arguments Snapshot {S Snap}.
Arguments LastIndex {S Snap}.
Arguments NodeDump {S Snap}.
Arguments ServiceDump {S Snap}.
Arguments CheckDump {S Snap}.
Arguments SessionDump {S Snap}.
Arguments ACLDump {S Snap}.
Arguments KVSDump {S Snap}.
Arguments TombstoneDump {S Snap}.

(** ** The FSM ([consul/fsm.go])

    The calls to [metrics] and [time] only time the handlers, and the logger
    is kept as the list of lines the FSM printed; none of them feeds back
    into a result. *)

(** What [Apply] hands back to the log layer: Go's [interface{}] holding
    [nil], an [error], a [bool] or a [string]. *)
Inductive Resp :=
| RespNil
| RespErr (e : error)
| RespBool (b : bool)
| RespString (s : string).

#[global] Instance Resp_eq_dec : EqDecision Resp.
Proof. solve_decision. Defined.

(** A Go call either returns or panics. *)
Inductive outcome (A : Type) :=
| Returns (a : A)
| Panics (msg : string).
Arguments Returns {A}.
Arguments Panics {A}.

(** [raft.Log], the fields the FSM reads. *)
Record Log := {
  log_Index : Z;
  log_Data : list Z
}.

(** [snapshotHeader] *)
Record snapshotHeader := {
  hdr_LastIndex : Z
}.

(** The snapshot stream.  The msgpack codec is an external library; the
    stream is kept as the sequence of writes that produced it: a raw byte
    written with [sink.Write], or one object written by one [Encode] call.
    Decoding into a Go value succeeds on an object of that type and is an
    error on anything else, the end of the stream included.  [FOther] is
    content that no decoder accepts. *)
Inductive Frame :=
| FByte (b : Z)
| FHeader (h : snapshotHeader)
| FRegisterRequest (r : RegisterRequest)
| FDirEntry (d : DirEntry)
| FSession (s : Session)
| FACL (a : ACL)
| FOther.

(** [raft.SnapshotSink], as the buffer the tests persist into: what was
    written so far and whether [Cancel] was called.  A write to the buffer
    and an [Encode] of one of the records above do not fail, so the error
    branches of [Persist] that remain are those of the dumps of the store. *)
Record Sink := {
  sink_data : list Frame;
  sink_cancel : bool
}.

Definition sink_Write (b : Z) (k : Sink) : Sink :=
  {| sink_data := sink_data k ++ [FByte b]; sink_cancel := sink_cancel k |}.

Definition sink_Encode (f : Frame) (k : Sink) : Sink :=
  {| sink_data := sink_data k ++ [f]; sink_cancel := sink_cancel k |}.

Definition sink_Cancel (k : Sink) : Sink :=
  {| sink_data := sink_data k; sink_cancel := true |}.

Definition resp_of_err (e : option error) : Resp :=
  match e with
  | Some err => RespErr err
  | None => RespNil
  end.

Definition resp_of_act (r : bool * option error) : Resp :=
  match r.2 with
  | Some err => RespErr err
  | None => RespBool r.1
  end.

(** [^x] on a [uint8] *)
Definition complement8 (x : Z) : Z := Z.lxor x 255.

Section FSM.
Context {S Snap : Type}.
Variable sx : StructsPkg.
Variable st : StateStoreAPI S Snap.

(** [consulFSM]: the store and what went to the logger. *)
Record consulFSM := {
  fsm_state : S;
  fsm_logged : list string
}.

(** [consulSnapshot] *)
Record consulSnapshot := {
  snap_state : Snap
}.

Definition with_state (c : consulFSM) (s : S) : consulFSM :=
  {| fsm_state := s; fsm_logged := fsm_logged c |}.

Definition Printf (c : consulFSM) (line : string) : consulFSM :=
  {| fsm_state := fsm_state c; fsm_logged := fsm_logged c ++ [line] |}.

Definition State (c : consulFSM) : S := fsm_state c.

Definition applyRegister (c : consulFSM) (req : RegisterRequest) (index : Z)
  : Resp * consulFSM :=
  let '(err, s) := EnsureRegistration st index req (fsm_state c) in
  match err with
  | Some e =>
      (RespErr e,
       Printf (with_state c s)
         ("[INFO] consul.fsm: EnsureRegistration failed: " +:+ e))
  | None => (RespNil, with_state c s)
  end.

Definition decodeRegister (c : consulFSM) (buf : list Z) (index : Z)
  : outcome (Resp * consulFSM) :=
  match DecodeRegisterRequest sx buf with
  | None => Panics "failed to decode request"
  | Some req => Returns (applyRegister c req index)
  end.

Definition applyDeregister (c : consulFSM) (buf : list Z) (index : Z)
  : outcome (Resp * consulFSM) :=
  match DecodeDeregisterRequest sx buf with
  | None => Panics "failed to decode request"
  | Some req =>
      (* Either remove the service entry or the whole node *)
      if decide (dr_ServiceID req ≠ "") then
        let '(err, s) :=
          DeleteService st index (dr_Node req) (dr_ServiceID req) (fsm_state c) in
        match err with
        | Some e =>
            Returns (RespErr e,
                     Printf (with_state c s)
                       ("[INFO] consul.fsm: DeleteNodeService failed: " +:+ e))
        | None => Returns (RespNil, with_state c s)
        end
      else if decide (dr_CheckID req ≠ "") then
        let '(err, s) :=
          DeleteCheck st index (dr_Node req) (dr_CheckID req) (fsm_state c) in
        match err with
        | Some e =>
            Returns (RespErr e,
                     Printf (with_state c s)
                       ("[INFO] consul.fsm: DeleteNodeCheck failed: " +:+ e))
        | None => Returns (RespNil, with_state c s)
        end
      else
        let '(err, s) := DeleteNode st index (dr_Node req) (fsm_state c) in
        match err with
        | Some e =>
            Returns (RespErr e,
                     Printf (with_state c s)
                       ("[INFO] consul.fsm: DeleteNode failed: " +:+ e))
        | None => Returns (RespNil, with_state c s)
        end
  end.

Definition applyKVSOperation (c : consulFSM) (buf : list Z) (index : Z)
  : outcome (Resp * consulFSM) :=
  match DecodeKVSRequest sx buf with
  | None => Panics "failed to decode request"
  | Some req =>
      let op := kr_Op req in
      let d := kr_DirEnt req in
      if decide (op = KVSSet_op) then
        let '(err, s) := KVSSet st index d (fsm_state c) in
        Returns (resp_of_err err, with_state c s)
      else if decide (op = KVSDelete_op) then
        let '(err, s) := KVSDelete st index (de_Key d) (fsm_state c) in
        Returns (resp_of_err err, with_state c s)
      else if decide (op = KVSDeleteCAS_op) then
        let '(r, s) :=
          KVSDeleteCAS st index (de_ModifyIndex d) (de_Key d) (fsm_state c) in
        Returns (resp_of_act r, with_state c s)
      else if decide (op = KVSDeleteTree_op) then
        let '(err, s) := KVSDeleteTree st index (de_Key d) (fsm_state c) in
        Returns (resp_of_err err, with_state c s)
      else if decide (op = KVSCAS_op) then
        let '(r, s) := KVSSetCAS st index d (fsm_state c) in
        Returns (resp_of_act r, with_state c s)
      else if decide (op = KVSLock_op) then
        let '(r, s) := KVSLock st index d (fsm_state c) in
        Returns (resp_of_act r, with_state c s)
      else if decide (op = KVSUnlock_op) then
        let '(r, s) := KVSUnlock st index d (fsm_state c) in
        Returns (resp_of_act r, with_state c s)
      else
        let err := "Invalid KVS operation '" +:+ op +:+ "'" in
        Returns (RespErr err, Printf c ("[WARN] consul.fsm: " +:+ err))
  end.

Definition applySessionOperation (c : consulFSM) (buf : list Z) (index : Z)
  : outcome (Resp * consulFSM) :=
  match DecodeSessionRequest sx buf with
  | None => Panics "failed to decode request"
  | Some req =>
      let op := sr_Op req in
      if decide (op = SessionCreate_op) then
        let '(err, s) := SessionCreate st index (sr_Session req) (fsm_state c) in
        match err with
        | Some e => Returns (RespErr e, with_state c s)
        | None => Returns (RespString (sess_ID (sr_Session req)), with_state c s)
        end
      else if decide (op = SessionDestroy_op) then
        let '(err, s) :=
          SessionDestroy st index (sess_ID (sr_Session req)) (fsm_state c) in
        Returns (resp_of_err err, with_state c s)
      else
        Returns (RespErr ("Invalid Session operation '" +:+ op +:+ "'"),
                 Printf c ("[WARN] consul.fsm: Invalid Session operation '"
                           +:+ op +:+ "'"))
  end.

Definition applyACLOperation (c : consulFSM) (buf : list Z) (index : Z)
  : outcome (Resp * consulFSM) :=
  match DecodeACLRequest sx buf with
  | None => Panics "failed to decode request"
  | Some req =>
      let op := ar_Op req in
      if decide (op = ACLForceSet_op ∨ op = ACLSet_op) then
        let '(err, s) := ACLSet st index (ar_ACL req) (fsm_state c) in
        match err with
        | Some e => Returns (RespErr e, with_state c s)
        | None => Returns (RespString (acl_ID (ar_ACL req)), with_state c s)
        end
      else if decide (op = ACLDelete_op) then
        let '(err, s) := ACLDelete st index (acl_ID (ar_ACL req)) (fsm_state c) in
        Returns (resp_of_err err, with_state c s)
      else
        Returns (RespErr ("Invalid ACL operation '" +:+ op +:+ "'"),
                 Printf c ("[WARN] consul.fsm: Invalid ACL operation '"
                           +:+ op +:+ "'"))
  end.

Definition applyTombstoneOperation (c : consulFSM) (buf : list Z) (index : Z)
  : outcome (Resp * consulFSM) :=
  match DecodeTombstoneRequest sx buf with
  | None => Panics "failed to decode request"
  | Some req =>
      let op := tr_Op req in
      if decide (op = TombstoneReap_op) then
        let '(err, s) := ReapTombstones st (tr_ReapIndex req) (fsm_state c) in
        Returns (resp_of_err err, with_state c s)
      else
        Returns (RespErr ("Invalid Tombstone operation '" +:+ op +:+ "'"),
                 Printf c ("[WARN] consul.fsm: Invalid Tombstone operation '"
                           +:+ op +:+ "'"))
  end.

(** The flag test and the masking at the head of [Apply]: the type the
    [switch] dispatches on and [ignoreUnknown]. *)
Definition split_type (b : Z) : Z * bool :=
  if Z.land b IgnoreUnknownTypeFlag =? IgnoreUnknownTypeFlag
  then (Z.land b (complement8 IgnoreUnknownTypeFlag), true)
  else (b, false).

Definition Apply (c : consulFSM) (log : Log) : outcome (Resp * consulFSM) :=
  match log_Data log with
  | [] => Panics "index out of range"
  | b :: buf1 =>
      let '(msgType, ignoreUnknown) := split_type b in
      let index := log_Index log in
      if msgType =? RegisterRequestType sx then decodeRegister c buf1 index
      else if msgType =? DeregisterRequestType sx then applyDeregister c buf1 index
      else if msgType =? KVSRequestType sx then applyKVSOperation c buf1 index
      else if msgType =? SessionRequestType sx then applySessionOperation c buf1 index
      else if msgType =? ACLRequestType sx then applyACLOperation c buf1 index
      else if msgType =? TombstoneRequestType sx
      then applyTombstoneOperation c buf1 index
      else if ignoreUnknown then
        Returns (RespNil,
                 Printf c ("[WARN] consul.fsm: ignoring unknown message type ("
                           +:+ pretty msgType +:+ "), upgrade to newer version"))
      else Panics "failed to apply request"
  end.

(** The handlers of the six cases of the [switch], in its order. *)
Definition handlers : list (consulFSM → list Z → Z → outcome (Resp * consulFSM)) :=
  [ decodeRegister; applyDeregister; applyKVSOperation;
    applySessionOperation; applyACLOperation; applyTombstoneOperation ].

Definition Snapshot_fsm (c : consulFSM) : consulSnapshot * consulFSM :=
  ({| snap_state := Snapshot st (fsm_state c) |},
   Printf c "[INFO] consul.fsm: snapshot created").

(** *** Restore *)

Definition msg_unrecognized (b : Z) : error :=
  "Unrecognized msg type: [" +:+ pretty b +:+ "]".
Definition msg_decode : error := "msgpack decode error".

(** The loop of [Restore] over what is left of the stream.  Each round
    reads one type byte and decodes one object.  A read that finds an
    encoded object where the type byte should be gets the first byte of
    that object, which is no message type. *)
Fixpoint restore_loop (lastIndex : Z) (c : consulFSM) (old : list Frame)
  : consulFSM * option error :=
  match old with
  | [] => (c, None)                                 (* io.EOF *)
  | FByte b :: body =>
      if b =? RegisterRequestType sx then
        match body with
        | FRegisterRequest req :: old' =>
            restore_loop lastIndex (applyRegister c req lastIndex).2 old'
        | _ => (c, Some msg_decode)
        end
      else if b =? KVSRequestType sx then
        match body with
        | FDirEntry req :: old' =>
            let '(err, s) := KVSRestore st req (fsm_state c) in
            match err with
            | Some e => (with_state c s, Some e)
            | None => restore_loop lastIndex (with_state c s) old'
            end
        | _ => (c, Some msg_decode)
        end
      else if b =? SessionRequestType sx then
        match body with
        | FSession req :: old' =>
            let '(err, s) := SessionRestore st req (fsm_state c) in
            match err with
            | Some e => (with_state c s, Some e)
            | None => restore_loop lastIndex (with_state c s) old'
            end
        | _ => (c, Some msg_decode)
        end
      else if b =? ACLRequestType sx then
        match body with
        | FACL req :: old' =>
            let '(err, s) := ACLRestore st req (fsm_state c) in
            match err with
            | Some e => (with_state c s, Some e)
            | None => restore_loop lastIndex (with_state c s) old'
            end
        | _ => (c, Some msg_decode)
        end
      else if b =? TombstoneRequestType sx then
        match body with
        | FDirEntry req :: old' =>
            (* serialized in the snapshots as KV entries *)
            let stone := {| ts_Key := de_Key req; ts_Index := de_ModifyIndex req |} in
            let '(err, s) := TombstoneRestore st stone (fsm_state c) in
            match err with
            | Some e => (with_state c s, Some e)
            | None => restore_loop lastIndex (with_state c s) old'
            end
        | _ => (c, Some msg_decode)
        end
      else (c, Some (msg_unrecognized b))
  | _ :: _ => (c, Some "Unrecognized msg type")
  end.

Definition Restore (c : consulFSM) (old : list Frame) : consulFSM * option error :=
  (* Create a new state store *)
  match NewStateStore st with
  | inl err => (c, Some err)
  | inr state =>
      let c := with_state c state in
      (* Read in the header *)
      match old with
      | FHeader header :: old' =>
          (* Populate the new state *)
          restore_loop (hdr_LastIndex header) c old'
      | _ => (c, Some msg_decode)
      end
  end.

(** *** Persist *)

(** One [sink.Write] of the type byte followed by one [Encode]. *)
Definition emit (t : Z) (f : Frame) (sink : Sink) : Sink :=
  sink_Encode f (sink_Write t sink).

Definition persistNodeServices (req : RegisterRequest)
    (services : list NodeService) (sink : Sink) : Sink :=
  foldl (λ k srv,
           emit (RegisterRequestType sx)
             (FRegisterRequest
                {| rr_Datacenter := rr_Datacenter req; rr_Node := rr_Node req;
                   rr_Address := rr_Address req; rr_Service := Some srv;
                   rr_Check := rr_Check req; rr_Checks := rr_Checks req |}) k)
        sink services.

Definition persistNodeChecks (req : RegisterRequest)
    (checks : list HealthCheck) (sink : Sink) : Sink :=
  foldl (λ k check,
           emit (RegisterRequestType sx)
             (FRegisterRequest
                {| rr_Datacenter := rr_Datacenter req; rr_Node := rr_Node req;
                   rr_Address := rr_Address req; rr_Service := None;
                   rr_Check := Some check; rr_Checks := rr_Checks req |}) k)
        sink checks.

(** The body of the loop over the nodes in [persistNodes]. *)
Fixpoint persistNodes_loop (s : consulSnapshot) (nodes : list Node) (sink : Sink)
  : Sink * option error :=
  match nodes with
  | [] => (sink, None)
  | n :: nodes' =>
      let req := {| rr_Datacenter := ""; rr_Node := node_Node n;
                    rr_Address := node_Address n; rr_Service := None;
                    rr_Check := None; rr_Checks := [] |} in
      (* Register the node itself *)
      let sink := emit (RegisterRequestType sx) (FRegisterRequest req) sink in
      (* Register each service this node has *)
      match ServiceDump st (snap_state s) (node_Node n) with
      | inl err => (sink, Some err)
      | inr services =>
          let sink := persistNodeServices req services sink in
          (* Register each check this node has *)
          match CheckDump st (snap_state s) (node_Node n) with
          | inl err => (sink, Some err)
          | inr checks =>
              let sink := persistNodeChecks req checks sink in
              persistNodes_loop s nodes' sink
          end
      end
  end.

Definition persistNodes (s : consulSnapshot) (sink : Sink) : Sink * option error :=
  match NodeDump st (snap_state s) with
  | inl err => (sink, Some err)
  | inr nodes => persistNodes_loop s nodes sink
  end.

Definition persistSessions (s : consulSnapshot) (sink : Sink) : Sink * option error :=
  match SessionDump st (snap_state s) with
  | inl err => (sink, Some err)
  | inr sessions =>
      (foldl (λ k x, emit (SessionRequestType sx) (FSession x) k) sink sessions,
       None)
  end.

Definition persistACLs (s : consulSnapshot) (sink : Sink) : Sink * option error :=
  match ACLDump st (snap_state s) with
  | inl err => (sink, Some err)
  | inr acls =>
      (foldl (λ k x, emit (ACLRequestType sx) (FACL x) k) sink acls, None)
  end.

Definition persistKV (s : consulSnapshot) (sink : Sink) : Sink * option error :=
  match KVSDump st (snap_state s) with
  | inl err => (sink, Some err)
  | inr entries =>
      (foldl (λ k e, emit (KVSRequestType sx) (FDirEntry e) k) sink entries, None)
  end.

(** A tombstone is written as a K/V entry that carries its key and, as
    [ModifyIndex], its index. *)
Definition fake_entry (x : Tombstone) : DirEntry :=
  {| de_LockIndex := 0; de_Key := ts_Key x; de_Flags := 0; de_Value := [];
     de_Session := ""; de_CreateIndex := 0; de_ModifyIndex := ts_Index x |}.

Definition persistTombstones (s : consulSnapshot) (sink : Sink)
  : Sink * option error :=
  match TombstoneDump st (snap_state s) with
  | inl err => (sink, Some err)
  | inr stones =>
      (foldl (λ k x, emit (TombstoneRequestType sx) (FDirEntry (fake_entry x)) k)
             sink stones,
       None)
  end.

Definition Persist (s : consulSnapshot) (sink : Sink) : Sink * option error :=
  (* Write the header *)
  let header := {| hdr_LastIndex := LastIndex st (snap_state s) |} in
  let sink := sink_Encode (FHeader header) sink in
  match persistNodes s sink with
  | (sink, Some err) => (sink_Cancel sink, Some err)
  | (sink, None) =>
  match persistSessions s sink with
  | (sink, Some err) => (sink_Cancel sink, Some err)
  | (sink, None) =>
  match persistACLs s sink with
  | (sink, Some err) => (sink_Cancel sink, Some err)
  | (sink, None) =>
  match persistKV s sink with
  | (sink, Some err) => (sink_Cancel sink, Some err)
  | (sink, None) =>
  match persistTombstones s sink with
  | (sink, Some err) => (sink_Cancel sink, Some err)
  | (sink, None) => (sink, None)
  end end end end end.
End FSM.

Arguments consulFSM : clear implicits.
Arguments consulSnapshot : clear implicits.

(** ** The state store

    Package [consul/state] is not among the source files: only its tests
    and the calls the FSM makes are at hand.  The model below follows the spec's
    description of the store, and the tests of the store where they pin a
    behaviour down. *)

Definition str_le (a b : string) : Prop := String.leb a b = true.
#[global] Instance str_le_dec a b : Decision (str_le a b).
Proof. unfold str_le. apply _. Defined.

(** Compound keys [(node, id)] order by node, then by id. *)
Definition pair_le (a b : string * string) : Prop :=
  if decide (a.1 = b.1) then str_le a.2 b.2 else str_le a.1 b.1.
#[global] Instance pair_le_dec a b : Decision (pair_le a b).
Proof. unfold pair_le. destruct (decide (a.1 = b.1)); apply _. Defined.

Section rows.
Context {K : Type} `{Countable K} {V : Type}.
Variable le : relation K.
Context `{∀ x y, Decision (le x y)}.

(** Iteration over a table goes in key order. *)
Definition keys_of (m : gmap K V) : list K := merge_sort le (elements (dom m)).
Definition rows (m : gmap K V) : list V := omap (λ k, m !! k) (keys_of m).
End rows.

Definition max_list (l : list Z) : Z := foldr Z.max 0 l.

Module state_store.

(** Modelled from the spec: the tables of the state store (spec section 3),
    one finite map per entity keyed as the data model says, and the index
    table [IndexRow].  [session_checks] is an index over the sessions
    (node, check id, session); the model scans [sessions] instead. *)
Record StateStore := {
  nodes : gmap string Node;
  services : gmap (string * string) NodeService;
  checks : gmap (string * string) HealthCheck;
  kvs : gmap string DirEntry;
  tombstones : gmap string Tombstone;
  sessions : gmap string Session;
  acls : gmap string ACL;
  index : gmap string Z
}.

(** Modelled from the spec: [NewStateStore], the empty store. *)
Definition empty : StateStore :=
  {| nodes := ∅; services := ∅; checks := ∅; kvs := ∅; tombstones := ∅;
     sessions := ∅; acls := ∅; index := ∅ |}.

(** Modelled from the spec: the setters of the tables: a write replaces one table
    and leaves the others. *)
Definition set_nodes (m : gmap string Node) (s : StateStore) : StateStore :=
  {| nodes := m; services := services s; checks := checks s; kvs := kvs s;
     tombstones := tombstones s; sessions := sessions s; acls := acls s;
     index := index s |}.
(** Modelled from the spec: see [set_nodes]. *)
Definition set_services (m : gmap (string * string) NodeService) (s : StateStore)
  : StateStore :=
  {| nodes := nodes s; services := m; checks := checks s; kvs := kvs s;
     tombstones := tombstones s; sessions := sessions s; acls := acls s;
     index := index s |}.
(** Modelled from the spec: see [set_nodes]. *)
Definition set_checks (m : gmap (string * string) HealthCheck) (s : StateStore)
  : StateStore :=
  {| nodes := nodes s; services := services s; checks := m; kvs := kvs s;
     tombstones := tombstones s; sessions := sessions s; acls := acls s;
     index := index s |}.
(** Modelled from the spec: see [set_nodes]. *)
Definition set_kvs (m : gmap string DirEntry) (s : StateStore) : StateStore :=
  {| nodes := nodes s; services := services s; checks := checks s; kvs := m;
     tombstones := tombstones s; sessions := sessions s; acls := acls s;
     index := index s |}.
(** Modelled from the spec: see [set_nodes]. *)
Definition set_tombstones (m : gmap string Tombstone) (s : StateStore)
  : StateStore :=
  {| nodes := nodes s; services := services s; checks := checks s; kvs := kvs s;
     tombstones := m; sessions := sessions s; acls := acls s;
     index := index s |}.
(** Modelled from the spec: see [set_nodes]. *)
Definition set_sessions (m : gmap string Session) (s : StateStore) : StateStore :=
  {| nodes := nodes s; services := services s; checks := checks s; kvs := kvs s;
     tombstones := tombstones s; sessions := m; acls := acls s;
     index := index s |}.
(** Modelled from the spec: see [set_nodes]. *)
Definition set_acls (m : gmap string ACL) (s : StateStore) : StateStore :=
  {| nodes := nodes s; services := services s; checks := checks s; kvs := kvs s;
     tombstones := tombstones s; sessions := sessions s; acls := m;
     index := index s |}.
(** Modelled from the spec: see [set_nodes]. *)
Definition set_index (m : gmap string Z) (s : StateStore) : StateStore :=
  {| nodes := nodes s; services := services s; checks := checks s; kvs := kvs s;
     tombstones := tombstones s; sessions := sessions s; acls := acls s;
     index := m |}.

(** *** The index table *)

(** Modelled from the spec: [IndexRow[table]], 0 for a table never
    written (spec section 4.2). *)
Definition IndexRow (table : string) (s : StateStore) : Z :=
  default 0 (index s !! table).

(** Modelled from the spec: [maxIndex(tables...)], the largest [IndexRow]
    of the given tables (tests [TestStateStore_maxIndex]). *)
Definition maxIndex (tables : list string) (s : StateStore) : Z :=
  max_list ((λ t, IndexRow t s) <$> tables).

(** Modelled from the spec: every write to a domain writes
    [IndexRow[domain] = log-index] (spec section 4.2). *)
Definition indexUpdate (table : string) (idx : Z) (s : StateStore) : StateStore :=
  set_index (<[table := idx]> (index s)) s.

(** Modelled from the spec: [indexUpdateMaxTxn], which only ever raises
    the row (test [TestStateStore_indexUpdateMaxTxn]); the restore calls
    use it, as [TestStateStore_ACL_Snapshot_Restore] shows. *)
Definition indexUpdateMax (table : string) (idx : Z) (s : StateStore) : StateStore :=
  if decide (IndexRow table s < idx) then indexUpdate table idx s else s.

(** Modelled from the spec: the snapshot's [LastIndex], the largest index
    any table was written at (spec section 4.8). *)
Definition lastIndex (s : StateStore) : Z :=
  max_list ((map_to_list (index s)).*2).

(** Modelled from the spec: the errors of the store (spec section 7:
    precondition errors). *)
Definition ErrMissingNode : error := "Missing node registration".
(** Modelled from the spec: see [ErrMissingNode]. *)
Definition ErrMissingService : error := "Missing service registration".
(** Modelled from the spec: see [ErrMissingNode]. *)
Definition ErrMissingSessionID : error := "Missing session ID".
(** Modelled from the spec: see [ErrMissingNode]. *)
Definition ErrMissingACLID : error := "Missing ACL ID".

(** Modelled from the spec: the status a check without status gets, and the one
    that bars or destroys a session. *)
Definition HealthCritical : string := "critical".
(** Modelled from the spec: the status filter that keeps every check. *)
Definition HealthAny : string := "any".
(** Modelled from the spec: the default session behaviour: held keys are
    released when the session goes. *)
Definition SessionKeysRelease : string := "release".
(** Modelled from the spec: the session behaviour that deletes the held keys. *)
Definition SessionKeysDelete : string := "delete".

(** *** Key/value store and tombstones (spec sections 4.4 and 4.6) *)

(** Modelled from the spec: an entry with its [CreateIndex] and [ModifyIndex]
    set by the store. *)
Definition stamp_entry (create modify : Z) (e : DirEntry) : DirEntry :=
  {| de_LockIndex := de_LockIndex e; de_Key := de_Key e; de_Flags := de_Flags e;
     de_Value := de_Value e; de_Session := de_Session e;
     de_CreateIndex := create; de_ModifyIndex := modify |}.

(** Modelled from the spec: an entry with its holder and [LockIndex] set by the
    store. *)
Definition with_lock (session : string) (lockIndex : Z) (e : DirEntry) : DirEntry :=
  {| de_LockIndex := lockIndex; de_Key := de_Key e; de_Flags := de_Flags e;
     de_Value := de_Value e; de_Session := session;
     de_CreateIndex := de_CreateIndex e; de_ModifyIndex := de_ModifyIndex e |}.

(** Modelled from the spec: [KVSGet(key)] returns the entry or nothing. *)
Definition KVSGet (key : string) (s : StateStore) : option DirEntry :=
  kvs s !! key.

(** Modelled from the spec: the write shared by [KVSSet], a successful [KVSSetCAS] and the lock
    operations: upsert preserving [CreateIndex]; a prior tombstone of the
    key is removed; the [kvs] row of the index table is written. *)
Definition kvsSetTxn (idx : Z) (entry : DirEntry) (s : StateStore) : StateStore :=
  let create :=
    match kvs s !! de_Key entry with
    | Some existing => de_CreateIndex existing
    | None => idx
    end in
  indexUpdate "kvs" idx
    (set_tombstones (delete (de_Key entry) (tombstones s))
       (set_kvs (<[de_Key entry := stamp_entry create idx entry]> (kvs s)) s)).

(** Modelled from the spec: [KVSSet(index, entry)], upsert preserving
    [CreateIndex]; if a prior tombstone exists it is removed. *)
Definition KVSSet (idx : Z) (entry : DirEntry) (s : StateStore)
  : option error * StateStore :=
  (None, kvsSetTxn idx entry s).

(** Modelled from the spec: removal of one live entry: the entry goes and a tombstone at [idx]
    takes its place. *)
Definition kvsDeleteTxn (idx : Z) (key : string) (s : StateStore) : StateStore :=
  indexUpdate "tombstones" idx
    (set_tombstones (<[key := {| ts_Key := key; ts_Index := idx |}]> (tombstones s))
       (set_kvs (delete key (kvs s)) s)).

(** Modelled from the spec: [KVSDelete(index, key)] removes the entry and
    writes a tombstone at [index]; the delete of a missing key succeeds
    and does not bump the index. *)
Definition KVSDelete (idx : Z) (key : string) (s : StateStore)
  : option error * StateStore :=
  match kvs s !! key with
  | None => (None, s)
  | Some _ => (None, indexUpdate "kvs" idx (kvsDeleteTxn idx key s))
  end.

(** Modelled from the spec: the live keys under a prefix, in key order. *)
Definition keys_under (prefix : string) (s : StateStore) : list string :=
  filter (λ k, String.prefix prefix k = true) (keys_of str_le (kvs s)).

(** Modelled from the spec: [KVSDeleteTree(index, prefix)] removes every
    entry under the prefix with a tombstone per removal; if nothing
    matched, neither table nor index is mutated. *)
Definition KVSDeleteTree (idx : Z) (prefix : string) (s : StateStore)
  : option error * StateStore :=
  match keys_under prefix s with
  | [] => (None, s)
  | ks => (None, indexUpdate "kvs" idx (foldl (λ s k, kvsDeleteTxn idx k s) s ks))
  end.

(** Modelled from the spec: [KVSSetCAS(index, entry)] succeeds iff
    ([entry.ModifyIndex == 0] and the key does not exist) or (the key
    exists and the stored [ModifyIndex] equals [entry.ModifyIndex]); the
    transaction mutates only on success; a mismatch is not an error. *)
Definition KVSSetCAS (idx : Z) (entry : DirEntry) (s : StateStore)
  : (bool * option error) * StateStore :=
  match kvs s !! de_Key entry with
  | None =>
      if decide (de_ModifyIndex entry = 0)
      then ((true, None), kvsSetTxn idx entry s)
      else ((false, None), s)
  | Some stored =>
      if decide (de_ModifyIndex stored = de_ModifyIndex entry)
      then ((true, None), kvsSetTxn idx entry s)
      else ((false, None), s)
  end.

(** Modelled from the spec: [KVSDeleteCAS(index, modifyIndex, key)]
    succeeds iff the key does not exist (idempotent true) or the stored
    [ModifyIndex] equals [modifyIndex]. *)
Definition KVSDeleteCAS (idx cidx : Z) (key : string) (s : StateStore)
  : (bool * option error) * StateStore :=
  match kvs s !! key with
  | None => ((true, None), s)
  | Some stored =>
      if decide (de_ModifyIndex stored = cidx)
      then ((true, None), indexUpdate "kvs" idx (kvsDeleteTxn idx key s))
      else ((false, None), s)
  end.

(** Modelled from the spec: [KVSLock(index, entry)] requires a session id
    and an existing session (precondition errors otherwise).  On a key
    that is unheld or held by the same session the entry's session is set;
    [LockIndex] is incremented only on acquisition by a new holder.
    [ok=false] if another session holds the key. *)
Definition KVSLock (idx : Z) (entry : DirEntry) (s : StateStore)
  : (bool * option error) * StateStore :=
  if decide (de_Session entry = "") then ((false, Some "missing session"), s)
  else match sessions s !! de_Session entry with
  | None => ((false, Some ("invalid session " +:+ de_Session entry)), s)
  | Some _ =>
      match kvs s !! de_Key entry with
      | Some existing =>
          if decide (de_Session existing = de_Session entry) then
            ((true, None),
             kvsSetTxn idx (with_lock (de_Session entry) (de_LockIndex existing) entry) s)
          else if decide (de_Session existing ≠ "") then ((false, None), s)
          else
            ((true, None),
             kvsSetTxn idx
               (with_lock (de_Session entry)
                  ((de_LockIndex existing + 1) mod uint64_mod) entry) s)
      | None =>
          ((true, None), kvsSetTxn idx (with_lock (de_Session entry) 1 entry) s)
      end
  end.

(** Modelled from the spec: [KVSUnlock(index, entry)] requires
    [entry.Session] to be the holder; it clears the session field and
    preserves [LockIndex]; unlocking by a non-holder returns [ok=false]
    without mutation. *)
Definition KVSUnlock (idx : Z) (entry : DirEntry) (s : StateStore)
  : (bool * option error) * StateStore :=
  if decide (de_Session entry = "") then ((false, Some "missing session"), s)
  else match kvs s !! de_Key entry with
  | None => ((false, None), s)
  | Some existing =>
      if decide (de_Session existing = de_Session entry) then
        ((true, None), kvsSetTxn idx (with_lock "" (de_LockIndex existing) entry) s)
      else ((false, None), s)
  end.

(** Modelled from the spec: the tombstones under a prefix. *)
Definition stones_under (prefix : string) (s : StateStore) : list Tombstone :=
  filter (λ x, String.prefix prefix (ts_Key x) = true) (rows str_le (tombstones s)).

(** Modelled from the spec: the live entries under a prefix, in key
    order. *)
Definition entries_under (prefix : string) (s : StateStore) : list DirEntry :=
  filter (λ e, String.prefix prefix (de_Key e) = true) (rows str_le (kvs s)).

(** Modelled from the spec: [KVSList(prefix)] returns the live entries
    under the prefix; the result index is the largest [ModifyIndex] of the
    matching live entries and the largest index of the matching
    tombstones (spec section 4.2, prefix K/V queries), 0 when neither
    exists ([TestFSM_TombstoneReap]). *)
Definition KVSList (prefix : string) (s : StateStore) : Z * list DirEntry :=
  let ents := entries_under prefix s in
  (Z.max (max_list (de_ModifyIndex <$> ents))
         (max_list (ts_Index <$> stones_under prefix s)),
   ents).

(** Modelled from the spec: [ReapTombstones(upto)] deletes every
    tombstone with [index ≤ upto] (spec section 4.6). *)
Definition ReapTombstones (upto : Z) (s : StateStore) : option error * StateStore :=
  (None, set_tombstones (filter (λ kv, ¬ (ts_Index kv.2 ≤ upto)) (tombstones s)) s).


(** *** Catalog (spec section 4.3) *)

(** Modelled from the spec: a node with its indexes set by the store. *)
Definition stamp_node (create modify : Z) (n : Node) : Node :=
  {| node_Node := node_Node n; node_Address := node_Address n;
     node_CreateIndex := create; node_ModifyIndex := modify |}.

(** Modelled from the spec: a service with its indexes set by the store. *)
Definition stamp_service (create modify : Z) (v : NodeService) : NodeService :=
  {| svc_ID := svc_ID v; svc_Service := svc_Service v; svc_Tags := svc_Tags v;
     svc_Address := svc_Address v; svc_Port := svc_Port v;
     svc_CreateIndex := create; svc_ModifyIndex := modify |}.

(** Modelled from the spec: a check with its status, service name and indexes set
    by the store. *)
Definition stamp_check (status serviceName : string) (create modify : Z)
    (h : HealthCheck) : HealthCheck :=
  {| chk_Node := chk_Node h; chk_CheckID := chk_CheckID h; chk_Name := chk_Name h;
     chk_Status := status; chk_Notes := chk_Notes h; chk_Output := chk_Output h;
     chk_ServiceID := chk_ServiceID h; chk_ServiceName := serviceName;
     chk_CreateIndex := create; chk_ModifyIndex := modify |}.

(** Modelled from the spec: [EnsureNode], an upsert preserving
    [CreateIndex]; [ModifyIndex] becomes the log index on every upsert
    ([TestStateStore_EnsureRegistration] re-registers an unchanged node at
    index 2 and reads [ModifyIndex] 2). *)
Definition ensureNodeTxn (idx : Z) (node : Node) (s : StateStore) : StateStore :=
  let create :=
    match nodes s !! node_Node node with
    | Some existing => node_CreateIndex existing
    | None => idx
    end in
  indexUpdate "nodes" idx
    (set_nodes (<[node_Node node := stamp_node create idx node]> (nodes s)) s).

(** Modelled from the spec: [EnsureNode(index, node)] as its own transaction. *)
Definition EnsureNode (idx : Z) (node : Node) (s : StateStore)
  : option error * StateStore :=
  (None, ensureNodeTxn idx node s).

(** Modelled from the spec: [EnsureService] fails if the node is unknown;
    updates preserve [CreateIndex]. *)
Definition ensureServiceTxn (idx : Z) (node : string) (svc : NodeService)
    (s : StateStore) : error + StateStore :=
  match nodes s !! node with
  | None => inl ErrMissingNode
  | Some _ =>
      let create :=
        match services s !! (node, svc_ID svc) with
        | Some existing => svc_CreateIndex existing
        | None => idx
        end in
      inr (indexUpdate "services" idx
             (set_services
                (<[(node, svc_ID svc) := stamp_service create idx svc]> (services s)) s))
  end.

(** Modelled from the spec: [EnsureService(index, node, svc)] as its own
    transaction: on error the store is unchanged. *)
Definition EnsureService (idx : Z) (node : string) (svc : NodeService)
    (s : StateStore) : option error * StateStore :=
  match ensureServiceTxn idx node svc s with
  | inl e => (Some e, s)
  | inr s' => (None, s')
  end.

(** Modelled from the spec: [EnsureCheck]; the default status is critical
    when empty; creation fails if the node is unknown or if the service id
    is nonempty but unknown.  The check carries the name of its service
    ([TestStateStore_NodeInfo_NodeDump]). *)
Definition ensureCheckTxn (idx : Z) (hc : HealthCheck) (s : StateStore)
  : error + StateStore :=
  let status := if decide (chk_Status hc = "") then HealthCritical else chk_Status hc in
  match nodes s !! chk_Node hc with
  | None => inl ErrMissingNode
  | Some _ =>
      let named :=
        if decide (chk_ServiceID hc ≠ "") then
          match services s !! (chk_Node hc, chk_ServiceID hc) with
          | None => inl ErrMissingService
          | Some svc => inr (svc_Service svc)
          end
        else inr (chk_ServiceName hc) in
      match named with
      | inl e => inl e
      | inr serviceName =>
          let create :=
            match checks s !! (chk_Node hc, chk_CheckID hc) with
            | Some existing => chk_CreateIndex existing
            | None => idx
            end in
          inr (indexUpdate "checks" idx
                 (set_checks
                    (<[(chk_Node hc, chk_CheckID hc) :=
                         stamp_check status serviceName create idx hc]> (checks s)) s))
      end
  end.

(** Modelled from the spec: [EnsureCheck(index, check)] as its own transaction: on
    error the store is unchanged. *)
Definition EnsureCheck (idx : Z) (hc : HealthCheck) (s : StateStore)
  : option error * StateStore :=
  match ensureCheckTxn idx hc s with
  | inl e => (Some e, s)
  | inr s' => (None, s')
  end.

(** Modelled from the spec: the checks of a registration, in order, up to the
    first failure. *)
Fixpoint ensureChecksTxn (idx : Z) (hcs : list HealthCheck) (s : StateStore)
  : error + StateStore :=
  match hcs with
  | [] => inr s
  | hc :: hcs' =>
      match ensureCheckTxn idx hc s with
      | inl e => inl e
      | inr s' => ensureChecksTxn idx hcs' s'
      end
  end.

(** Modelled from the spec: [EnsureRegistration(index, req)], atomic:
    upsert the node, then optionally the single service, the single
    top-level check, then each item of [Checks]; any failure aborts the
    whole transaction. *)
Definition ensureRegistrationTxn (idx : Z) (req : RegisterRequest) (s : StateStore)
  : error + StateStore :=
  let s1 := ensureNodeTxn idx
              {| node_Node := rr_Node req; node_Address := rr_Address req;
                 node_CreateIndex := 0; node_ModifyIndex := 0 |} s in
  let r2 :=
    match rr_Service req with
    | Some svc => ensureServiceTxn idx (rr_Node req) svc s1
    | None => inr s1
    end in
  match r2 with
  | inl e => inl e
  | inr s2 =>
      let r3 :=
        match rr_Check req with
        | Some hc => ensureCheckTxn idx hc s2
        | None => inr s2
        end in
      match r3 with
      | inl e => inl e
      | inr s3 => ensureChecksTxn idx (rr_Checks req) s3
      end
  end.

(** Modelled from the spec: [EnsureRegistration] commits the transaction or,
    on error, leaves the store unchanged. *)
Definition EnsureRegistration (idx : Z) (req : RegisterRequest) (s : StateStore)
  : option error * StateStore :=
  match ensureRegistrationTxn idx req s with
  | inl e => (Some e, s)
  | inr s' => (None, s')
  end.

(** *** Sessions (spec section 4.5) *)

(** Modelled from the spec: a session with its behaviour and indexes set by the
    store. *)
Definition stamp_session (behavior : string) (create modify : Z) (x : Session)
  : Session :=
  {| sess_ID := sess_ID x; sess_Name := sess_Name x; sess_Node := sess_Node x;
     sess_Checks := sess_Checks x; sess_LockDelay := sess_LockDelay x;
     sess_Behavior := behavior; sess_TTL := sess_TTL x;
     sess_CreateIndex := create; sess_ModifyIndex := modify |}.

(** Modelled from the spec: the first check of the list that bars the
    session: unknown, or
    critical. *)
Fixpoint session_check_error (node : string) (cids : list string) (s : StateStore)
  : option error :=
  match cids with
  | [] => None
  | cid :: cids' =>
      match checks s !! (node, cid) with
      | None => Some ("Missing check '" +:+ cid +:+ "' registration")
      | Some hc =>
          if decide (chk_Status hc = HealthCritical)
          then Some ("Check '" +:+ cid +:+ "' is in " +:+ HealthCritical +:+ " state")
          else session_check_error node cids' s
      end
  end.

(** Modelled from the spec: [SessionCreate]; creation fails if the id is
    missing, if the behaviour string is unknown, if the node is unknown or
    if any referenced check is unknown or critical; the default behaviour
    is release. *)
Definition SessionCreate (idx : Z) (sess : Session) (s : StateStore)
  : option error * StateStore :=
  if decide (sess_ID sess = "") then (Some ErrMissingSessionID, s)
  else
    let behavior :=
      if decide (sess_Behavior sess = "") then Some SessionKeysRelease
      else if decide (sess_Behavior sess = SessionKeysRelease) then Some SessionKeysRelease
      else if decide (sess_Behavior sess = SessionKeysDelete) then Some SessionKeysDelete
      else None in
    match behavior with
    | None => (Some ("Invalid session behavior: " +:+ sess_Behavior sess), s)
    | Some b =>
        match nodes s !! sess_Node sess with
        | None => (Some ErrMissingNode, s)
        | Some _ =>
            match session_check_error (sess_Node sess) (sess_Checks sess) s with
            | Some e => (Some e, s)
            | None =>
                (None,
                 indexUpdate "sessions" idx
                   (set_sessions
                      (<[sess_ID sess := stamp_session b idx idx sess]> (sessions s)) s))
            end
        end
    end.

(** Modelled from the spec: the keys a session holds, in key order. *)
Definition held_keys (id : string) (s : StateStore) : list string :=
  filter (λ k, de_Session <$> (kvs s !! k) = Some id) (keys_of str_le (kvs s)).

(** Modelled from the spec: release of one held key: the holder is cleared, [LockIndex] stays. *)
Definition kvsReleaseTxn (idx : Z) (key : string) (s : StateStore) : StateStore :=
  match kvs s !! key with
  | None => s
  | Some e =>
      set_kvs (<[key := stamp_entry (de_CreateIndex e) idx
                          (with_lock "" (de_LockIndex e) e)]> (kvs s)) s
  end.

(** Modelled from the spec: destruction of a session, whatever its
    cause: the session goes, and
    each K/V entry it holds is released (default) or deleted, by the
    session's behaviour. *)
Definition deleteSessionTxn (idx : Z) (id : string) (s : StateStore) : StateStore :=
  match sessions s !! id with
  | None => s
  | Some sess =>
      let held := held_keys id s in
      let s1 := indexUpdate "sessions" idx (set_sessions (delete id (sessions s)) s) in
      match held with
      | [] => s1
      | _ =>
          if decide (sess_Behavior sess = SessionKeysDelete)
          then indexUpdate "kvs" idx (foldl (λ s k, kvsDeleteTxn idx k s) s1 held)
          else indexUpdate "kvs" idx (foldl (λ s k, kvsReleaseTxn idx k s) s1 held)
      end
  end.

(** Modelled from the spec: [SessionDestroy]; idempotent. *)
Definition SessionDestroy (idx : Z) (id : string) (s : StateStore)
  : option error * StateStore :=
  (None, deleteSessionTxn idx id s).


(** Modelled from the spec: the sessions of a node, in id order. *)
Definition sessions_of_node (node : string) (s : StateStore) : list string :=
  filter (λ id, sess_Node <$> (sessions s !! id) = Some node)
         (keys_of str_le (sessions s)).

(** Modelled from the spec: the sessions that reference a check of a node (the
    [session_checks] index), in id order. *)
Definition sessions_of_check (node cid : string) (s : StateStore) : list string :=
  filter (λ id, (λ x, bool_decide (sess_Node x = node ∧ cid ∈ sess_Checks x))
                  <$> (sessions s !! id) = Some true)
         (keys_of str_le (sessions s)).

(** *** Catalog deletes *)

(** Modelled from the spec: removal of one check; the sessions that
    reference it are destroyed. *)
Definition deleteCheckTxn (idx : Z) (node cid : string) (s : StateStore)
  : StateStore :=
  match checks s !! (node, cid) with
  | None => s
  | Some _ =>
      let s1 := indexUpdate "checks" idx
                  (set_checks (delete (node, cid) (checks s)) s) in
      foldl (λ s id, deleteSessionTxn idx id s) s1 (sessions_of_check node cid s)
  end.

(** Modelled from the spec: [DeleteCheck(index, node, checkID)]
    invalidates the sessions referencing the check; deleting a missing
    check succeeds without bumping the index. *)
Definition DeleteCheck (idx : Z) (node cid : string) (s : StateStore)
  : option error * StateStore :=
  (None, deleteCheckTxn idx node cid s).

(** Modelled from the spec: the checks of one service of a node, in key order. *)
Definition checks_of_service (node sid : string) (s : StateStore)
  : list (string * string) :=
  filter (λ k, k.1 = node ∧ chk_ServiceID <$> (checks s !! k) = Some sid)
         (keys_of pair_le (checks s)).

(** Modelled from the spec: removal of one service; its checks go with it. *)
Definition deleteServiceTxn (idx : Z) (node sid : string) (s : StateStore)
  : StateStore :=
  match services s !! (node, sid) with
  | None => s
  | Some _ =>
      let s1 := foldl (λ s k, deleteCheckTxn idx k.1 k.2 s) s
                      (checks_of_service node sid s) in
      indexUpdate "services" idx (set_services (delete (node, sid) (services s1)) s1)
  end.

(** Modelled from the spec: [DeleteService(index, node, svcID)] cascades
    to the checks attached to that service on that node. *)
Definition DeleteService (idx : Z) (node sid : string) (s : StateStore)
  : option error * StateStore :=
  (None, deleteServiceTxn idx node sid s).

(** Modelled from the spec: the services of a node, in key order. *)
Definition services_of_node (node : string) (s : StateStore)
  : list (string * string) :=
  filter (λ k, k.1 = node) (keys_of pair_le (services s)).

(** Modelled from the spec: the checks of a node, in key order. *)
Definition checks_of_node (node : string) (s : StateStore)
  : list (string * string) :=
  filter (λ k, k.1 = node) (keys_of pair_le (checks s)).

(** Modelled from the spec: removal of one node; its services, checks and
    sessions go with it. *)
Definition deleteNodeTxn (idx : Z) (node : string) (s : StateStore) : StateStore :=
  match nodes s !! node with
  | None => s
  | Some _ =>
      let s1 := foldl (λ s k, deleteServiceTxn idx k.1 k.2 s) s
                      (services_of_node node s) in
      let s2 := foldl (λ s k, deleteCheckTxn idx k.1 k.2 s) s1
                      (checks_of_node node s1) in
      let s3 := foldl (λ s id, deleteSessionTxn idx id s) s2
                      (sessions_of_node node s2) in
      indexUpdate "nodes" idx (set_nodes (delete node (nodes s3)) s3)
  end.

(** Modelled from the spec: [DeleteNode(index, node)] cascades to the
    services and checks of the node and invalidates the sessions bound to
    it. *)
Definition DeleteNode (idx : Z) (node : string) (s : StateStore)
  : option error * StateStore :=
  (None, deleteNodeTxn idx node s).

(** *** ACLs *)

(** Modelled from the spec: an ACL with its indexes set by the store. *)
Definition stamp_acl (create modify : Z) (a : ACL) : ACL :=
  {| acl_ID := acl_ID a; acl_Name := acl_Name a; acl_Type := acl_Type a;
     acl_Rules := acl_Rules a; acl_CreateIndex := create; acl_ModifyIndex := modify |}.

(** Modelled from the spec: [ACLSet], a simple upsert; an ACL without id
    is refused. *)
Definition ACLSet (idx : Z) (acl : ACL) (s : StateStore) : option error * StateStore :=
  if decide (acl_ID acl = "") then (Some ErrMissingACLID, s)
  else
    let create :=
      match acls s !! acl_ID acl with
      | Some existing => acl_CreateIndex existing
      | None => idx
      end in
    (None,
     indexUpdate "acls" idx
       (set_acls (<[acl_ID acl := stamp_acl create idx acl]> (acls s)) s)).

(** Modelled from the spec: [ACLDelete]; the delete of a missing ACL
    succeeds and does not bump the index. *)
Definition ACLDelete (idx : Z) (id : string) (s : StateStore)
  : option error * StateStore :=
  match acls s !! id with
  | None => (None, s)
  | Some _ => (None, indexUpdate "acls" idx (set_acls (delete id (acls s)) s))
  end.

(** Modelled from the spec: [ACLGet(id)], the ACL or nothing. *)
Definition ACLGet (id : string) (s : StateStore) : option ACL := acls s !! id.

(** Modelled from the spec: [ACLList()], a whole-table query over the ACLs. *)
Definition ACLList (s : StateStore) : Z * list ACL :=
  (IndexRow "acls" s, rows str_le (acls s)).

(** *** Catalog reads and their result indexes (spec section 4.2) *)


(** Modelled from the spec: [GetNode(id)], the node or nothing. *)
Definition GetNode (id : string) (s : StateStore) : option Node := nodes s !! id.


(** Modelled from the spec: the services of a node, as rows. *)
Definition node_services (node : string) (s : StateStore) : list NodeService :=
  omap (λ k, services s !! k) (services_of_node node s).

(** Modelled from the spec: the checks of a node, as rows. *)
Definition node_checks (node : string) (s : StateStore) : list HealthCheck :=
  omap (λ k, checks s !! k) (checks_of_node node s).



(** Modelled from the spec: [structs.CheckServiceNode], a
    [{node, service, checks}] triple. *)
Record CheckServiceNode := {
  csn_Node : Node;
  csn_Service : NodeService;
  csn_Checks : list HealthCheck
}.

(** Modelled from the spec: the keys of the services of a given name, in key
    order. *)
Definition services_named (name : string) (s : StateStore)
  : list (string * string) :=
  filter (λ k, svc_Service <$> (services s !! k) = Some name)
         (keys_of pair_le (services s)).

(** Modelled from the spec: the row of the join for one service instance:
    its node, the service, and the checks registered against that service
    ([TestStateStore_CheckServiceNodes] gets one check, the one of the
    service, on a node that has node-level checks too). *)
Definition check_service_node (s : StateStore) (k : string * string)
  : option CheckServiceNode :=
  match nodes s !! k.1, services s !! k with
  | Some n, Some v =>
      Some {| csn_Node := n; csn_Service := v;
              csn_Checks := omap (λ c, checks s !! c) (checks_of_service k.1 k.2 s) |}
  | _, _ => None
  end.

(** Modelled from the spec: the [ModifyIndex] of every record of one row
    of the join. *)
Definition csn_indexes (r : CheckServiceNode) : list Z :=
  node_ModifyIndex (csn_Node r) :: svc_ModifyIndex (csn_Service r)
    :: (chk_ModifyIndex <$> csn_Checks r).

(** Modelled from the spec: [CheckServiceNodes(service)], the join of the
    services of that name with their nodes and the checks attached to
    them.  Its result index is the highest index observed over the node,
    service and check rows of the result, as the store's own test fixes it
    ([TestStateStore_CheckServiceNodes]: "The index should be the highest
    observed from the result", 6 there while a check of another service
    was written at 7); nothing matched gives 0. *)
Definition CheckServiceNodes (name : string) (s : StateStore)
  : Z * list CheckServiceNode :=
  let results := omap (check_service_node s) (services_named name s) in
  (max_list (results ≫= csn_indexes), results).

(** *** Snapshot and restore (spec section 4.8) *)

(** Modelled from the spec: the dumps of a snapshot stream every live
    entity of a domain, in key order. *)
Definition NodeDump (s : StateStore) : list Node := rows str_le (nodes s).
(** Modelled from the spec: see [NodeDump]. *)
Definition ServiceDump (s : StateStore) (node : string) : list NodeService :=
  node_services node s.
(** Modelled from the spec: see [NodeDump]. *)
Definition CheckDump (s : StateStore) (node : string) : list HealthCheck :=
  node_checks node s.
(** Modelled from the spec: see [NodeDump]. *)
Definition SessionDump (s : StateStore) : list Session := rows str_le (sessions s).
(** Modelled from the spec: see [NodeDump]. *)
Definition ACLDump (s : StateStore) : list ACL := rows str_le (acls s).
(** Modelled from the spec: see [NodeDump]. *)
Definition KVSDump (s : StateStore) : list DirEntry := rows str_le (kvs s).
(** Modelled from the spec: see [NodeDump]. *)
Definition TombstoneDump (s : StateStore) : list Tombstone :=
  rows str_le (tombstones s).

(** Modelled from the spec: the restore calls of the store.  They take no
    log index (see [Restore] in the FSM): the record is stored with the
    indexes it carries and the table's index row is raised to its
    [ModifyIndex] ([TestStateStore_ACL_Snapshot_Restore]). *)
Definition KVSRestore (e : DirEntry) (s : StateStore) : option error * StateStore :=
  (None, indexUpdateMax "kvs" (de_ModifyIndex e)
           (set_kvs (<[de_Key e := e]> (kvs s)) s)).

(** Modelled from the spec: see [KVSRestore]. *)
Definition TombstoneRestore (x : Tombstone) (s : StateStore)
  : option error * StateStore :=
  (None, indexUpdateMax "tombstones" (ts_Index x)
           (set_tombstones (<[ts_Key x := x]> (tombstones s)) s)).

(** Modelled from the spec: see [KVSRestore]. *)
Definition SessionRestore (x : Session) (s : StateStore)
  : option error * StateStore :=
  (None, indexUpdateMax "sessions" (sess_ModifyIndex x)
           (set_sessions (<[sess_ID x := x]> (sessions s)) s)).

(** Modelled from the spec: see [KVSRestore]. *)
Definition ACLRestore (a : ACL) (s : StateStore) : option error * StateStore :=
  (None, indexUpdateMax "acls" (acl_ModifyIndex a)
           (set_acls (<[acl_ID a := a]> (acls s)) s)).

(** Modelled from the spec: the model as an implementation of the
    interface the FSM calls.  A
    snapshot of an immutable store value is the value itself. *)
Definition api : StateStoreAPI StateStore StateStore :=
  Build_StateStoreAPI StateStore StateStore
    (inr empty)
    EnsureRegistration DeleteService DeleteCheck DeleteNode
    KVSSet KVSDelete KVSDeleteCAS KVSDeleteTree KVSSetCAS KVSLock KVSUnlock
    SessionCreate SessionDestroy ACLSet ACLDelete ReapTombstones
    KVSRestore SessionRestore ACLRestore TombstoneRestore
    (λ s, s) lastIndex
    (λ s, inr (NodeDump s)) (λ s n, inr (ServiceDump s n))
    (λ s n, inr (CheckDump s n)) (λ s, inr (SessionDump s))
    (λ s, inr (ACLDump s)) (λ s, inr (KVSDump s)) (λ s, inr (TombstoneDump s)).

End state_store.

(** ** Concrete instances used to run the model *)

(** The types of the six requests as the source declares them, with
    decoders that read nothing: enough to run the dispatch on concrete
    type bytes. *)
Definition structs_demo : StructsPkg :=
  {| RegisterRequestType := 0; DeregisterRequestType := 1; KVSRequestType := 2;
     SessionRequestType := 3; ACLRequestType := 4; TombstoneRequestType := 5;
     DecodeRegisterRequest := λ _, None;
     DecodeDeregisterRequest := λ _, None;
     DecodeKVSRequest := λ _, None;
     DecodeSessionRequest := λ _, None;
     DecodeACLRequest := λ _, None;
     DecodeTombstoneRequest := λ _, None |}.

(** A [structs] package whose decoders answer with fixed requests, whatever
    the payload bytes: the msgpack codec is outside the model. *)
Definition structs_fixed (dr : option DeregisterRequest) (kr : option KVSRequest)
    (tr : option TombstoneRequest) : StructsPkg :=
  {| RegisterRequestType := 0; DeregisterRequestType := 1; KVSRequestType := 2;
     SessionRequestType := 3; ACLRequestType := 4; TombstoneRequestType := 5;
     DecodeRegisterRequest := λ _, None;
     DecodeDeregisterRequest := λ _, dr;
     DecodeKVSRequest := λ _, kr;
     DecodeSessionRequest := λ _, None;
     DecodeACLRequest := λ _, None;
     DecodeTombstoneRequest := λ _, tr |}.

Definition fsm_of (s : state_store.StateStore) : consulFSM state_store.StateStore :=
  {| fsm_state := s; fsm_logged := [] |}.

Definition mk_node (name address : string) : Node :=
  {| node_Node := name; node_Address := address;
     node_CreateIndex := 0; node_ModifyIndex := 0 |}.

Definition mk_service (id : string) (tags : list string) (address : string) (port : Z)
  : NodeService :=
  {| svc_ID := id; svc_Service := id; svc_Tags := tags; svc_Address := address;
     svc_Port := port; svc_CreateIndex := 0; svc_ModifyIndex := 0 |}.

Definition mk_check (node serviceID checkID status : string) : HealthCheck :=
  {| chk_Node := node; chk_CheckID := checkID; chk_Name := ""; chk_Status := status;
     chk_Notes := ""; chk_Output := ""; chk_ServiceID := serviceID;
     chk_ServiceName := ""; chk_CreateIndex := 0; chk_ModifyIndex := 0 |}.

Definition mk_entry (key : string) (value : list Z) (session : string) (modify : Z)
  : DirEntry :=
  {| de_LockIndex := 0; de_Key := key; de_Flags := 0; de_Value := value;
     de_Session := session; de_CreateIndex := 0; de_ModifyIndex := modify |}.

Definition mk_session (id node : string) : Session :=
  {| sess_ID := id; sess_Name := ""; sess_Node := node; sess_Checks := [];
     sess_LockDelay := 0; sess_Behavior := ""; sess_TTL := "";
     sess_CreateIndex := 0; sess_ModifyIndex := 0 |}.

Definition mk_acl (id name : string) : ACL :=
  {| acl_ID := id; acl_Name := name; acl_Type := ""; acl_Rules := "";
     acl_CreateIndex := 0; acl_ModifyIndex := 0 |}.

(** The store of [TestFSM_DeregisterNode]: node foo with service db and the
    check db on it, registered at index 1. *)
Definition store_foo_db : state_store.StateStore :=
  (state_store.EnsureRegistration 1
     {| rr_Datacenter := "dc1"; rr_Node := "foo"; rr_Address := "127.0.0.1";
        rr_Service := Some (mk_service "db" ["master"] "" 8000);
        rr_Check := Some {| chk_Node := "foo"; chk_CheckID := "db";
                            chk_Name := "db connectivity"; chk_Status := "passing";
                            chk_Notes := ""; chk_Output := ""; chk_ServiceID := "db";
                            chk_ServiceName := ""; chk_CreateIndex := 0;
                            chk_ModifyIndex := 0 |};
        rr_Checks := [] |} state_store.empty).2.

(** [testSetKey] of the store's tests. *)
Definition set_key (idx : Z) (key : string) (value : list Z) (s : state_store.StateStore)
  : state_store.StateStore :=
  (state_store.KVSSet idx (mk_entry key value "" 0) s).2.

(** The store of [TestStateStore_ReapTombstones]: five keys set at 1..5,
    then foo/baz deleted at 6 and foo/moo at 7. *)
Definition store_reap : state_store.StateStore :=
  (state_store.KVSDelete 7 "foo/moo"
     (state_store.KVSDelete 6 "foo/baz"
        (set_key 5 "foo/zoo" [98]
           (set_key 4 "foo/moo" [98]
              (set_key 3 "foo/baz" [98]
                 (set_key 2 "foo/bar" [98]
                    (set_key 1 "foo" [102] state_store.empty)))))).2).2.

(** The store of [TestFSM_KVSLock]: node foo at 1 and a session on it at 2. *)
Definition store_session : state_store.StateStore :=
  (state_store.SessionCreate 2 (mk_session "session1" "foo")
     (state_store.EnsureNode 1 (mk_node "foo" "127.0.0.1") state_store.empty).2).2.

(** [testRegisterNode], [testRegisterService] and [testRegisterCheck] of the
    store's tests. *)
Definition register_node (idx : Z) (node : string) (s : state_store.StateStore)
  : state_store.StateStore :=
  (state_store.EnsureNode idx (mk_node node "") s).2.

Definition register_service (idx : Z) (node id : string) (s : state_store.StateStore)
  : state_store.StateStore :=
  (state_store.EnsureService idx node (mk_service id [] "1.1.1.1" 1111) s).2.

Definition register_check (idx : Z) (node serviceID checkID status : string)
    (s : state_store.StateStore) : state_store.StateStore :=
  (state_store.EnsureCheck idx (mk_check node serviceID checkID status) s).2.

(** The store of [TestStateStore_CheckServiceNodes] at its first query: two
    nodes at 0 and 1, node-level checks at 2 and 3, a service on each node at
    4 and 5, and a check on each service at 6 and 7. *)
Definition store_csn : state_store.StateStore :=
  register_check 7 "node2" "service2" "check4" "passing"
    (register_check 6 "node1" "service1" "check3" "passing"
       (register_service 5 "node2" "service2"
          (register_service 4 "node1" "service1"
             (register_check 3 "node2" "" "check2" "passing"
                (register_check 2 "node1" "" "check1" "passing"
                   (register_node 1 "node2"
                      (register_node 0 "node1" state_store.empty))))))).


(** ** The snapshot stream as a list of records *)

(** One record of the snapshot stream: what [Persist] writes with one type
    byte and one [Encode], and what one round of the loop of [Restore]
    consumes. *)
Inductive SnapRecord :=
| RecRegister (req : RegisterRequest)
| RecKVS (e : DirEntry)
| RecSession (x : Session)
| RecACL (a : ACL)
| RecTombstone (x : Tombstone).

Definition record_frames (sx : StructsPkg) (r : SnapRecord) : list Frame :=
  match r with
  | RecRegister req => [FByte (RegisterRequestType sx); FRegisterRequest req]
  | RecKVS e => [FByte (KVSRequestType sx); FDirEntry e]
  | RecSession x => [FByte (SessionRequestType sx); FSession x]
  | RecACL a => [FByte (ACLRequestType sx); FACL a]
  | RecTombstone x => [FByte (TombstoneRequestType sx); FDirEntry (fake_entry x)]
  end.

(** The registration that [persistNodes] writes for a node, with one of its
    services or one of its checks or neither. *)
Definition node_request (n : Node) (svc : option NodeService) (chk : option HealthCheck)
  : RegisterRequest :=
  {| rr_Datacenter := ""; rr_Node := node_Node n; rr_Address := node_Address n;
     rr_Service := svc; rr_Check := chk; rr_Checks := [] |}.




Definition empty_sink : Sink := {| sink_data := []; sink_cancel := false |}.


(** The store of [TestFSM_SnapshotRestore]. *)
Definition store_snapshot_test : state_store.StateStore :=
  let s1 := (state_store.EnsureNode 1 (mk_node "foo" "127.0.0.1") state_store.empty).2 in
  let s2 := (state_store.EnsureNode 2 (mk_node "baz" "127.0.0.2") s1).2 in
  let s3 := (state_store.EnsureService 3 "foo"
               {| svc_ID := "web"; svc_Service := "web"; svc_Tags := [];
                  svc_Address := "127.0.0.1"; svc_Port := 80;
                  svc_CreateIndex := 0; svc_ModifyIndex := 0 |} s2).2 in
  let s4 := (state_store.EnsureService 4 "foo"
               {| svc_ID := "db"; svc_Service := "db"; svc_Tags := ["primary"];
                  svc_Address := "127.0.0.1"; svc_Port := 5000;
                  svc_CreateIndex := 0; svc_ModifyIndex := 0 |} s3).2 in
  let s5 := (state_store.EnsureService 5 "baz"
               {| svc_ID := "web"; svc_Service := "web"; svc_Tags := [];
                  svc_Address := "127.0.0.2"; svc_Port := 80;
                  svc_CreateIndex := 0; svc_ModifyIndex := 0 |} s4).2 in
  let s6 := (state_store.EnsureService 6 "baz"
               {| svc_ID := "db"; svc_Service := "db"; svc_Tags := ["secondary"];
                  svc_Address := "127.0.0.2"; svc_Port := 5000;
                  svc_CreateIndex := 0; svc_ModifyIndex := 0 |} s5).2 in
  let s7 := (state_store.EnsureCheck 7
               {| chk_Node := "foo"; chk_CheckID := "web";
                  chk_Name := "web connectivity"; chk_Status := "passing";
                  chk_Notes := ""; chk_Output := ""; chk_ServiceID := "web";
                  chk_ServiceName := ""; chk_CreateIndex := 0;
                  chk_ModifyIndex := 0 |} s6).2 in
  let s8 := set_key 8 "/test" [102; 111; 111] s7 in
  let s9 := (state_store.SessionCreate 9 (mk_session "session1" "foo") s8).2 in
  let s10 := (state_store.ACLSet 10 (mk_acl "acl1" "User Token") s9).2 in
  let s11 := set_key 11 "/remove" [102; 111; 111] s10 in
  (state_store.KVSDelete 12 "/remove" s11).2.

(** ** Well-formed stores and what a restore rebuilds *)

(** Every row sits under its own key. *)
Definition wf_keys (s : state_store.StateStore) : Prop :=
  map_Forall (λ k n, node_Node n = k) (state_store.nodes s) ∧
  map_Forall (λ k v, svc_ID v = k.2) (state_store.services s) ∧
  map_Forall (λ k c, chk_Node c = k.1 ∧ chk_CheckID c = k.2) (state_store.checks s) ∧
  map_Forall (λ k e, de_Key e = k) (state_store.kvs s) ∧
  map_Forall (λ k x, ts_Key x = k) (state_store.tombstones s) ∧
  map_Forall (λ k x, sess_ID x = k) (state_store.sessions s) ∧
  map_Forall (λ k a, acl_ID a = k) (state_store.acls s).

(** Spec invariant 2 on the catalog: the node of every service and check
    exists, and so does the service a check is attached to. *)
Definition wf_refs (s : state_store.StateStore) : Prop :=
  map_Forall (λ k _, is_Some (state_store.nodes s !! k.1)) (state_store.services s) ∧
  map_Forall (λ k c, is_Some (state_store.nodes s !! k.1) ∧
                     (chk_ServiceID c ≠ "" →
                      is_Some (state_store.services s !! (k.1, chk_ServiceID c))))
             (state_store.checks s).

Definition wf_store (s : state_store.StateStore) : Prop := wf_keys s ∧ wf_refs s.



(** Table by table, [σ] holds no row that [τ] does not hold. *)
Definition tables_sub (σ τ : state_store.StateStore) : Prop :=
  state_store.nodes σ ⊆ state_store.nodes τ ∧
  state_store.services σ ⊆ state_store.services τ ∧
  state_store.checks σ ⊆ state_store.checks τ ∧
  state_store.kvs σ ⊆ state_store.kvs τ ∧
  state_store.tombstones σ ⊆ state_store.tombstones τ ∧
  state_store.sessions σ ⊆ state_store.sessions τ ∧
  state_store.acls σ ⊆ state_store.acls τ.

#[global] Instance tables_sub_refl : Reflexive tables_sub.
Proof. intros s. by repeat split. Qed.

#[global] Instance tables_sub_trans : Transitive tables_sub.
Proof.
  intros a b c (?&?&?&?&?&?&?) (?&?&?&?&?&?&?).
  repeat split; etrans; eauto.
Qed.


(** The entry stored under [key] is held by [session] at lock index [li]. *)
Definition held_by (key session : string) (li : Z) (s : state_store.StateStore) : Prop :=
  ∃ e, state_store.KVSGet key s = Some e ∧ de_Session e = session ∧ de_LockIndex e = li.

(** The type bytes that [Restore] has a case for. *)
Definition restorable_types (sx : StructsPkg) : list Z :=
  [ RegisterRequestType sx; KVSRequestType sx; SessionRequestType sx;
    ACLRequestType sx; TombstoneRequestType sx ].




(** ** The stores the operations build *)

(** The write operations of the state store, as commands. *)
Inductive StoreOp :=
| OpEnsureNode (idx : Z) (node : Node)
| OpEnsureService (idx : Z) (node : string) (svc : NodeService)
| OpEnsureCheck (idx : Z) (hc : HealthCheck)
| OpEnsureRegistration (idx : Z) (req : RegisterRequest)
| OpDeleteNode (idx : Z) (node : string)
| OpDeleteService (idx : Z) (node sid : string)
| OpDeleteCheck (idx : Z) (node cid : string)
| OpKVSSet (idx : Z) (e : DirEntry)
| OpKVSDelete (idx : Z) (key : string)
| OpKVSDeleteCAS (idx cidx : Z) (key : string)
| OpKVSDeleteTree (idx : Z) (prefix : string)
| OpKVSSetCAS (idx : Z) (e : DirEntry)
| OpKVSLock (idx : Z) (e : DirEntry)
| OpKVSUnlock (idx : Z) (e : DirEntry)
| OpSessionCreate (idx : Z) (x : Session)
| OpSessionDestroy (idx : Z) (id : string)
| OpACLSet (idx : Z) (a : ACL)
| OpACLDelete (idx : Z) (id : string)
| OpReapTombstones (upto : Z)
| OpKVSRestore (e : DirEntry)
| OpSessionRestore (x : Session)
| OpACLRestore (a : ACL)
| OpTombstoneRestore (x : Tombstone).

Definition run_op (s : state_store.StateStore) (op : StoreOp) : state_store.StateStore :=
  match op with
  | OpEnsureNode idx node => (state_store.EnsureNode idx node s).2
  | OpEnsureService idx node svc => (state_store.EnsureService idx node svc s).2
  | OpEnsureCheck idx hc => (state_store.EnsureCheck idx hc s).2
  | OpEnsureRegistration idx req => (state_store.EnsureRegistration idx req s).2
  | OpDeleteNode idx node => (state_store.DeleteNode idx node s).2
  | OpDeleteService idx node sid => (state_store.DeleteService idx node sid s).2
  | OpDeleteCheck idx node cid => (state_store.DeleteCheck idx node cid s).2
  | OpKVSSet idx e => (state_store.KVSSet idx e s).2
  | OpKVSDelete idx key => (state_store.KVSDelete idx key s).2
  | OpKVSDeleteCAS idx cidx key => (state_store.KVSDeleteCAS idx cidx key s).2
  | OpKVSDeleteTree idx prefix => (state_store.KVSDeleteTree idx prefix s).2
  | OpKVSSetCAS idx e => (state_store.KVSSetCAS idx e s).2
  | OpKVSLock idx e => (state_store.KVSLock idx e s).2
  | OpKVSUnlock idx e => (state_store.KVSUnlock idx e s).2
  | OpSessionCreate idx x => (state_store.SessionCreate idx x s).2
  | OpSessionDestroy idx id => (state_store.SessionDestroy idx id s).2
  | OpACLSet idx a => (state_store.ACLSet idx a s).2
  | OpACLDelete idx id => (state_store.ACLDelete idx id s).2
  | OpReapTombstones upto => (state_store.ReapTombstones upto s).2
  | OpKVSRestore e => (state_store.KVSRestore e s).2
  | OpSessionRestore x => (state_store.SessionRestore x s).2
  | OpACLRestore a => (state_store.ACLRestore a s).2
  | OpTombstoneRestore x => (state_store.TombstoneRestore x s).2
  end.

(** A store is reachable when some sequence of operations builds it from
    the empty store. *)
Definition reachable (s : state_store.StateStore) : Prop :=
  ∃ ops, s = foldl run_op state_store.empty ops.

(** The catalog tables of two stores agree. *)
Definition catalog_same (s s' : state_store.StateStore) : Prop :=
  state_store.nodes s' = state_store.nodes s ∧
  state_store.services s' = state_store.services s ∧
  state_store.checks s' = state_store.checks s.

(** ** The rest of the FSM *)

Section FSM_records.
Context {S Snap : Type}.
Variable st : StateStoreAPI S Snap.

(** [NewFSM]: an FSM with a blank state and nothing logged yet; the error
    of [NewStateStore] is handed on. *)
Definition NewFSM : error + consulFSM S :=
  match NewStateStore st with
  | inl err => inl err
  | inr state => inr {| fsm_state := state; fsm_logged := [] |}
  end.

(** The loop of [Restore] read record by record: the store after each
    record, and the error of the store that stops the loop.  The result of
    [applyRegister] is dropped by [Restore], so a registration that fails
    does not stop it. *)
Fixpoint restore_records (L : Z) (s : S) (rs : list SnapRecord) : S * option error :=
  match rs with
  | [] => (s, None)
  | RecRegister req :: rs' =>
      restore_records L (EnsureRegistration st L req s).2 rs'
  | RecKVS e :: rs' =>
      let '(err, s') := KVSRestore st e s in
      match err with
      | Some x => (s', Some x)
      | None => restore_records L s' rs'
      end
  | RecSession x :: rs' =>
      let '(err, s') := SessionRestore st x s in
      match err with
      | Some x => (s', Some x)
      | None => restore_records L s' rs'
      end
  | RecACL a :: rs' =>
      let '(err, s') := ACLRestore st a s in
      match err with
      | Some x => (s', Some x)
      | None => restore_records L s' rs'
      end
  | RecTombstone x :: rs' =>
      let '(err, s') := TombstoneRestore st x s in
      match err with
      | Some x => (s', Some x)
      | None => restore_records L s' rs'
      end
  end.
End FSM_records.

(** The records [persistNodes] writes for one node: the node alone, then
    the node with each of its services, then the node with each of its
    checks. *)
Definition register_records (n : Node) (services : list NodeService)
    (checks : list HealthCheck) : list SnapRecord :=
  RecRegister (node_request n None None)
  :: ((λ v, RecRegister (node_request n (Some v) None)) <$> services)
  ++ ((λ c, RecRegister (node_request n None (Some c))) <$> checks).

(** A [structs] package whose six decoders answer with fixed requests,
    whatever the payload bytes. *)
Definition structs_const (rr : option RegisterRequest) (dr : option DeregisterRequest)
    (kr : option KVSRequest) (sr : option SessionRequest) (ar : option ACLRequest)
    (tr : option TombstoneRequest) : StructsPkg :=
  {| RegisterRequestType := 0; DeregisterRequestType := 1; KVSRequestType := 2;
     SessionRequestType := 3; ACLRequestType := 4; TombstoneRequestType := 5;
     DecodeRegisterRequest := λ _, rr;
     DecodeDeregisterRequest := λ _, dr;
     DecodeKVSRequest := λ _, kr;
     DecodeSessionRequest := λ _, sr;
     DecodeACLRequest := λ _, ar;
     DecodeTombstoneRequest := λ _, tr |}.

(** The operation names each handler has a case for. *)
Definition kvs_ops : list string :=
  [ KVSSet_op; KVSDelete_op; KVSDeleteCAS_op; KVSDeleteTree_op; KVSCAS_op;
    KVSLock_op; KVSUnlock_op ].
Definition session_ops : list string := [ SessionCreate_op; SessionDestroy_op ].
Definition acl_ops : list string := [ ACLForceSet_op; ACLSet_op; ACLDelete_op ].
Definition tombstone_ops : list string := [ TombstoneReap_op ].

(** A Register record of a snapshot registers one thing: a node alone, or
    a node with one service, or a node with one check; it names no
    datacenter and carries no list of checks. *)
Definition single_registration (r : SnapRecord) : Prop :=
  match r with
  | RecRegister req =>
      rr_Datacenter req = "" ∧ rr_Checks req = [] ∧
      (rr_Service req = None ∨ rr_Check req = None)
  | _ => True
  end.

(** What a stage of [Persist] does to the sink: it appends whole records and
    leaves the cancel mark alone. *)
Definition writes_records (sx : StructsPkg) (sink k : Sink) : Prop :=
  ∃ rs, sink_data k = (sink_data sink ++ (rs ≫= record_frames sx))%list
        ∧ sink_cancel k = sink_cancel sink
        ∧ Forall single_registration rs.

(** A store that holds nothing and answers as told: [new] is what
    [NewStateStore] returns, [restore] the error of every restore call,
    [dump] the error of the session, ACL, K/V and tombstone dumps.  It
    stands in for a store that fails. *)
Definition stub_store (new : error + unit) (restore dump : option error)
  : StateStoreAPI unit unit :=
  let dumped {A : Type} : error + list A :=
    match dump with Some e => inl e | None => inr [] end in
  Build_StateStoreAPI unit unit
    new
    (λ _ _ s, (None, s)) (λ _ _ _ s, (None, s)) (λ _ _ _ s, (None, s))
    (λ _ _ s, (None, s))
    (λ _ _ s, (None, s)) (λ _ _ s, (None, s)) (λ _ _ _ s, ((false, None), s))
    (λ _ _ s, (None, s)) (λ _ _ s, ((false, None), s))
    (λ _ _ s, ((false, None), s)) (λ _ _ s, ((false, None), s))
    (λ _ _ s, (None, s)) (λ _ _ s, (None, s)) (λ _ _ s, (None, s))
    (λ _ _ s, (None, s)) (λ _ s, (None, s))
    (λ _ s, (restore, s)) (λ _ s, (restore, s)) (λ _ s, (restore, s))
    (λ _ s, (restore, s))
    (λ s, s) (λ _, 0)
    (λ _, inr []) (λ _ _, inr []) (λ _ _, inr [])
    (λ _, dumped) (λ _, dumped) (λ _, dumped) (λ _, dumped).

(** ** Properties of [Apply] *)

Lemma structs_demo_ok : message_types_ok structs_demo.
Proof.
  split.
  - refine (bool_decide_unpack _ _); vm_compute; exact I.
  - refine (bool_decide_unpack _ _); vm_compute; exact I.
Qed.

(** On a byte, the flag test reads the high bit and the masking subtracts
    it. *)
Lemma split_type_byte (b : Z) :
  0 ≤ b < 256 →
  split_type b = if bool_decide (128 ≤ b) then (b - 128, true) else (b, false).
Proof.
  intros Hb.
  assert (Hall : Forall (λ b, split_type b
             = if bool_decide (128 ≤ b) then (b - 128, true) else (b, false))
           (seqZ 0 256)).
  { refine (bool_decide_unpack _ _); vm_compute; exact I. }
  rewrite Forall_forall in Hall. apply Hall.
  apply elem_of_seqZ. lia.
Qed.

Lemma split_type_flagged (t : Z) :
  0 ≤ t < IgnoreUnknownTypeFlag →
  split_type (Z.lor t IgnoreUnknownTypeFlag) = (t, true).
Proof.
  unfold IgnoreUnknownTypeFlag. intros Ht.
  assert (Hall : Forall (λ t, split_type (Z.lor t 128) = (t, true)) (seqZ 0 128)).
  { refine (bool_decide_unpack _ _); vm_compute; exact I. }
  rewrite Forall_forall in Hall. apply Hall.
  apply elem_of_seqZ. lia.
Qed.

Lemma split_type_plain (t : Z) :
  0 ≤ t < IgnoreUnknownTypeFlag → split_type t = (t, false).
Proof.
  unfold IgnoreUnknownTypeFlag. intros Ht.
  rewrite split_type_byte by lia.
  rewrite bool_decide_eq_false_2 by lia. done.
Qed.

Section Apply_properties.
Context {S Snap : Type}.
Variable sx : StructsPkg.
Variable st : StateStoreAPI S Snap.

Lemma not_recognized_neq (t : Z) :
  t ∉ recognized_types sx →
  (t =? RegisterRequestType sx) = false ∧
  (t =? DeregisterRequestType sx) = false ∧
  (t =? KVSRequestType sx) = false ∧
  (t =? SessionRequestType sx) = false ∧
  (t =? ACLRequestType sx) = false ∧
  (t =? TombstoneRequestType sx) = false.
Proof.
  unfold recognized_types. intros Hn.
  repeat split; apply Z.eqb_neq; intros ->; apply Hn; set_solver.
Qed.

(** What [Apply] does once the type the [switch] sees is known. *)
Lemma Apply_unfold (c : consulFSM S) (index b : Z) (buf : list Z) :
  Apply sx st c {| log_Index := index; log_Data := b :: buf |} =
    let t := (split_type b).1 in
    if t =? RegisterRequestType sx then decodeRegister sx st c buf index
    else if t =? DeregisterRequestType sx then applyDeregister sx st c buf index
    else if t =? KVSRequestType sx then applyKVSOperation sx st c buf index
    else if t =? SessionRequestType sx then applySessionOperation sx st c buf index
    else if t =? ACLRequestType sx then applyACLOperation sx st c buf index
    else if t =? TombstoneRequestType sx
    then applyTombstoneOperation sx st c buf index
    else if (split_type b).2 then
      Returns (RespNil,
               Printf c ("[WARN] consul.fsm: ignoring unknown message type ("
                         +:+ pretty t +:+ "), upgrade to newer version"))
    else Panics "failed to apply request".
Proof. unfold Apply. simpl. destruct (split_type b); reflexivity. Qed.

(** C7: a command whose message type is none of the recognized ones is
    skipped, with [nil] returned and the store left as it was, when the
    high bit of the type byte is set (the byte is 128 or more and the type
    is the byte less 128); without the bit [Apply] panics, and no store
    comes out of it. *)
Theorem Apply_unknown_type (c : consulFSM S) (index b : Z) (buf : list Z) :
  0 ≤ b < 256 →
  (128 ≤ b → (b - 128) ∉ recognized_types sx →
     ∃ c', Apply sx st c {| log_Index := index; log_Data := b :: buf |}
             = Returns (RespNil, c')
           ∧ fsm_state c' = fsm_state c) ∧
  (b < 128 → b ∉ recognized_types sx →
     ∃ msg, Apply sx st c {| log_Index := index; log_Data := b :: buf |}
             = Panics msg).
Proof.
  intros Hb. split.
  - intros Hhi Hn. rewrite Apply_unfold, split_type_byte by done.
    rewrite bool_decide_eq_true_2 by done. simpl.
    destruct (not_recognized_neq _ Hn) as (-> & -> & -> & -> & -> & ->).
    eexists. split; [reflexivity | reflexivity].
  - intros Hlo Hn. rewrite Apply_unfold, split_type_byte by done.
    rewrite bool_decide_eq_false_2 by lia. simpl.
    destruct (not_recognized_neq _ Hn) as (-> & -> & -> & -> & -> & ->).
    eexists. reflexivity.
Qed.

Lemma types_distinct :
  message_types_ok sx →
  ∀ i j t u, recognized_types sx !! i = Some t →
             recognized_types sx !! j = Some u → i ≠ j → (t =? u) = false.
Proof.
  intros [Hnd _] i j t u Hi Hj Hij. apply Z.eqb_neq. intros ->.
  apply Hij. eapply NoDup_lookup; eauto.
Qed.

Lemma types_low :
  message_types_ok sx →
  ∀ t, t ∈ recognized_types sx → 0 ≤ t < IgnoreUnknownTypeFlag.
Proof. intros [_ Hlow] t Ht. rewrite Forall_forall in Hlow. auto. Qed.

(** The dispatch on an unflagged, recognized type byte. *)
Lemma Apply_Deregister (c : consulFSM S) (index : Z) (buf : list Z) :
  message_types_ok sx →
  Apply sx st c {| log_Index := index;
                   log_Data := DeregisterRequestType sx :: buf |}
  = applyDeregister sx st c buf index.
Proof.
  intros Hok. rewrite Apply_unfold.
  rewrite split_type_plain by (apply types_low; [done | set_solver]).
  simpl.
  rewrite (types_distinct Hok 1 0 _ _ eq_refl eq_refl) by done.
  rewrite Z.eqb_refl. done.
Qed.

(** C8: a Deregister request makes exactly one delete, chosen by the ids
    it carries: [DeleteService] when [ServiceID] is non-empty (whatever
    [CheckID] is), else [DeleteCheck] when [CheckID] is non-empty, else
    [DeleteNode].  The FSM's store afterwards is the store that delete
    leaves, [nil] is returned when the delete succeeds, and an error of
    the state store is returned to the caller. *)
Theorem Apply_Deregister_dispatch
    (c : consulFSM S) (index : Z) (buf : list Z) (req : DeregisterRequest) :
  message_types_ok sx →
  DecodeDeregisterRequest sx buf = Some req →
  let run (r : option error * S) :=
    ∃ c', Apply sx st c {| log_Index := index;
                           log_Data := DeregisterRequestType sx :: buf |}
            = Returns (resp_of_err r.1, c')
          ∧ fsm_state c' = r.2 in
  (dr_ServiceID req ≠ "" →
     run (DeleteService st index (dr_Node req) (dr_ServiceID req) (fsm_state c))) ∧
  (dr_ServiceID req = "" → dr_CheckID req ≠ "" →
     run (DeleteCheck st index (dr_Node req) (dr_CheckID req) (fsm_state c))) ∧
  (dr_ServiceID req = "" → dr_CheckID req = "" →
     run (DeleteNode st index (dr_Node req) (fsm_state c))).
Proof.
  intros Hok Hdec run. subst run. cbv beta.
  rewrite Apply_Deregister by done. unfold applyDeregister. rewrite Hdec.
  repeat split.
  - intros Hs. rewrite decide_True by done.
    destruct (DeleteService _ _ _ _ _) as [[e|] s']; eexists; split; reflexivity.
  - intros Hs Hc. rewrite decide_False by (intros ?; congruence).
    rewrite decide_True by done.
    destruct (DeleteCheck _ _ _ _ _) as [[e|] s']; eexists; split; reflexivity.
  - intros Hs Hc. rewrite !decide_False by (intros ?; congruence).
    destruct (DeleteNode _ _ _ _) as [[e|] s']; eexists; split; reflexivity.
Qed.

(** The [switch] runs the handler of the type it sees. *)
Lemma Apply_known (c : consulFSM S) (index b : Z) (buf : list Z) i handler :
  message_types_ok sx →
  recognized_types sx !! i = Some (split_type b).1 →
  handlers sx st !! i = Some handler →
  Apply sx st c {| log_Index := index; log_Data := b :: buf |}
  = handler c buf index.
Proof.
  intros Hok Hi Hh. rewrite Apply_unfold. cbv zeta.
  destruct i as [|[|[|[|[|[|i]]]]]]; simpl in Hi, Hh; try done;
    injection Hh as <-.
  - injection Hi as Hi. rewrite <- Hi, Z.eqb_refl. done.
  - rewrite (types_distinct Hok 1 0 _ _ Hi eq_refl) by done.
    injection Hi as Hi. rewrite <- Hi, Z.eqb_refl. done.
  - rewrite (types_distinct Hok 2 0 _ _ Hi eq_refl) by done.
    rewrite (types_distinct Hok 2 1 _ _ Hi eq_refl) by done.
    injection Hi as Hi. rewrite <- Hi, Z.eqb_refl. done.
  - rewrite (types_distinct Hok 3 0 _ _ Hi eq_refl) by done.
    rewrite (types_distinct Hok 3 1 _ _ Hi eq_refl) by done.
    rewrite (types_distinct Hok 3 2 _ _ Hi eq_refl) by done.
    injection Hi as Hi. rewrite <- Hi, Z.eqb_refl. done.
  - rewrite (types_distinct Hok 4 0 _ _ Hi eq_refl) by done.
    rewrite (types_distinct Hok 4 1 _ _ Hi eq_refl) by done.
    rewrite (types_distinct Hok 4 2 _ _ Hi eq_refl) by done.
    rewrite (types_distinct Hok 4 3 _ _ Hi eq_refl) by done.
    injection Hi as Hi. rewrite <- Hi, Z.eqb_refl. done.
  - rewrite (types_distinct Hok 5 0 _ _ Hi eq_refl) by done.
    rewrite (types_distinct Hok 5 1 _ _ Hi eq_refl) by done.
    rewrite (types_distinct Hok 5 2 _ _ Hi eq_refl) by done.
    rewrite (types_distinct Hok 5 3 _ _ Hi eq_refl) by done.
    rewrite (types_distinct Hok 5 4 _ _ Hi eq_refl) by done.
    injection Hi as Hi. rewrite <- Hi, Z.eqb_refl. done.
Qed.

(** C10: a type byte that carries the ignore-if-unknown bit over a
    recognized message type is dispatched on the type with the bit masked
    off: [Apply] does what it does on the same command without the bit,
    that is, it runs the handler of that type. *)
Theorem Apply_flag_on_known_type
    (c : consulFSM S) (index t : Z) (buf : list Z) :
  message_types_ok sx →
  t ∈ recognized_types sx →
  Apply sx st c {| log_Index := index;
                   log_Data := Z.lor t IgnoreUnknownTypeFlag :: buf |}
  = Apply sx st c {| log_Index := index; log_Data := t :: buf |}
  ∧ ∃ i handler,
      recognized_types sx !! i = Some t ∧
      handlers sx st !! i = Some handler ∧
      Apply sx st c {| log_Index := index;
                       log_Data := Z.lor t IgnoreUnknownTypeFlag :: buf |}
      = handler c buf index.
Proof.
  intros Hok Ht.
  pose proof (types_low Hok t Ht) as Hlow.
  apply list_elem_of_lookup in Ht as [i Hi].
  assert (is_Some (handlers sx st !! i)) as [handler Hh].
  { apply lookup_lt_is_Some. apply lookup_lt_Some in Hi. simpl in *. lia. }
  assert (Apply sx st c {| log_Index := index;
                           log_Data := Z.lor t IgnoreUnknownTypeFlag :: buf |}
          = handler c buf index) as Hflag.
  { eapply Apply_known; [done| |done]. by rewrite split_type_flagged. }
  split.
  - rewrite Hflag. symmetry.
    eapply Apply_known; [done| |done]. by rewrite split_type_plain.
  - eauto.
Qed.
End Apply_properties.

Lemma structs_fixed_ok dr kr tr : message_types_ok (structs_fixed dr kr tr).
Proof. exact structs_demo_ok. Qed.

(** The command of [TestFSM_IgnoreUnknown], type byte [128 | 64], is
    skipped; the same type without the bit panics. *)
Lemma Apply_unknown_type_witness :
  (0 ≤ 192 < 256 ∧ 128 ≤ 192 ∧ ((192 - 128) ∉ recognized_types structs_demo) ∧
   ∃ c', Apply structs_demo state_store.api (fsm_of store_foo_db)
           {| log_Index := 1; log_Data := [192; 129; 163] |} = Returns (RespNil, c')
         ∧ fsm_state c' = store_foo_db) ∧
  (64 < 128 ∧ (64 ∉ recognized_types structs_demo) ∧
   ∃ msg, Apply structs_demo state_store.api (fsm_of store_foo_db)
            {| log_Index := 1; log_Data := [64; 129; 163] |} = Panics msg).
Proof.
  assert (H192 : (192 - 128) ∉ recognized_types structs_demo).
  { refine (bool_decide_unpack _ _); vm_compute; exact I. }
  assert (H64 : 64 ∉ recognized_types structs_demo).
  { refine (bool_decide_unpack _ _); vm_compute; exact I. }
  split.
  - split; [lia|]. split; [lia|]. split; [exact H192|].
    apply (Apply_unknown_type structs_demo state_store.api (fsm_of store_foo_db)
             1 192 [129; 163]); [lia | lia | exact H192].
  - split; [lia|]. split; [exact H64|].
    apply (Apply_unknown_type structs_demo state_store.api (fsm_of store_foo_db)
             1 64 [129; 163]); [lia | lia | exact H64].
Defined.

(** The three requests of [TestFSM_DeregisterService], [TestFSM_DeregisterCheck]
    and [TestFSM_DeregisterNode] on the store that holds node foo. *)
Lemma Apply_Deregister_dispatch_witness :
  let req sid cid := {| dr_Datacenter := "dc1"; dr_Node := "foo";
                        dr_ServiceID := sid; dr_CheckID := cid |} in
  let run sid cid (r : option error * state_store.StateStore) :=
    ∃ c', Apply (structs_fixed (Some (req sid cid)) None None) state_store.api
            (fsm_of store_foo_db) {| log_Index := 2; log_Data := [1] |}
            = Returns (resp_of_err r.1, c')
          ∧ fsm_state c' = r.2 in
  run "db" "db" (state_store.DeleteService 2 "foo" "db" store_foo_db) ∧
  run "" "db" (state_store.DeleteCheck 2 "foo" "db" store_foo_db) ∧
  run "" "" (state_store.DeleteNode 2 "foo" store_foo_db).
Proof.
  intros req run. subst run. cbv beta.
  split; [|split].
  - apply (Apply_Deregister_dispatch (structs_fixed (Some (req "db" "db")) None None)
             state_store.api (fsm_of store_foo_db) 2 [] (req "db" "db")
             (structs_fixed_ok _ _ _) eq_refl).
    simpl. discriminate.
  - apply (Apply_Deregister_dispatch (structs_fixed (Some (req "" "db")) None None)
             state_store.api (fsm_of store_foo_db) 2 [] (req "" "db")
             (structs_fixed_ok _ _ _) eq_refl).
    + reflexivity.
    + simpl. discriminate.
  - apply (Apply_Deregister_dispatch (structs_fixed (Some (req "" "")) None None)
             state_store.api (fsm_of store_foo_db) 2 [] (req "" "")
             (structs_fixed_ok _ _ _) eq_refl); reflexivity.
Defined.

(** A K/V request under type byte [128 | 2] is applied as under type byte 2. *)
Lemma Apply_flag_on_known_type_witness :
  let sx := structs_fixed None
              (Some {| kr_Datacenter := "dc1"; kr_Op := KVSSet_op;
                       kr_DirEnt := mk_entry "/test/path" [116] "" 0 |}) None in
  message_types_ok sx ∧ 2 ∈ recognized_types sx ∧
  Apply sx state_store.api (fsm_of state_store.empty)
    {| log_Index := 1; log_Data := [Z.lor 2 IgnoreUnknownTypeFlag] |}
  = Apply sx state_store.api (fsm_of state_store.empty) {| log_Index := 1; log_Data := [2] |}.
Proof.
  intros sx.
  assert (Hin : 2 ∈ recognized_types sx).
  { refine (bool_decide_unpack _ _); vm_compute; exact I. }
  split; [apply structs_fixed_ok|]. split; [exact Hin|].
  apply (Apply_flag_on_known_type sx state_store.api (fsm_of state_store.empty) 1 2 []
           (structs_fixed_ok _ _ _) Hin).
Defined.

(** ** Properties of [Restore] *)

Section Restore_properties.
Context {S Snap : Type}.
Variable sx : StructsPkg.
Variable st : StateStoreAPI S Snap.


Lemma restore_loop_unrecognized (L b : Z) (c : consulFSM S) (rest : list Frame) :
  b ∉ restorable_types sx →
  restore_loop sx st L c (FByte b :: rest) = (c, Some (msg_unrecognized b)).
Proof.
  intros Hn. simpl.
  assert (∀ t, t ∈ restorable_types sx → (b =? t) = false) as Hne.
  { intros t Ht. apply Z.eqb_neq. intros ->. done. }
  unfold restorable_types in Hne.
  rewrite !Hne by set_solver. done.
Qed.

End Restore_properties.



(** ** Tables and their rows *)

Section rows_properties.
Context {K : Type} `{Countable K} {V : Type}.
Variable le : relation K.
Context `{∀ x y, Decision (le x y)}.

Lemma keys_of_perm (m : gmap K V) : keys_of le m ≡ₚ elements (dom m).
Proof. unfold keys_of. apply merge_sort_Permutation. Qed.

Lemma elem_of_keys_of (m : gmap K V) (k : K) : k ∈ keys_of le m ↔ is_Some (m !! k).
Proof. rewrite keys_of_perm, elem_of_elements. apply elem_of_dom. Qed.

Lemma NoDup_keys_of (m : gmap K V) : NoDup (keys_of le m).
Proof. rewrite keys_of_perm. apply NoDup_elements. Qed.

Lemma elem_of_rows (m : gmap K V) (v : V) : v ∈ rows le m ↔ ∃ k, m !! k = Some v.
Proof.
  unfold rows. rewrite list_elem_of_omap. split.
  - intros (k & _ & Hk). eauto.
  - intros (k & Hk). exists k. split; [|done]. apply elem_of_keys_of. eauto.
Qed.

Lemma keys_of_empty : keys_of le (∅ : gmap K V) = [].
Proof.
  apply Permutation_nil_r. rewrite keys_of_perm, dom_empty_L, elements_empty. done.
Qed.

Lemma rows_empty : rows le (∅ : gmap K V) = [].
Proof. unfold rows. by rewrite keys_of_empty. Qed.
End rows_properties.


Lemma max_list_le (l : list Z) (b : Z) :
  max_list l ≤ b ↔ 0 ≤ b ∧ ∀ x, x ∈ l → x ≤ b.
Proof.
  induction l as [|a l IH]; simpl.
  - split; [intros; split; [done | intros x Hx; inversion Hx] | tauto].
  - rewrite Z.max_lub_iff, IH. split.
    + intros (Ha & Hb & Hl). split; [done|].
      intros x Hx. apply elem_of_cons in Hx as [-> | Hx]; auto.
    + intros (Hb & Hl). split; [apply Hl; left|].
      split; [done|]. intros x Hx. apply Hl. by right.
Qed.

Lemma max_list_elem (l : list Z) (x : Z) : x ∈ l → x ≤ max_list l.
Proof. intros Hx. by apply (max_list_le l (max_list l)). Qed.

Lemma max_list_attained (l : list Z) : max_list l = 0 ∨ max_list l ∈ l.
Proof.
  induction l as [|a l IH]; simpl; [by left|].
  destruct (Z.max_spec a (max_list l)) as [[_ ->] | [_ ->]].
  - destruct IH as [-> | IH]; [by left | right; by right].
  - right. by left.
Qed.

Lemma max_list_lt (l : list Z) (b : Z) :
  0 < b → (∀ x, x ∈ l → x < b) → max_list l < b.
Proof.
  intros Hb Hl. destruct (max_list_attained l) as [-> | Hin]; [done | auto].
Qed.

(** ** Compare-and-set on the K/V store *)



(** ** Tombstones and their reaping *)

Lemma elem_of_stones_under (prefix : string) (s : state_store.StateStore) (x : Tombstone) :
  x ∈ state_store.stones_under prefix s ↔
  String.prefix prefix (ts_Key x) = true ∧ ∃ k, state_store.tombstones s !! k = Some x.
Proof.
  unfold state_store.stones_under. by rewrite list_elem_of_filter, elem_of_rows.
Qed.

Lemma elem_of_entries_under (prefix : string) (s : state_store.StateStore) (e : DirEntry) :
  e ∈ state_store.entries_under prefix s ↔
  String.prefix prefix (de_Key e) = true ∧ ∃ k, state_store.kvs s !! k = Some e.
Proof.
  unfold state_store.entries_under. by rewrite list_elem_of_filter, elem_of_rows.
Qed.

Lemma lookup_reaped (upto : Z) (s : state_store.StateStore) (k : string) (x : Tombstone) :
  state_store.tombstones (state_store.ReapTombstones upto s).2 !! k = Some x ↔
  state_store.tombstones s !! k = Some x ∧ upto < ts_Index x.
Proof.
  simpl. rewrite map_lookup_filter_Some. simpl. split; intros [? ?]; split; (done || lia).
Qed.

(** C4: [ReapTombstones(upto)] deletes exactly the tombstones whose index
    is at most [upto] and touches no live entry.  Afterwards the result
    index of a prefix query is the maximum over the live entries and the
    remaining tombstones under the prefix (their least upper bound from 0).
    When the largest contributor before the reap was a reaped tombstone,
    that is, a tombstone under the prefix with index at most [upto] carried
    the result index and every live entry under the prefix was older, the
    result index is smaller after the reap than before.  Through the FSM,
    a reap request runs [ReapTombstones] at its [ReapIndex]. *)
Theorem ReapTombstones_spec (upto : Z) (prefix : string) (s : state_store.StateStore) :
  let s' := (state_store.ReapTombstones upto s).2 in
  let before := (state_store.KVSList prefix s).1 in
  let after := (state_store.KVSList prefix s').1 in
  (state_store.ReapTombstones upto s).1 = None ∧
  (∀ k x, state_store.tombstones s' !! k = Some x ↔
          state_store.tombstones s !! k = Some x ∧ ¬ (ts_Index x ≤ upto)) ∧
  (state_store.KVSList prefix s').2 = (state_store.KVSList prefix s).2 ∧
  (∀ b, after ≤ b ↔
        0 ≤ b ∧
        (∀ e, e ∈ (state_store.KVSList prefix s).2 → de_ModifyIndex e ≤ b) ∧
        (∀ k x, state_store.tombstones s !! k = Some x →
                String.prefix prefix (ts_Key x) = true →
                ¬ (ts_Index x ≤ upto) → ts_Index x ≤ b)) ∧
  (∀ k x, state_store.tombstones s !! k = Some x →
          String.prefix prefix (ts_Key x) = true →
          ts_Index x ≤ upto →
          ts_Index x = before → 0 < before →
          (∀ e, e ∈ (state_store.KVSList prefix s).2 → de_ModifyIndex e < before) →
          after < before) ∧
  (∀ sx c buf req,
     DecodeTombstoneRequest sx buf = Some req →
     tr_Op req = TombstoneReap_op → tr_ReapIndex req = upto → fsm_state c = s →
     applyTombstoneOperation sx state_store.api c buf 0
     = Returns (RespNil, with_state c s')).
Proof.
  intros s' before after.
  assert (Hlive : state_store.entries_under prefix s' = state_store.entries_under prefix s)
    by reflexivity.
  assert (Hstones : ∀ x, x ∈ state_store.stones_under prefix s' ↔
            x ∈ state_store.stones_under prefix s ∧ upto < ts_Index x).
  { intros x. rewrite !elem_of_stones_under. split.
    - intros (Hp & k & Hk). apply lookup_reaped in Hk as [Hk Hi]. eauto.
    - intros ((Hp & k & Hk) & Hi). split; [done|]. exists k.
      apply lookup_reaped. done. }
  split; [done|]. split.
  { intros k x. subst s'. rewrite lookup_reaped. split; intros [? ?]; split; (done || lia). }
  split; [by unfold state_store.KVSList; rewrite Hlive|].
  split.
  { intros b. subst after. unfold state_store.KVSList. simpl.
    rewrite Z.max_lub_iff, !max_list_le. fold s'. rewrite Hlive. split.
    - intros ((Hb & Hl) & (_ & Ht)). split; [done|]. split.
      + intros e He. apply Hl. apply list_elem_of_fmap. eauto.
      + intros k x Hk Hp Hi. apply Ht. apply list_elem_of_fmap. exists x.
        split; [done|]. apply Hstones. split; [|lia].
        apply elem_of_stones_under. eauto.
    - intros (Hb & Hl & Ht). split; (split; [done|]).
      + intros i Hi. apply list_elem_of_fmap in Hi as (e & -> & He). auto.
      + intros i Hi. apply list_elem_of_fmap in Hi as (x & -> & Hx).
        apply Hstones in Hx as [Hx Hi]. apply elem_of_stones_under in Hx as (Hp & k & Hk).
        eapply Ht; eauto. lia. }
  split.
  { intros k x Hk Hp Hup Hbefore Hpos Hlt.
    subst after. unfold state_store.KVSList. simpl. fold s'. rewrite Hlive.
    apply Z.max_lub_lt.
    - apply max_list_lt; [done|]. intros i Hi.
      apply list_elem_of_fmap in Hi as (e & -> & He). auto.
    - apply max_list_lt; [done|]. intros i Hi.
      apply list_elem_of_fmap in Hi as (y & -> & Hy).
      apply Hstones in Hy as [Hy Hi].
      assert (ts_Index y ≤ before); [|lia].
      subst before. unfold state_store.KVSList. simpl.
      etrans; [|apply Z.le_max_r]. apply max_list_elem.
      apply list_elem_of_fmap. eauto. }
  intros sx c buf req Hdec Hop Hidx Hs.
  unfold applyTombstoneOperation. rewrite Hdec, Hop. simpl.
  rewrite Hidx, Hs. done.
Qed.

(** [TestStateStore_ReapTombstones]: the listing of foo/ reads 7 from the
    tombstone of foo/moo; after reaping up to 7 it slides back to 5. *)
Lemma ReapTombstones_spec_witness :
  let x := {| ts_Key := "foo/moo"; ts_Index := 7 |} in
  let before := (state_store.KVSList "foo/" store_reap).1 in
  let after :=
    (state_store.KVSList "foo/" (state_store.ReapTombstones 7 store_reap).2).1 in
  state_store.tombstones store_reap !! "foo/moo" = Some x ∧
  before = 7 ∧ after = 5 ∧ after < before.
Proof.
  intros x before after.
  assert (Hx : state_store.tombstones store_reap !! "foo/moo" = Some x)
    by (vm_compute; reflexivity).
  assert (Hb : before = 7) by (vm_compute; reflexivity).
  split; [exact Hx|]. split; [exact Hb|]. split; [vm_compute; reflexivity|].
  apply (proj1 (proj2 (proj2 (proj2 (proj2 (ReapTombstones_spec 7 "foo/" store_reap)))))
           "foo/moo" x Hx).
  - vm_compute. reflexivity.
  - simpl. lia.
  - vm_compute. reflexivity.
  - fold before. rewrite Hb. lia.
  - fold before. rewrite Hb. apply Forall_forall.
    refine (bool_decide_unpack _ _); vm_compute; exact I.
Defined.

(** ** Locks on K/V entries *)

Lemma kvsSetTxn_lookup (idx : Z) (e : DirEntry) (s : state_store.StateStore) :
  ∃ create,
    state_store.KVSGet (de_Key e) (state_store.kvsSetTxn idx e s)
    = Some (state_store.stamp_entry create idx e).
Proof.
  unfold state_store.KVSGet, state_store.kvsSetTxn. simpl.
  eexists. apply lookup_insert_eq.
Qed.

(** C5: for a lock request that names an existing session, [KVSLock] on a
    key that no session holds sets the entry's session and bumps
    [LockIndex] (1 for a new key, one more than before otherwise) and
    returns [ok=true]; locking again by the holder returns [ok=true] and
    leaves [LockIndex] alone; a key held by another session gives
    [ok=false] and no change.  [KVSUnlock] by the holder clears the session
    field, keeps [LockIndex] and returns [ok=true]; by anyone else it
    returns [ok=false] and changes nothing. *)
Theorem KVSLock_KVSUnlock_spec (idx : Z) (entry : DirEntry) (s : state_store.StateStore) :
  let key := de_Key entry in
  let session := de_Session entry in
  let lock := state_store.KVSLock idx entry s in
  let unlock := state_store.KVSUnlock idx entry s in
  (session ≠ "" → is_Some (state_store.sessions s !! session) →
     (state_store.KVSGet key s = None →
        lock.1 = (true, None) ∧ held_by key session 1 lock.2) ∧
     (∀ e, state_store.KVSGet key s = Some e → de_Session e = "" →
        lock.1 = (true, None) ∧
        held_by key session ((de_LockIndex e + 1) mod uint64_mod) lock.2) ∧
     (∀ e, state_store.KVSGet key s = Some e → de_Session e = session →
        lock.1 = (true, None) ∧ held_by key session (de_LockIndex e) lock.2) ∧
     (∀ e, state_store.KVSGet key s = Some e →
        de_Session e ≠ "" → de_Session e ≠ session →
        lock.1 = (false, None) ∧ lock.2 = s)) ∧
  (session ≠ "" →
     ∀ e, state_store.KVSGet key s = Some e → de_Session e = session →
       unlock.1 = (true, None) ∧ held_by key "" (de_LockIndex e) unlock.2) ∧
  ((∀ e, state_store.KVSGet key s = Some e → de_Session e ≠ session) →
     unlock.1.1 = false ∧ unlock.2 = s).
Proof.
  intros key session lock unlock.
  subst lock unlock. unfold state_store.KVSLock, state_store.KVSUnlock.
  fold key session. unfold state_store.KVSGet.
  split; [|split].
  - intros Hne [x Hx]. rewrite decide_False by done. rewrite Hx.
    split; [|split; [|split]].
    + intros ->. split; [done|].
      destruct (kvsSetTxn_lookup idx (state_store.with_lock session 1 entry) s)
        as [create Hc].
      eexists. split; [exact Hc|]. done.
    + intros e -> He. rewrite decide_False by congruence.
      rewrite decide_False by (intros ?; congruence). split; [done|].
      destruct (kvsSetTxn_lookup idx
                  (state_store.with_lock session
                     ((de_LockIndex e + 1) mod uint64_mod) entry) s)
        as [create Hc].
      eexists. split; [exact Hc|]. done.
    + intros e -> He. rewrite decide_True by done. split; [done|].
      destruct (kvsSetTxn_lookup idx
                  (state_store.with_lock session (de_LockIndex e) entry) s)
        as [create Hc].
      eexists. split; [exact Hc|]. done.
    + intros e -> He1 He2. rewrite decide_False by done.
      rewrite decide_True by done. done.
  - intros Hne e -> He. rewrite decide_False by done.
    rewrite decide_True by done. split; [done|].
    destruct (kvsSetTxn_lookup idx (state_store.with_lock "" (de_LockIndex e) entry) s)
      as [create Hc].
    eexists. split; [exact Hc|]. done.
  - intros Hnot. destruct (decide (session = "")); [done|].
    destruct (state_store.kvs s !! key) as [e|] eqn:He; [|done].
    rewrite decide_False by (by apply Hnot). done.
Qed.

(** [TestFSM_KVSLock] and [TestFSM_KVSUnlock]: the session locks a new key
    ([LockIndex] 1), locks it again ([LockIndex] still 1), and unlocks it
    (no holder, [LockIndex] 1). *)
Lemma KVSLock_KVSUnlock_spec_witness :
  let entry := mk_entry "/test/path" [116] "session1" 0 in
  let s1 := (state_store.KVSLock 3 entry store_session).2 in
  let s2 := (state_store.KVSLock 4 entry s1).2 in
  "session1" ≠ "" ∧
  is_Some (state_store.sessions store_session !! "session1") ∧
  state_store.KVSGet "/test/path" store_session = None ∧
  ((state_store.KVSLock 3 entry store_session).1 = (true, None) ∧
   held_by "/test/path" "session1" 1 s1) ∧
  ((state_store.KVSLock 4 entry s1).1 = (true, None) ∧
   held_by "/test/path" "session1" 1 s2) ∧
  ((state_store.KVSUnlock 5 entry s2).1 = (true, None) ∧
   held_by "/test/path" "" 1 (state_store.KVSUnlock 5 entry s2).2).
Proof.
  intros entry s1 s2.
  assert (Hne : "session1" ≠ "") by discriminate.
  assert (Hs0 : is_Some (state_store.sessions store_session !! "session1")).
  { vm_compute. eexists. reflexivity. }
  assert (Hs1 : is_Some (state_store.sessions s1 !! "session1")).
  { vm_compute. eexists. reflexivity. }
  assert (Hnone : state_store.KVSGet "/test/path" store_session = None)
    by (vm_compute; reflexivity).
  split; [exact Hne|]. split; [exact Hs0|]. split; [exact Hnone|].
  split; [|split].
  - exact (proj1 (proj1 (KVSLock_KVSUnlock_spec 3 entry store_session) Hne Hs0) Hnone).
  - assert (He : state_store.KVSGet "/test/path" s1
                 = Some (state_store.stamp_entry 3 3
                           (state_store.with_lock "session1" 1 entry)))
      by (vm_compute; reflexivity).
    exact (proj1 (proj2 (proj2 (proj1 (KVSLock_KVSUnlock_spec 4 entry s1) Hne Hs1)))
             _ He eq_refl).
  - assert (He : state_store.KVSGet "/test/path" s2
                 = Some (state_store.stamp_entry 3 4
                           (state_store.with_lock "session1" 1 entry)))
      by (vm_compute; reflexivity).
    exact (proj1 (proj2 (KVSLock_KVSUnlock_spec 5 entry s2)) Hne _ He eq_refl).
Defined.

(** ** Deletes of what is not there *)

Lemma foldl_kvsDeleteTxn_frame (idx : Z) (ks : list string) (s : state_store.StateStore) :
  let s' := foldl (λ s k, state_store.kvsDeleteTxn idx k s) s ks in
  state_store.nodes s' = state_store.nodes s ∧
  state_store.services s' = state_store.services s ∧
  state_store.checks s' = state_store.checks s ∧
  state_store.sessions s' = state_store.sessions s ∧
  state_store.acls s' = state_store.acls s.
Proof.
  revert s. induction ks as [|k ks IH]; intros s; simpl; [done|].
  destruct (IH (state_store.kvsDeleteTxn idx k s)) as (-> & -> & -> & -> & ->). done.
Qed.

Lemma kvsReleaseTxn_frame (idx : Z) (k : string) (s : state_store.StateStore) :
  let s' := state_store.kvsReleaseTxn idx k s in
  state_store.nodes s' = state_store.nodes s ∧
  state_store.services s' = state_store.services s ∧
  state_store.checks s' = state_store.checks s ∧
  state_store.sessions s' = state_store.sessions s ∧
  state_store.acls s' = state_store.acls s.
Proof. unfold state_store.kvsReleaseTxn. by destruct (state_store.kvs s !! k). Qed.

Lemma foldl_kvsReleaseTxn_frame (idx : Z) (ks : list string) (s : state_store.StateStore) :
  let s' := foldl (λ s k, state_store.kvsReleaseTxn idx k s) s ks in
  state_store.nodes s' = state_store.nodes s ∧
  state_store.services s' = state_store.services s ∧
  state_store.checks s' = state_store.checks s ∧
  state_store.sessions s' = state_store.sessions s ∧
  state_store.acls s' = state_store.acls s.
Proof.
  revert s. induction ks as [|k ks IH]; intros s; simpl; [done|].
  destruct (IH (state_store.kvsReleaseTxn idx k s)) as (-> & -> & -> & -> & ->).
  apply kvsReleaseTxn_frame.
Qed.

(** Destroying a session touches the sessions and the K/V store only, and
    takes the session out of its table. *)
Lemma deleteSessionTxn_frame (idx : Z) (id : string) (s : state_store.StateStore) :
  let s' := state_store.deleteSessionTxn idx id s in
  state_store.nodes s' = state_store.nodes s ∧
  state_store.services s' = state_store.services s ∧
  state_store.checks s' = state_store.checks s ∧
  state_store.acls s' = state_store.acls s ∧
  state_store.sessions s' = delete id (state_store.sessions s).
Proof.
  unfold state_store.deleteSessionTxn.
  destruct (state_store.sessions s !! id) as [x|] eqn:Hx.
  - destruct (state_store.held_keys id s) as [|k ks]; [done|].
    destruct (decide (sess_Behavior x = state_store.SessionKeysDelete)); simpl.
    + match goal with |- context [foldl ?f ?a ks] =>
        destruct (foldl_kvsDeleteTxn_frame idx ks a) as (-> & -> & -> & -> & ->) end.
      done.
    + match goal with |- context [foldl ?f ?a ks] =>
        destruct (foldl_kvsReleaseTxn_frame idx ks a) as (-> & -> & -> & -> & ->) end.
      destruct (kvsReleaseTxn_frame idx k
                  (state_store.indexUpdate "sessions" idx
                     (state_store.set_sessions (delete id (state_store.sessions s)) s)))
        as (-> & -> & -> & -> & ->).
      done.
  - simpl. repeat split; try done. symmetry. by apply delete_id.
Qed.

Lemma foldl_deleteSessionTxn_frame (idx : Z) (ids : list string)
    (s : state_store.StateStore) :
  let s' := foldl (λ s id, state_store.deleteSessionTxn idx id s) s ids in
  state_store.nodes s' = state_store.nodes s ∧
  state_store.services s' = state_store.services s ∧
  state_store.checks s' = state_store.checks s ∧
  state_store.acls s' = state_store.acls s.
Proof.
  revert s. induction ids as [|id ids IH]; intros s; simpl; [done|].
  destruct (IH (state_store.deleteSessionTxn idx id s)) as (-> & -> & -> & ->).
  destruct (deleteSessionTxn_frame idx id s) as (-> & -> & -> & -> & _). done.
Qed.

Lemma deleteCheckTxn_gone (idx : Z) (node cid : string) (s : state_store.StateStore) :
  state_store.checks (state_store.deleteCheckTxn idx node cid s) !! (node, cid) = None.
Proof.
  unfold state_store.deleteCheckTxn.
  destruct (state_store.checks s !! (node, cid)) eqn:Hc; [|done].
  match goal with |- context [foldl ?f ?a ?l] =>
    destruct (foldl_deleteSessionTxn_frame idx l a) as (_ & _ & -> & _) end.
  simpl. apply lookup_delete_eq.
Qed.

Lemma deleteSessionTxn_gone (idx : Z) (id : string) (s : state_store.StateStore) :
  state_store.sessions (state_store.deleteSessionTxn idx id s) !! id = None.
Proof.
  destruct (deleteSessionTxn_frame idx id s) as (_ & _ & _ & _ & ->).
  apply lookup_delete_eq.
Qed.

Lemma foldl_kvsDeleteTxn_lookup (idx : Z) (ks : list string)
    (s : state_store.StateStore) (k : string) :
  state_store.kvs (foldl (λ s k, state_store.kvsDeleteTxn idx k s) s ks) !! k
  = if decide (k ∈ ks) then None else state_store.kvs s !! k.
Proof.
  revert s. induction ks as [|k' ks IH]; intros s; cbn [foldl].
  - rewrite decide_False; [done | apply not_elem_of_nil].
  - rewrite IH.
    replace (state_store.kvs (state_store.kvsDeleteTxn idx k' s))
      with (delete k' (state_store.kvs s)) by reflexivity.
    destruct (decide (k ∈ ks)) as [Hin|Hnin].
    + rewrite decide_True by (by right). done.
    + destruct (decide (k = k')) as [->|Hne].
      * rewrite lookup_delete_eq, decide_True by (by left). done.
      * rewrite lookup_delete_ne by done.
        rewrite decide_False; [done|]. rewrite elem_of_cons. tauto.
Qed.

Lemma KVSDeleteTree_clears (idx : Z) (prefix : string) (s : state_store.StateStore) :
  state_store.keys_under prefix (state_store.KVSDeleteTree idx prefix s).2 = [].
Proof.
  unfold state_store.KVSDeleteTree.
  destruct (state_store.keys_under prefix s) as [|k0 ks] eqn:Hks; [done|].
  change (state_store.keys_under prefix
            (state_store.indexUpdate "kvs" idx
               (foldl (λ s k, state_store.kvsDeleteTxn idx k s) s (k0 :: ks))) = []).
  rewrite <- Hks.
  match goal with |- ?l = [] => destruct l as [|k l'] eqn:E; [done | exfalso] end.
  assert (Hin : k ∈ k :: l') by left. rewrite <- E in Hin.
  unfold state_store.keys_under at 1 in Hin.
  apply list_elem_of_filter in Hin as [Hp Hk].
  apply elem_of_keys_of in Hk as [e He].
  change (state_store.kvs
            (foldl (λ s k, state_store.kvsDeleteTxn idx k s) s
               (state_store.keys_under prefix s)) !! k = Some e) in He.
  rewrite foldl_kvsDeleteTxn_lookup in He.
  destruct (decide (k ∈ state_store.keys_under prefix s)) as [|Hn]; [done|].
  apply Hn. unfold state_store.keys_under. apply list_elem_of_filter.
  split; [done|]. apply elem_of_keys_of. eauto.
Qed.

Lemma keys_under_nil (prefix : string) (s : state_store.StateStore) :
  (∀ k, is_Some (state_store.KVSGet k s) → String.prefix prefix k = false) →
  state_store.keys_under prefix s = [].
Proof.
  intros Hno.
  destruct (state_store.keys_under prefix s) as [|k l] eqn:E; [done | exfalso].
  assert (Hin : k ∈ k :: l) by left. rewrite <- E in Hin.
  apply list_elem_of_filter in Hin as [Hp Hk].
  apply elem_of_keys_of in Hk. apply Hno in Hk. congruence.
Qed.

(** C6: each of the seven deletes, applied to a target that does not exist,
    returns no error and leaves the store as it is, every row of the index
    table with it; and a delete repeated on the same entity, at whatever
    later index, changes nothing more than the first one did. *)
Theorem delete_nonexistent_is_noop (idx idx' : Z) (s : state_store.StateStore) :
  (∀ node,
     (state_store.GetNode node s = None → state_store.DeleteNode idx node s = (None, s)) ∧
     let s1 := (state_store.DeleteNode idx node s).2 in
     state_store.DeleteNode idx' node s1 = (None, s1)) ∧
  (∀ node sid,
     (state_store.services s !! (node, sid) = None →
      state_store.DeleteService idx node sid s = (None, s)) ∧
     let s1 := (state_store.DeleteService idx node sid s).2 in
     state_store.DeleteService idx' node sid s1 = (None, s1)) ∧
  (∀ node cid,
     (state_store.checks s !! (node, cid) = None →
      state_store.DeleteCheck idx node cid s = (None, s)) ∧
     let s1 := (state_store.DeleteCheck idx node cid s).2 in
     state_store.DeleteCheck idx' node cid s1 = (None, s1)) ∧
  (∀ key,
     (state_store.KVSGet key s = None → state_store.KVSDelete idx key s = (None, s)) ∧
     let s1 := (state_store.KVSDelete idx key s).2 in
     state_store.KVSDelete idx' key s1 = (None, s1)) ∧
  (∀ prefix,
     ((∀ k, is_Some (state_store.KVSGet k s) → String.prefix prefix k = false) →
      state_store.KVSDeleteTree idx prefix s = (None, s)) ∧
     let s1 := (state_store.KVSDeleteTree idx prefix s).2 in
     state_store.KVSDeleteTree idx' prefix s1 = (None, s1)) ∧
  (∀ id,
     (state_store.sessions s !! id = None →
      state_store.SessionDestroy idx id s = (None, s)) ∧
     let s1 := (state_store.SessionDestroy idx id s).2 in
     state_store.SessionDestroy idx' id s1 = (None, s1)) ∧
  (∀ id,
     (state_store.ACLGet id s = None → state_store.ACLDelete idx id s = (None, s)) ∧
     let s1 := (state_store.ACLDelete idx id s).2 in
     state_store.ACLDelete idx' id s1 = (None, s1)).
Proof.
  repeat split.
  - unfold state_store.DeleteNode, state_store.deleteNodeTxn, state_store.GetNode.
    by intros ->.
  - unfold state_store.DeleteNode. simpl. f_equal.
    unfold state_store.deleteNodeTxn at 1.
    assert (state_store.nodes (state_store.deleteNodeTxn idx node s) !! node = None) as ->;
      [|done].
    unfold state_store.deleteNodeTxn.
    destruct (state_store.nodes s !! node) eqn:Hn; [|done].
    simpl. apply lookup_delete_eq.
  - unfold state_store.DeleteService, state_store.deleteServiceTxn. by intros ->.
  - unfold state_store.DeleteService. simpl. f_equal.
    unfold state_store.deleteServiceTxn at 1.
    assert (state_store.services (state_store.deleteServiceTxn idx node sid s)
              !! (node, sid) = None) as ->; [|done].
    unfold state_store.deleteServiceTxn.
    destruct (state_store.services s !! (node, sid)) eqn:Hn; [|done].
    simpl. apply lookup_delete_eq.
  - unfold state_store.DeleteCheck, state_store.deleteCheckTxn. by intros ->.
  - unfold state_store.DeleteCheck. simpl. f_equal.
    unfold state_store.deleteCheckTxn at 1.
    by rewrite deleteCheckTxn_gone.
  - unfold state_store.KVSDelete, state_store.KVSGet. by intros ->.
  - cbv zeta. unfold state_store.KVSDelete at 1.
    assert (state_store.kvs (state_store.KVSDelete idx key s).2 !! key = None) as ->;
      [|done].
    unfold state_store.KVSDelete.
    destruct (state_store.kvs s !! key) eqn:Hk; [|done].
    simpl. apply lookup_delete_eq.
  - intros Hno. unfold state_store.KVSDeleteTree. by rewrite keys_under_nil.
  - cbv zeta. unfold state_store.KVSDeleteTree at 1. by rewrite KVSDeleteTree_clears.
  - unfold state_store.SessionDestroy, state_store.deleteSessionTxn. by intros ->.
  - unfold state_store.SessionDestroy. simpl. f_equal.
    unfold state_store.deleteSessionTxn at 1.
    by rewrite deleteSessionTxn_gone.
  - unfold state_store.ACLDelete, state_store.ACLGet. by intros ->.
  - cbv zeta. unfold state_store.ACLDelete at 1.
    assert (state_store.acls (state_store.ACLDelete idx id s).2 !! id = None) as ->;
      [|done].
    unfold state_store.ACLDelete.
    destruct (state_store.acls s !! id) eqn:Hk; [|done].
    simpl. apply lookup_delete_eq.
Qed.

(** [TestStateStore_DeleteNode] and [TestStateStore_KVSDelete]: the second
    delete of node foo, at index 4, is a no-op and the index of the nodes
    table stays at 3; the delete of a key never set is a no-op. *)
Lemma delete_nonexistent_is_noop_witness :
  let s1 := (state_store.DeleteNode 3 "foo" store_foo_db).2 in
  state_store.DeleteNode 4 "foo" s1 = (None, s1) ∧
  state_store.maxIndex ["nodes"] s1 = 3 ∧
  state_store.KVSGet "foo" store_foo_db = None ∧
  state_store.KVSDelete 4 "foo" store_foo_db = (None, store_foo_db).
Proof.
  intros s1.
  assert (Hnone : state_store.KVSGet "foo" store_foo_db = None)
    by (vm_compute; reflexivity).
  split; [|split; [vm_compute; reflexivity|split; [exact Hnone|]]].
  - exact (proj2 (proj1 (delete_nonexistent_is_noop 3 4 store_foo_db) "foo")).
  - exact (proj1 (proj1 (proj2 (proj2 (proj2
             (delete_nonexistent_is_noop 4 4 store_foo_db)))) "foo") Hnone).
Defined.

(** ** The result index of [CheckServiceNodes] *)






(** The rest of [TestStateStore_CheckServiceNodes]: a node update at 8, a
    service update at 9 and a check update at 10 each become the result
    index. *)
Lemma CheckServiceNodes_test_replay :
  let s8 := register_node 8 "node1" store_csn in
  let s9 := register_service 9 "node1" "service1" s8 in
  let s10 := register_check 10 "node1" "service1" "check1" "critical" s9 in
  (state_store.CheckServiceNodes "service1" s8).1 = 8 ∧
  (state_store.CheckServiceNodes "service1" s9).1 = 9 ∧
  (state_store.CheckServiceNodes "service1" s10).1 = 10 ∧
  length (state_store.CheckServiceNodes "service1" store_csn).2 = 1%nat.
Proof. repeat split; vm_compute; reflexivity. Qed.

(** ** Snapshot, persist, restore *)

Section snapshot_stream.
Variable sx : StructsPkg.

Lemma foldl_emit {A : Type} (t : Z) (f : A → Frame) (l : list A) (sink : Sink) :
  foldl (λ k x, emit t (f x) k) sink l
  = {| sink_data := sink_data sink ++ (l ≫= λ x, [FByte t; f x]);
       sink_cancel := sink_cancel sink |}.
Proof.
  revert sink. induction l as [|x l IH]; intros sink; simpl.
  - rewrite app_nil_r. by destruct sink.
  - rewrite IH. unfold emit, sink_Encode, sink_Write. simpl.
    by rewrite <- !app_assoc.
Qed.

Lemma bind_fmap_frames {A : Type} (g : A → SnapRecord) (f : A → list Frame)
    (l : list A) :
  (∀ x, record_frames sx (g x) = f x) →
  (g <$> l) ≫= record_frames sx = l ≫= f.
Proof.
  intros Hf. induction l as [|x l IH]; [done|].
  by rewrite fmap_cons, !bind_cons, IH, Hf.
Qed.




End snapshot_stream.

(** ** What the restored store holds *)



Section restore_tables.
Variable L : Z.
Variable s : state_store.StateStore.





End restore_tables.

Section restore_catalog.
Variable L : Z.
Variable s : state_store.StateStore.





End restore_catalog.



Section restore_all.
Variable L : Z.
Variable s : state_store.StateStore.
Hypothesis Hwf : wf_store s.





End restore_all.

Section rows_fmap.
Context {K : Type} `{Countable K} {V W : Type}.
Variable le : relation K.
Context `{∀ x y, Decision (le x y)}.



End rows_fmap.






(** ** Every reachable store is well-formed *)

Lemma foldl_preserves {A B : Type} (P : A → Prop) (f : A → B → A) (l : list B) :
  (∀ a x, P a → P (f a x)) → ∀ a, P a → P (foldl f a l).
Proof. intros Hf. induction l as [|x l IH]; intros a Ha; simpl; auto. Qed.

Ltac wf_keys_step :=
  match goal with
  | |- map_Forall _ (<[_:=_]> _) => apply map_Forall_insert_2; [try done|]
  | |- map_Forall _ (delete _ _) => apply map_Forall_delete
  | |- map_Forall _ _ => done
  end.

Ltac wf_keys_solve :=
  match goal with
  | H : wf_keys _ |- wf_keys _ =>
      destruct H as (?&?&?&?&?&?&?); unfold wf_keys; simpl;
      repeat apply conj; repeat wf_keys_step
  end.

Lemma wf_keys_indexUpdate (t : string) (idx : Z) (s : state_store.StateStore) :
  wf_keys s → wf_keys (state_store.indexUpdate t idx s).
Proof. intros H. exact H. Qed.

Lemma wf_keys_indexUpdateMax (t : string) (idx : Z) (s : state_store.StateStore) :
  wf_keys s → wf_keys (state_store.indexUpdateMax t idx s).
Proof. intros H. unfold state_store.indexUpdateMax. by case_decide. Qed.

Lemma wf_keys_kvsSetTxn (idx : Z) (e : DirEntry) (s : state_store.StateStore) :
  wf_keys s → wf_keys (state_store.kvsSetTxn idx e s).
Proof. intros H. unfold state_store.kvsSetTxn. wf_keys_solve. Qed.

Lemma wf_keys_kvsDeleteTxn (idx : Z) (k : string) (s : state_store.StateStore) :
  wf_keys s → wf_keys (state_store.kvsDeleteTxn idx k s).
Proof. intros H. unfold state_store.kvsDeleteTxn. wf_keys_solve. Qed.

Lemma wf_keys_kvsReleaseTxn (idx : Z) (k : string) (s : state_store.StateStore) :
  wf_keys s → wf_keys (state_store.kvsReleaseTxn idx k s).
Proof.
  intros H. unfold state_store.kvsReleaseTxn.
  destruct (state_store.kvs s !! k) as [e|] eqn:He; [|done].
  assert (de_Key e = k) by (destruct H as (_&_&_&Hk&_); exact (Hk _ _ He)).
  wf_keys_solve.
Qed.

Lemma wf_keys_deleteSessionTxn (idx : Z) (id : string) (s : state_store.StateStore) :
  wf_keys s → wf_keys (state_store.deleteSessionTxn idx id s).
Proof.
  intros H. unfold state_store.deleteSessionTxn.
  destruct (state_store.sessions s !! id) as [x|]; [|done].
  assert (wf_keys (state_store.indexUpdate "sessions" idx
                     (state_store.set_sessions (delete id (state_store.sessions s)) s)))
    as H1 by wf_keys_solve.
  destruct (state_store.held_keys id s) as [|k ks]; [done|].
  case_decide; apply wf_keys_indexUpdate.
  - apply (foldl_preserves wf_keys); [|done].
    intros a0 k0 Ha. by apply wf_keys_kvsDeleteTxn.
  - apply (foldl_preserves wf_keys); [|done].
    intros a0 k0 Ha. by apply wf_keys_kvsReleaseTxn.
Qed.

Lemma wf_keys_deleteCheckTxn (idx : Z) (node cid : string) (s : state_store.StateStore) :
  wf_keys s → wf_keys (state_store.deleteCheckTxn idx node cid s).
Proof.
  intros H. unfold state_store.deleteCheckTxn.
  destruct (state_store.checks s !! (node, cid)); [|done].
  apply (foldl_preserves wf_keys).
  - intros a0 k0 Ha. by apply wf_keys_deleteSessionTxn.
  - wf_keys_solve.
Qed.

Lemma wf_keys_deleteServiceTxn (idx : Z) (node sid : string) (s : state_store.StateStore) :
  wf_keys s → wf_keys (state_store.deleteServiceTxn idx node sid s).
Proof.
  intros H. unfold state_store.deleteServiceTxn.
  destruct (state_store.services s !! (node, sid)); [|done].
  match goal with |- context [foldl ?f s ?l] =>
    assert (wf_keys (foldl f s l)) as H1 end.
  { apply (foldl_preserves wf_keys); [|done].
    intros a0 k0 Ha. by apply wf_keys_deleteCheckTxn. }
  wf_keys_solve.
Qed.

Lemma wf_keys_deleteNodeTxn (idx : Z) (node : string) (s : state_store.StateStore) :
  wf_keys s → wf_keys (state_store.deleteNodeTxn idx node s).
Proof.
  intros H. unfold state_store.deleteNodeTxn.
  destruct (state_store.nodes s !! node); [|done]. cbv zeta.
  set (s1 := foldl (λ s k, state_store.deleteServiceTxn idx k.1 k.2 s) s _).
  assert (wf_keys s1) as H1.
  { apply (foldl_preserves wf_keys); [|done].
    intros a0 k0 Ha. by apply wf_keys_deleteServiceTxn. }
  set (s2 := foldl (λ s k, state_store.deleteCheckTxn idx k.1 k.2 s) s1 _).
  assert (wf_keys s2) as H2.
  { apply (foldl_preserves wf_keys); [|done].
    intros a0 k0 Ha. by apply wf_keys_deleteCheckTxn. }
  set (s3 := foldl (λ s id, state_store.deleteSessionTxn idx id s) s2 _).
  assert (wf_keys s3) as H3.
  { apply (foldl_preserves wf_keys); [|done].
    intros a0 k0 Ha. by apply wf_keys_deleteSessionTxn. }
  clearbody s3. clear -H3. wf_keys_solve.
Qed.

Lemma wf_keys_ensureNodeTxn (idx : Z) (n : Node) (s : state_store.StateStore) :
  wf_keys s → wf_keys (state_store.ensureNodeTxn idx n s).
Proof. intros H. unfold state_store.ensureNodeTxn. wf_keys_solve. Qed.

Lemma wf_keys_ensureServiceTxn (idx : Z) (node : string) (v : NodeService)
    (s s' : state_store.StateStore) :
  state_store.ensureServiceTxn idx node v s = inr s' → wf_keys s → wf_keys s'.
Proof.
  unfold state_store.ensureServiceTxn.
  destruct (state_store.nodes s !! node); [|done].
  intros [= <-] H. wf_keys_solve.
Qed.

Lemma wf_keys_ensureCheckTxn (idx : Z) (hc : HealthCheck)
    (s s' : state_store.StateStore) :
  state_store.ensureCheckTxn idx hc s = inr s' → wf_keys s → wf_keys s'.
Proof.
  unfold state_store.ensureCheckTxn.
  destruct (state_store.nodes s !! chk_Node hc); [|done].
  match goal with |- context [if ?c then ?a else ?b] =>
    destruct (if c then a else b) as [e|name]; [done|] end.
  intros [= <-] H. wf_keys_solve.
Qed.

Lemma wf_keys_ensureChecksTxn (idx : Z) (hcs : list HealthCheck) :
  ∀ s s', state_store.ensureChecksTxn idx hcs s = inr s' → wf_keys s → wf_keys s'.
Proof.
  induction hcs as [|hc hcs IH]; intros s s'; simpl.
  - by intros [= <-].
  - destruct (state_store.ensureCheckTxn idx hc s) as [e|s1] eqn:E; [done|].
    intros Hs' H. eapply IH; [done|]. by eapply wf_keys_ensureCheckTxn.
Qed.

Lemma wf_keys_ensureRegistrationTxn (idx : Z) (req : RegisterRequest)
    (s s' : state_store.StateStore) :
  state_store.ensureRegistrationTxn idx req s = inr s' → wf_keys s → wf_keys s'.
Proof.
  unfold state_store.ensureRegistrationTxn. intros Hrun H.
  pose proof (wf_keys_ensureNodeTxn idx
                {| node_Node := rr_Node req; node_Address := rr_Address req;
                   node_CreateIndex := 0; node_ModifyIndex := 0 |} s H) as H1.
  set (s1 := state_store.ensureNodeTxn idx _ s) in *.
  destruct (rr_Service req) as [svc|].
  - destruct (state_store.ensureServiceTxn idx (rr_Node req) svc s1) as [e|s2] eqn:E2;
      [done|].
    pose proof (wf_keys_ensureServiceTxn _ _ _ _ _ E2 H1) as H2.
    destruct (rr_Check req) as [hc|].
    + destruct (state_store.ensureCheckTxn idx hc s2) as [e|s3] eqn:E3; [done|].
      eapply wf_keys_ensureChecksTxn; [done|]. by eapply wf_keys_ensureCheckTxn.
    + by eapply wf_keys_ensureChecksTxn.
  - destruct (rr_Check req) as [hc|].
    + destruct (state_store.ensureCheckTxn idx hc s1) as [e|s3] eqn:E3; [done|].
      eapply wf_keys_ensureChecksTxn; [done|]. by eapply wf_keys_ensureCheckTxn.
    + by eapply wf_keys_ensureChecksTxn.
Qed.

Lemma wf_refs_catalog_same (s s' : state_store.StateStore) :
  catalog_same s s' → wf_refs s → wf_refs s'.
Proof. intros (Hn & Hs & Hc). unfold wf_refs. by rewrite Hn, Hs, Hc. Qed.

Lemma is_Some_insert `{Countable K} {V : Type} (m : gmap K V) (i j : K) (x : V) :
  is_Some (m !! j) → is_Some (<[i:=x]> m !! j).
Proof. intros Hj. apply lookup_insert_is_Some'. by right. Qed.

Lemma wf_refs_ensureNodeTxn (idx : Z) (n : Node) (s : state_store.StateStore) :
  wf_refs s → wf_refs (state_store.ensureNodeTxn idx n s).
Proof.
  intros [Hs Hc]. unfold wf_refs, state_store.ensureNodeTxn. simpl. split.
  - intros k v Hk. apply is_Some_insert. exact (Hs _ _ Hk).
  - intros k c Hk. destruct (Hc _ _ Hk) as [H1 H2]. split; [|done].
    by apply is_Some_insert.
Qed.

Lemma wf_refs_ensureServiceTxn (idx : Z) (node : string) (v : NodeService)
    (s s' : state_store.StateStore) :
  state_store.ensureServiceTxn idx node v s = inr s' → wf_refs s → wf_refs s'.
Proof.
  unfold state_store.ensureServiceTxn.
  destruct (state_store.nodes s !! node) as [n|] eqn:Hn; [|done].
  intros [= <-] [Hs Hc]. unfold wf_refs. simpl. split.
  - apply map_Forall_insert_2; [simpl; eauto|done].
  - intros k c Hk. destruct (Hc _ _ Hk) as [H1 H2]. split; [done|].
    intros Hsid. apply is_Some_insert. auto.
Qed.

Lemma wf_refs_ensureCheckTxn (idx : Z) (hc : HealthCheck)
    (s s' : state_store.StateStore) :
  state_store.ensureCheckTxn idx hc s = inr s' → wf_refs s → wf_refs s'.
Proof.
  unfold state_store.ensureCheckTxn.
  destruct (state_store.nodes s !! chk_Node hc) as [n|] eqn:Hn; [|done].
  destruct (decide (chk_ServiceID hc ≠ "")) as [Hsid|Hsid].
  - destruct (state_store.services s !! (chk_Node hc, chk_ServiceID hc))
      as [v|] eqn:Hv; [|done].
    intros [= <-] [Hs Hc]. unfold wf_refs. simpl. split; [done|].
    apply map_Forall_insert_2; [|done]. simpl. split; [eauto|].
    intros _. eauto.
  - intros [= <-] [Hs Hc]. unfold wf_refs. simpl. split; [done|].
    apply map_Forall_insert_2; [|done]. simpl. split; [eauto|done].
Qed.

Lemma wf_refs_ensureChecksTxn (idx : Z) (hcs : list HealthCheck) :
  ∀ s s', state_store.ensureChecksTxn idx hcs s = inr s' → wf_refs s → wf_refs s'.
Proof.
  induction hcs as [|hc hcs IH]; intros s s'; simpl.
  - by intros [= <-].
  - destruct (state_store.ensureCheckTxn idx hc s) as [e|s1] eqn:E; [done|].
    intros Hs' H. eapply IH; [done|]. by eapply wf_refs_ensureCheckTxn.
Qed.

Lemma wf_refs_ensureRegistrationTxn (idx : Z) (req : RegisterRequest)
    (s s' : state_store.StateStore) :
  state_store.ensureRegistrationTxn idx req s = inr s' → wf_refs s → wf_refs s'.
Proof.
  unfold state_store.ensureRegistrationTxn. intros Hrun H.
  pose proof (wf_refs_ensureNodeTxn idx
                {| node_Node := rr_Node req; node_Address := rr_Address req;
                   node_CreateIndex := 0; node_ModifyIndex := 0 |} s H) as H1.
  set (s1 := state_store.ensureNodeTxn idx _ s) in *.
  destruct (rr_Service req) as [svc|].
  - destruct (state_store.ensureServiceTxn idx (rr_Node req) svc s1) as [e|s2] eqn:E2;
      [done|].
    pose proof (wf_refs_ensureServiceTxn _ _ _ _ _ E2 H1) as H2.
    destruct (rr_Check req) as [hc|].
    + destruct (state_store.ensureCheckTxn idx hc s2) as [e|s3] eqn:E3; [done|].
      eapply wf_refs_ensureChecksTxn; [done|]. by eapply wf_refs_ensureCheckTxn.
    + by eapply wf_refs_ensureChecksTxn.
  - destruct (rr_Check req) as [hc|].
    + destruct (state_store.ensureCheckTxn idx hc s1) as [e|s3] eqn:E3; [done|].
      eapply wf_refs_ensureChecksTxn; [done|]. by eapply wf_refs_ensureCheckTxn.
    + by eapply wf_refs_ensureChecksTxn.
Qed.

(** What the removal of a check does to the catalog. *)
Lemma deleteCheckTxn_catalog (idx : Z) (node cid : string) (s : state_store.StateStore) :
  let s' := state_store.deleteCheckTxn idx node cid s in
  state_store.nodes s' = state_store.nodes s ∧
  state_store.services s' = state_store.services s ∧
  state_store.checks s' = delete (node, cid) (state_store.checks s).
Proof.
  unfold state_store.deleteCheckTxn.
  destruct (state_store.checks s !! (node, cid)) eqn:Hc.
  - match goal with |- context [foldl ?f ?a ?l] =>
      destruct (foldl_deleteSessionTxn_frame idx l a) as (-> & -> & -> & _) end.
    done.
  - simpl. split; [done|]. split; [done|]. symmetry. by apply delete_id.
Qed.

Lemma foldl_deleteCheckTxn_catalog (idx : Z) (ks : list (string * string))
    (s : state_store.StateStore) :
  let s' := foldl (λ s k, state_store.deleteCheckTxn idx k.1 k.2 s) s ks in
  state_store.nodes s' = state_store.nodes s ∧
  state_store.services s' = state_store.services s ∧
  ∀ k, state_store.checks s' !! k
       = if decide (k ∈ ks) then None else state_store.checks s !! k.
Proof.
  revert s. induction ks as [|k' ks IH]; intros s; cbn [foldl].
  - split; [done|]. split; [done|].
    intros k. rewrite decide_False; [done | apply not_elem_of_nil].
  - destruct (IH (state_store.deleteCheckTxn idx k'.1 k'.2 s)) as (-> & -> & Hc).
    destruct (deleteCheckTxn_catalog idx k'.1 k'.2 s) as (-> & -> & Hd).
    split; [done|]. split; [done|]. intros k. rewrite Hc, Hd.
    replace (k'.1, k'.2) with k' by (by destruct k').
    destruct (decide (k ∈ ks)) as [Hin|Hnin].
    + rewrite decide_True by (by right). done.
    + destruct (decide (k = k')) as [->|Hne].
      * rewrite lookup_delete_eq, decide_True by (by left). done.
      * rewrite lookup_delete_ne by done.
        rewrite decide_False; [done|]. rewrite elem_of_cons. tauto.
Qed.

Lemma wf_refs_deleteCheckTxn (idx : Z) (node cid : string) (s : state_store.StateStore) :
  wf_refs s → wf_refs (state_store.deleteCheckTxn idx node cid s).
Proof.
  intros [Hs Hc]. destruct (deleteCheckTxn_catalog idx node cid s) as (Hn' & Hs' & Hc').
  unfold wf_refs. rewrite Hn', Hs', Hc'. split; [done|]. by apply map_Forall_delete.
Qed.

(** What the removal of a service does to the catalog. *)
Lemma deleteServiceTxn_catalog (idx : Z) (node sid : string) (s : state_store.StateStore) :
  let s' := state_store.deleteServiceTxn idx node sid s in
  state_store.nodes s' = state_store.nodes s ∧
  state_store.services s' = delete (node, sid) (state_store.services s) ∧
  (∀ k c, state_store.checks s' !! k = Some c → state_store.checks s !! k = Some c) ∧
  (∀ k c, state_store.checks s' !! k = Some c →
          is_Some (state_store.services s !! (node, sid)) →
          ¬ (k.1 = node ∧ chk_ServiceID c = sid)).
Proof.
  unfold state_store.deleteServiceTxn.
  destruct (state_store.services s !! (node, sid)) as [v|] eqn:Hv.
  - simpl.
    destruct (foldl_deleteCheckTxn_catalog idx
                (state_store.checks_of_service node sid s) s) as (-> & -> & Hc).
    split; [done|]. split; [done|]. split.
    + intros k c. rewrite Hc. by case_decide.
    + intros k c. rewrite Hc. case_decide as Hin; [done|]. intros Hk _ [Hk1 Hk2].
      apply Hin. unfold state_store.checks_of_service.
      apply list_elem_of_filter. split.
      * split; [done|]. by rewrite Hk, <- Hk2.
      * apply elem_of_keys_of. eauto.
  - split; [done|]. split; [symmetry; by apply delete_id|]. split; [done|].
    intros k c _ [? ?]. done.
Qed.

Lemma wf_refs_deleteServiceTxn (idx : Z) (node sid : string) (s : state_store.StateStore) :
  wf_refs s → wf_refs (state_store.deleteServiceTxn idx node sid s).
Proof.
  intros [Hs Hc].
  destruct (deleteServiceTxn_catalog idx node sid s) as (Hn' & Hs' & Hsub & Hgone).
  unfold wf_refs. rewrite Hn', Hs'. split; [by apply map_Forall_delete|].
  intros k c Hk. destruct (Hc _ _ (Hsub _ _ Hk)) as [H1 H2]. split; [done|].
  intros Hsid. specialize (H2 Hsid).
  destruct (decide ((node, sid) = (k.1, chk_ServiceID c))) as [[= -> ->]|Hne].
  - exfalso. by eapply Hgone.
  - by rewrite lookup_delete_ne.
Qed.

Lemma foldl_deleteServiceTxn_catalog (idx : Z) (ks : list (string * string))
    (s : state_store.StateStore) :
  let s' := foldl (λ s k, state_store.deleteServiceTxn idx k.1 k.2 s) s ks in
  state_store.nodes s' = state_store.nodes s ∧
  (∀ k, state_store.services s' !! k
        = if decide (k ∈ ks) then None else state_store.services s !! k) ∧
  (∀ k c, state_store.checks s' !! k = Some c → state_store.checks s !! k = Some c).
Proof.
  revert s. induction ks as [|k' ks IH]; intros s; cbn [foldl].
  - split; [done|]. split; [|done].
    intros k. rewrite decide_False; [done | apply not_elem_of_nil].
  - destruct (IH (state_store.deleteServiceTxn idx k'.1 k'.2 s)) as (-> & Hs & Hc).
    destruct (deleteServiceTxn_catalog idx k'.1 k'.2 s) as (-> & Hd & Hsub & _).
    split; [done|]. split.
    + intros k. rewrite Hs, Hd.
      replace (k'.1, k'.2) with k' by (by destruct k').
      destruct (decide (k ∈ ks)) as [Hin|Hnin].
      * rewrite decide_True by (by right). done.
      * destruct (decide (k = k')) as [->|Hne].
        -- rewrite lookup_delete_eq, decide_True by (by left). done.
        -- rewrite lookup_delete_ne by done.
           rewrite decide_False; [done|]. rewrite elem_of_cons. tauto.
    + intros k c Hk. auto.
Qed.

Lemma wf_refs_deleteNodeTxn (idx : Z) (node : string) (s : state_store.StateStore) :
  wf_refs s → wf_refs (state_store.deleteNodeTxn idx node s).
Proof.
  intros H. unfold state_store.deleteNodeTxn.
  destruct (state_store.nodes s !! node) as [n|] eqn:Hn; [|done]. cbv zeta.
  set (s1 := foldl (λ s k, state_store.deleteServiceTxn idx k.1 k.2 s) s
               (state_store.services_of_node node s)).
  assert (wf_refs s1) as H1.
  { apply (foldl_preserves wf_refs); [|done].
    intros a0 k0 Ha. by apply wf_refs_deleteServiceTxn. }
  destruct (foldl_deleteServiceTxn_catalog idx
              (state_store.services_of_node node s) s) as (Hn1 & Hs1 & _).
  fold s1 in Hn1, Hs1.
  set (s2 := foldl (λ s k, state_store.deleteCheckTxn idx k.1 k.2 s) s1
               (state_store.checks_of_node node s1)).
  assert (wf_refs s2) as H2.
  { apply (foldl_preserves wf_refs); [|done].
    intros a0 k0 Ha. by apply wf_refs_deleteCheckTxn. }
  destruct (foldl_deleteCheckTxn_catalog idx
              (state_store.checks_of_node node s1) s1) as (Hn2 & Hs2 & Hc2).
  fold s2 in Hn2, Hs2, Hc2.
  set (s3 := foldl (λ s id, state_store.deleteSessionTxn idx id s) s2
               (state_store.sessions_of_node node s2)).
  destruct (foldl_deleteSessionTxn_frame idx
              (state_store.sessions_of_node node s2) s2) as (Hn3 & Hs3 & Hc3 & _).
  fold s3 in Hn3, Hs3, Hc3.
  destruct H2 as [Hrs Hrc].
  unfold wf_refs. simpl. rewrite Hn3, Hs3, Hc3. split.
  - intros k v Hk.
    assert (k.1 ≠ node) as Hne.
    { intros Heq. rewrite Hs2, Hs1 in Hk.
      destruct (decide (k ∈ state_store.services_of_node node s)) as [|Hnin]; [done|].
      apply Hnin. unfold state_store.services_of_node.
      apply list_elem_of_filter. split; [done|]. apply elem_of_keys_of. eauto. }
    rewrite lookup_delete_ne by done. exact (Hrs _ _ Hk).
  - intros k c Hk.
    assert (k.1 ≠ node) as Hne.
    { intros Heq. rewrite Hc2 in Hk.
      destruct (decide (k ∈ state_store.checks_of_node node s1)) as [|Hnin]; [done|].
      apply Hnin. unfold state_store.checks_of_node.
      apply list_elem_of_filter. split; [done|]. apply elem_of_keys_of. eauto. }
    rewrite lookup_delete_ne by done. exact (Hrc _ _ Hk).
Qed.

(** Spec invariants 2 and 3 in the making: every operation of the store
    keeps it well-formed. *)
Lemma wf_store_run_op (s : state_store.StateStore) (op : StoreOp) :
  wf_store s → wf_store (run_op s op).
Proof.
  intros [Hk Hr].
  assert (∀ s', catalog_same s s' → wf_keys s' → wf_store s') as Hkv.
  { intros s' Hsame Hk'. split; [done|]. by eapply wf_refs_catalog_same. }
  destruct op as [idx node|idx node svc|idx hc|idx req|idx node|idx node sid
                 |idx node cid|idx e|idx key|idx cidx key|idx pfx|idx e|idx e
                 |idx e|idx x|idx id|idx a|idx id|upto|e|x|a|x]; simpl.
  - split; [by apply wf_keys_ensureNodeTxn | by apply wf_refs_ensureNodeTxn].
  - unfold state_store.EnsureService.
    destruct (state_store.ensureServiceTxn idx node svc s) as [e|s'] eqn:E; [done|].
    split; [by eapply wf_keys_ensureServiceTxn | by eapply wf_refs_ensureServiceTxn].
  - unfold state_store.EnsureCheck.
    destruct (state_store.ensureCheckTxn idx hc s) as [e|s'] eqn:E; [done|].
    split; [by eapply wf_keys_ensureCheckTxn | by eapply wf_refs_ensureCheckTxn].
  - unfold state_store.EnsureRegistration.
    destruct (state_store.ensureRegistrationTxn idx req s) as [e|s'] eqn:E; [done|].
    split; [by eapply wf_keys_ensureRegistrationTxn
           | by eapply wf_refs_ensureRegistrationTxn].
  - split; [by apply wf_keys_deleteNodeTxn | by apply wf_refs_deleteNodeTxn].
  - split; [by apply wf_keys_deleteServiceTxn | by apply wf_refs_deleteServiceTxn].
  - split; [by apply wf_keys_deleteCheckTxn | by apply wf_refs_deleteCheckTxn].
  - apply Hkv; [done | by apply wf_keys_kvsSetTxn].
  - unfold state_store.KVSDelete. destruct (state_store.kvs s !! key); [|done].
    apply Hkv; [done|]. apply wf_keys_indexUpdate. by apply wf_keys_kvsDeleteTxn.
  - unfold state_store.KVSDeleteCAS. destruct (state_store.kvs s !! key); [|done].
    case_decide; [|done].
    apply Hkv; [done|]. apply wf_keys_indexUpdate. by apply wf_keys_kvsDeleteTxn.
  - unfold state_store.KVSDeleteTree.
    destruct (state_store.keys_under pfx s) as [|k ks]; [done|].
    cbn [snd].
    destruct (foldl_kvsDeleteTxn_frame idx (k :: ks) s) as (Hn & Hs & Hc & _).
    apply Hkv; [done|]. apply wf_keys_indexUpdate.
    apply (foldl_preserves wf_keys); [|done].
    intros a0 k0 Ha. by apply wf_keys_kvsDeleteTxn.
  - unfold state_store.KVSSetCAS.
    destruct (state_store.kvs s !! de_Key e); case_decide; try done;
      (apply Hkv; [done | by apply wf_keys_kvsSetTxn]).
  - unfold state_store.KVSLock.
    case_decide; [done|]. destruct (state_store.sessions s !! de_Session e); [|done].
    destruct (state_store.kvs s !! de_Key e); repeat case_decide; try done;
      (apply Hkv; [done | by apply wf_keys_kvsSetTxn]).
  - unfold state_store.KVSUnlock.
    case_decide; [done|].
    destruct (state_store.kvs s !! de_Key e); repeat case_decide; try done;
      (apply Hkv; [done | by apply wf_keys_kvsSetTxn]).
  - unfold state_store.SessionCreate.
    case_decide; [done|].
    match goal with |- context [match ?b with Some _ => _ | None => _ end] =>
      destruct b as [beh|]; [|done] end.
    destruct (state_store.nodes s !! sess_Node x); [|done].
    destruct (state_store.session_check_error _ _ _); [done|].
    apply Hkv; [done|]. cbn [snd]. wf_keys_solve.
  - destruct (deleteSessionTxn_frame idx id s) as (Hn & Hs & Hc & _).
    apply Hkv; [done|]. by apply wf_keys_deleteSessionTxn.
  - unfold state_store.ACLSet. case_decide; [done|].
    apply Hkv; [done|]. cbn [snd]. wf_keys_solve.
  - unfold state_store.ACLDelete. destruct (state_store.acls s !! id); [|done].
    apply Hkv; [done|]. cbn [snd]. wf_keys_solve.
  - apply Hkv; [done|]. cbn [snd].
    destruct Hk as (?&?&?&?&Ht&?&?). unfold wf_keys. simpl.
    repeat apply conj; try done.
    intros k x Hx. apply map_lookup_filter_Some in Hx as [Hx _]. exact (Ht _ _ Hx).
  - apply Hkv.
    + unfold catalog_same, state_store.KVSRestore, state_store.indexUpdateMax.
      cbn [snd]. by case_decide.
    + apply wf_keys_indexUpdateMax. wf_keys_solve.
  - apply Hkv.
    + unfold catalog_same, state_store.SessionRestore, state_store.indexUpdateMax.
      cbn [snd]. by case_decide.
    + apply wf_keys_indexUpdateMax. wf_keys_solve.
  - apply Hkv.
    + unfold catalog_same, state_store.ACLRestore, state_store.indexUpdateMax.
      cbn [snd]. by case_decide.
    + apply wf_keys_indexUpdateMax. wf_keys_solve.
  - apply Hkv.
    + unfold catalog_same, state_store.TombstoneRestore, state_store.indexUpdateMax.
      cbn [snd]. by case_decide.
    + apply wf_keys_indexUpdateMax. wf_keys_solve.
Qed.

Lemma wf_store_empty : wf_store state_store.empty.
Proof.
  unfold wf_store, wf_keys, wf_refs. simpl.
  repeat apply conj; apply map_Forall_empty.
Qed.

(** Whatever the operations of the store build from the empty store is
    well-formed. *)
Lemma reachable_wf_store (s : state_store.StateStore) : reachable s → wf_store s.
Proof.
  intros [ops ->].
  apply (foldl_preserves wf_store); [|apply wf_store_empty].
  intros a op Ha. by apply wf_store_run_op.
Qed.

(** ** The handlers behind [Apply] *)

(** X1: the flag test and the mask at the head of [Apply] split a type byte
    into a message type below 128 and the ignore-if-unknown flag, and lose
    nothing: the byte is the type plus 128 when the flag is read, the type
    itself when it is not, and the flag is read exactly on the bytes from
    128 up. *)
Theorem split_type_decomposition (b : Z) :
  0 ≤ b < 256 →
  0 ≤ (split_type b).1 < IgnoreUnknownTypeFlag ∧
  b = (split_type b).1 + (if (split_type b).2 then IgnoreUnknownTypeFlag else 0) ∧
  ((split_type b).2 = true ↔ IgnoreUnknownTypeFlag ≤ b).
Proof.
  intros Hb. rewrite split_type_byte by done. unfold IgnoreUnknownTypeFlag.
  case_bool_decide; simpl; (split; [lia|]); (split; [lia|]); split; (done || lia).
Qed.

Lemma split_type_decomposition_witness :
  0 ≤ 130 < 256 ∧
  split_type 130 = (2, true) ∧
  0 ≤ (split_type 130).1 < IgnoreUnknownTypeFlag ∧
  130 = (split_type 130).1 + (if (split_type 130).2 then IgnoreUnknownTypeFlag else 0).
Proof.
  split; [lia|]. split; [reflexivity|].
  pose proof (split_type_decomposition 130 ltac:(lia)) as (H1 & H2 & _).
  split; [exact H1 | exact H2].
Defined.

Section handler_properties.
Context {S Snap : Type}.
Variable sx : StructsPkg.
Variable st : StateStoreAPI S Snap.
Hypothesis Hok : message_types_ok sx.

Lemma types_neq i j t u :
  recognized_types sx !! i = Some t → recognized_types sx !! j = Some u →
  i ≠ j → t ≠ u.
Proof. intros Hi Hj Hij. apply Z.eqb_neq. by eapply (types_distinct sx Hok i j). Qed.

(** An unflagged byte of a recognized type reaches the handler of the type. *)
Lemma Apply_plain (c : consulFSM S) (index : Z) (buf : list Z) i t handler :
  recognized_types sx !! i = Some t →
  handlers sx st !! i = Some handler →
  Apply sx st c {| log_Index := index; log_Data := t :: buf |} = handler c buf index.
Proof.
  intros Hi Hh. eapply Apply_known; [done| |done].
  rewrite split_type_plain; [done|].
  apply (types_low sx Hok). by eapply list_elem_of_lookup_2.
Qed.


Ltac split_calls :=
  repeat match goal with
         | |- context [match ?e with _ => _ end] => destruct e
         end.

Lemma decodeRegister_returns c buf index req :
  DecodeRegisterRequest sx buf = Some req →
  ∃ r, decodeRegister sx st c buf index = Returns r.
Proof.
  intros Hd. unfold decodeRegister. rewrite Hd. eauto.
Qed.

Lemma applyDeregister_returns c buf index req :
  DecodeDeregisterRequest sx buf = Some req →
  ∃ r, applyDeregister sx st c buf index = Returns r.
Proof.
  intros Hd. unfold applyDeregister. rewrite Hd.
  repeat case_decide; split_calls; eauto.
Qed.

Lemma applyKVSOperation_returns c buf index req :
  DecodeKVSRequest sx buf = Some req →
  ∃ r, applyKVSOperation sx st c buf index = Returns r.
Proof.
  intros Hd. unfold applyKVSOperation. rewrite Hd. cbv zeta.
  repeat case_decide; split_calls; eauto.
Qed.

Lemma applySessionOperation_returns c buf index req :
  DecodeSessionRequest sx buf = Some req →
  ∃ r, applySessionOperation sx st c buf index = Returns r.
Proof.
  intros Hd. unfold applySessionOperation. rewrite Hd. cbv zeta.
  repeat case_decide; split_calls; eauto.
Qed.

Lemma applyACLOperation_returns c buf index req :
  DecodeACLRequest sx buf = Some req →
  ∃ r, applyACLOperation sx st c buf index = Returns r.
Proof.
  intros Hd. unfold applyACLOperation. rewrite Hd. cbv zeta.
  repeat case_decide; split_calls; eauto.
Qed.

Lemma applyTombstoneOperation_returns c buf index req :
  DecodeTombstoneRequest sx buf = Some req →
  ∃ r, applyTombstoneOperation sx st c buf index = Returns r.
Proof.
  intros Hd. unfold applyTombstoneOperation. rewrite Hd. cbv zeta.
  repeat case_decide; split_calls; eauto.
Qed.

(** X2: when [Apply] panics.  On an empty buffer it does (the read of
    [buf[0]]).  On a buffer with a type byte it panics in two cases only:
    the masked type is one of the six recognized ones and the payload does
    not decode as a request of that type, or the masked type is none of
    them and the byte does not carry the ignore-if-unknown flag.  An error
    of the state store or an operation name the handler does not know never
    makes it panic. *)
Theorem Apply_panics_iff (c : consulFSM S) (index b : Z) (buf : list Z) :
  (∃ msg, Apply sx st c {| log_Index := index; log_Data := [] |} = Panics msg) ∧
  ((∃ msg, Apply sx st c {| log_Index := index; log_Data := b :: buf |} = Panics msg)
   ↔ ((split_type b).1 = RegisterRequestType sx ∧ DecodeRegisterRequest sx buf = None)
     ∨ ((split_type b).1 = DeregisterRequestType sx
        ∧ DecodeDeregisterRequest sx buf = None)
     ∨ ((split_type b).1 = KVSRequestType sx ∧ DecodeKVSRequest sx buf = None)
     ∨ ((split_type b).1 = SessionRequestType sx ∧ DecodeSessionRequest sx buf = None)
     ∨ ((split_type b).1 = ACLRequestType sx ∧ DecodeACLRequest sx buf = None)
     ∨ ((split_type b).1 = TombstoneRequestType sx
        ∧ DecodeTombstoneRequest sx buf = None)
     ∨ (((split_type b).1 ∉ recognized_types sx) ∧ (split_type b).2 = false)).
Proof.
  split; [by eexists|].
  pose proof (types_neq 0%nat 1%nat _ _ eq_refl eq_refl ltac:(done)).
  pose proof (types_neq 0%nat 2%nat _ _ eq_refl eq_refl ltac:(done)).
  pose proof (types_neq 0%nat 3%nat _ _ eq_refl eq_refl ltac:(done)).
  pose proof (types_neq 0%nat 4%nat _ _ eq_refl eq_refl ltac:(done)).
  pose proof (types_neq 0%nat 5%nat _ _ eq_refl eq_refl ltac:(done)).
  pose proof (types_neq 1%nat 2%nat _ _ eq_refl eq_refl ltac:(done)).
  pose proof (types_neq 1%nat 3%nat _ _ eq_refl eq_refl ltac:(done)).
  pose proof (types_neq 1%nat 4%nat _ _ eq_refl eq_refl ltac:(done)).
  pose proof (types_neq 1%nat 5%nat _ _ eq_refl eq_refl ltac:(done)).
  pose proof (types_neq 2%nat 3%nat _ _ eq_refl eq_refl ltac:(done)).
  pose proof (types_neq 2%nat 4%nat _ _ eq_refl eq_refl ltac:(done)).
  pose proof (types_neq 2%nat 5%nat _ _ eq_refl eq_refl ltac:(done)).
  pose proof (types_neq 3%nat 4%nat _ _ eq_refl eq_refl ltac:(done)).
  pose proof (types_neq 3%nat 5%nat _ _ eq_refl eq_refl ltac:(done)).
  pose proof (types_neq 4%nat 5%nat _ _ eq_refl eq_refl ltac:(done)).
  simpl in *.
  rewrite Apply_unfold. cbv zeta.
  set (t := (split_type b).1). set (ign := (split_type b).2).
  assert (∀ u, u ∈ recognized_types sx → t = u → t ∈ recognized_types sx) as Hin
    by (by intros u ? ->).
  unfold recognized_types in *.
  destruct (Z.eqb_spec t (RegisterRequestType sx)) as [E|N0].
  { destruct (DecodeRegisterRequest sx buf) as [req|] eqn:Hd.
    - destruct (decodeRegister_returns c buf index req Hd) as [r ->].
      split; [by intros [? ?]|].
      intros [[_ ?]|[[? _]|[[? _]|[[? _]|[[? _]|[[? _]|[Hn _]]]]]]];
        try congruence.
      exfalso. apply Hn. eapply Hin; [|exact E]. set_solver.
    - split; [tauto|]. intros _. unfold decodeRegister. rewrite Hd. eauto. }
  destruct (Z.eqb_spec t (DeregisterRequestType sx)) as [E|N1].
  { destruct (DecodeDeregisterRequest sx buf) as [req|] eqn:Hd.
    - destruct (applyDeregister_returns c buf index req Hd) as [r ->].
      split; [by intros [? ?]|].
      intros [[? _]|[[_ ?]|[[? _]|[[? _]|[[? _]|[[? _]|[Hn _]]]]]]];
        try congruence.
      exfalso. apply Hn. eapply Hin; [|exact E]. set_solver.
    - split; [tauto|]. intros _. unfold applyDeregister. rewrite Hd. eauto. }
  destruct (Z.eqb_spec t (KVSRequestType sx)) as [E|N2].
  { destruct (DecodeKVSRequest sx buf) as [req|] eqn:Hd.
    - destruct (applyKVSOperation_returns c buf index req Hd) as [r ->].
      split; [by intros [? ?]|].
      intros [[? _]|[[? _]|[[_ ?]|[[? _]|[[? _]|[[? _]|[Hn _]]]]]]];
        try congruence.
      exfalso. apply Hn. eapply Hin; [|exact E]. set_solver.
    - split; [tauto|]. intros _. unfold applyKVSOperation. rewrite Hd. eauto. }
  destruct (Z.eqb_spec t (SessionRequestType sx)) as [E|N3].
  { destruct (DecodeSessionRequest sx buf) as [req|] eqn:Hd.
    - destruct (applySessionOperation_returns c buf index req Hd) as [r ->].
      split; [by intros [? ?]|].
      intros [[? _]|[[? _]|[[? _]|[[_ ?]|[[? _]|[[? _]|[Hn _]]]]]]];
        try congruence.
      exfalso. apply Hn. eapply Hin; [|exact E]. set_solver.
    - split; [tauto|]. intros _. unfold applySessionOperation. rewrite Hd. eauto. }
  destruct (Z.eqb_spec t (ACLRequestType sx)) as [E|N4].
  { destruct (DecodeACLRequest sx buf) as [req|] eqn:Hd.
    - destruct (applyACLOperation_returns c buf index req Hd) as [r ->].
      split; [by intros [? ?]|].
      intros [[? _]|[[? _]|[[? _]|[[? _]|[[_ ?]|[[? _]|[Hn _]]]]]]];
        try congruence.
      exfalso. apply Hn. eapply Hin; [|exact E]. set_solver.
    - split; [tauto|]. intros _. unfold applyACLOperation. rewrite Hd. eauto. }
  destruct (Z.eqb_spec t (TombstoneRequestType sx)) as [E|N5].
  { destruct (DecodeTombstoneRequest sx buf) as [req|] eqn:Hd.
    - destruct (applyTombstoneOperation_returns c buf index req Hd) as [r ->].
      split; [by intros [? ?]|].
      intros [[? _]|[[? _]|[[? _]|[[? _]|[[? _]|[[_ ?]|[Hn _]]]]]]];
        try congruence.
      exfalso. apply Hn. eapply Hin; [|exact E]. set_solver.
    - split; [tauto|]. intros _. unfold applyTombstoneOperation. rewrite Hd. eauto. }
  assert (t ∉ [RegisterRequestType sx; DeregisterRequestType sx; KVSRequestType sx;
               SessionRequestType sx; ACLRequestType sx; TombstoneRequestType sx])
    as Hnot.
  { rewrite !not_elem_of_cons. repeat split; try done. apply not_elem_of_nil. }
  destruct ign.
  - split; [by intros [? ?]|].
    intros [[? _]|[[? _]|[[? _]|[[? _]|[[? _]|[[? _]|[_ ?]]]]]]]; done.
  - split; [|eauto]. intros _. do 6 right. done.
Qed.

Ltac pick_case :=
  repeat first [ rewrite decide_True by done
               | rewrite decide_False by done
               | rewrite decide_True by (by left)
               | rewrite decide_True by (by right) ].

(** X3: a Register command that decodes is applied with one call of
    [EnsureRegistration] at the index of the log entry.  The FSM then holds
    the store that call left; the response is [nil] on success, and on
    failure the error of the store, with one line written to the log. *)
Theorem Apply_Register (c : consulFSM S) (index : Z) (buf : list Z)
    (req : RegisterRequest) :
  DecodeRegisterRequest sx buf = Some req →
  let r := EnsureRegistration st index req (fsm_state c) in
  Apply sx st c {| log_Index := index; log_Data := RegisterRequestType sx :: buf |}
  = Returns
      match r.1 with
      | None => (RespNil, with_state c r.2)
      | Some e =>
          (RespErr e,
           Printf (with_state c r.2)
             ("[INFO] consul.fsm: EnsureRegistration failed: " +:+ e))
      end.
Proof.
  intros Hd r. subst r.
  rewrite (Apply_plain c index buf 0 _ (decodeRegister sx st) eq_refl eq_refl).
  unfold decodeRegister, applyRegister. rewrite Hd.
  by destruct (EnsureRegistration st index req (fsm_state c)) as [[e|] s'].
Qed.

(** X4: the seven operations of a K/V command, each one call into the
    store at the index of the log entry: set and the three checked writes
    (cas, lock, unlock) pass the entry, delete and delete-tree pass the
    entry's key (as key, as prefix), delete-cas passes the entry's
    [ModifyIndex] and key.  Set, delete and delete-tree respond with the
    store's error or [nil]; the checked operations respond with the store's
    error when there is one and with the boolean otherwise.  Nothing is
    logged. *)
Theorem Apply_KVS_dispatch (c : consulFSM S) (index : Z) (buf : list Z)
    (req : KVSRequest) :
  DecodeKVSRequest sx buf = Some req →
  let d := kr_DirEnt req in
  let s := fsm_state c in
  let applied := Apply sx st c {| log_Index := index;
                                  log_Data := KVSRequestType sx :: buf |} in
  let plain (r : option error * S) :=
    applied = Returns (resp_of_err r.1, with_state c r.2) in
  let checked (r : (bool * option error) * S) :=
    applied = Returns (match r.1.2 with
                       | Some err => RespErr err
                       | None => RespBool r.1.1
                       end, with_state c r.2) in
  (kr_Op req = KVSSet_op → plain (KVSSet st index d s)) ∧
  (kr_Op req = KVSDelete_op → plain (KVSDelete st index (de_Key d) s)) ∧
  (kr_Op req = KVSDeleteCAS_op →
     checked (KVSDeleteCAS st index (de_ModifyIndex d) (de_Key d) s)) ∧
  (kr_Op req = KVSDeleteTree_op → plain (KVSDeleteTree st index (de_Key d) s)) ∧
  (kr_Op req = KVSCAS_op → checked (KVSSetCAS st index d s)) ∧
  (kr_Op req = KVSLock_op → checked (KVSLock st index d s)) ∧
  (kr_Op req = KVSUnlock_op → checked (KVSUnlock st index d s)).
Proof.
  intros Hd d s applied plain checked. subst d s applied plain checked. cbv beta.
  rewrite (Apply_plain c index buf 2 _ (applyKVSOperation sx st) eq_refl eq_refl).
  unfold applyKVSOperation. rewrite Hd. cbv zeta.
  repeat split; intros ->; pick_case.
  - by destruct (KVSSet _ _ _ _) as [? ?].
  - by destruct (KVSDelete _ _ _ _) as [? ?].
  - by destruct (KVSDeleteCAS _ _ _ _ _) as [[? ?] ?].
  - by destruct (KVSDeleteTree _ _ _ _) as [? ?].
  - by destruct (KVSSetCAS _ _ _ _) as [[? ?] ?].
  - by destruct (KVSLock _ _ _ _) as [[? ?] ?].
  - by destruct (KVSUnlock _ _ _ _) as [[? ?] ?].
Qed.

(** X5: a K/V, session, ACL or tombstone command that decodes but names an
    operation its handler has no case for is refused: the response is the
    error "Invalid ... operation '<op>'", the store is not called and stays
    as it was, and one warning goes to the log. *)
Theorem Apply_invalid_operation (c : consulFSM S) (index : Z) (buf : list Z) :
  let refused (t : Z) (msg : string) :=
    ∃ c', Apply sx st c {| log_Index := index; log_Data := t :: buf |}
            = Returns (RespErr msg, c')
          ∧ fsm_state c' = fsm_state c
          ∧ fsm_logged c' = (fsm_logged c ++ ["[WARN] consul.fsm: " +:+ msg])%list in
  (∀ req, DecodeKVSRequest sx buf = Some req → (kr_Op req ∉ kvs_ops) →
     refused (KVSRequestType sx) ("Invalid KVS operation '" +:+ kr_Op req +:+ "'")) ∧
  (∀ req, DecodeSessionRequest sx buf = Some req → (sr_Op req ∉ session_ops) →
     refused (SessionRequestType sx)
       ("Invalid Session operation '" +:+ sr_Op req +:+ "'")) ∧
  (∀ req, DecodeACLRequest sx buf = Some req → (ar_Op req ∉ acl_ops) →
     refused (ACLRequestType sx) ("Invalid ACL operation '" +:+ ar_Op req +:+ "'")) ∧
  (∀ req, DecodeTombstoneRequest sx buf = Some req → (tr_Op req ∉ tombstone_ops) →
     refused (TombstoneRequestType sx)
       ("Invalid Tombstone operation '" +:+ tr_Op req +:+ "'")).
Proof.
  intros refused. subst refused. cbv beta.
  repeat split; intros req Hd Hop.
  - rewrite (Apply_plain c index buf 2 _ (applyKVSOperation sx st) eq_refl eq_refl).
    unfold applyKVSOperation. rewrite Hd. cbv zeta.
    unfold kvs_ops in Hop. rewrite !not_elem_of_cons in Hop.
    destruct Hop as (?&?&?&?&?&?&?&_). pick_case.
    eexists. split; [reflexivity|]. split; reflexivity.
  - rewrite (Apply_plain c index buf 3 _ (applySessionOperation sx st) eq_refl eq_refl).
    unfold applySessionOperation. rewrite Hd. cbv zeta.
    unfold session_ops in Hop. rewrite !not_elem_of_cons in Hop.
    destruct Hop as (?&?&_). pick_case.
    eexists. split; [reflexivity|]. split; reflexivity.
  - rewrite (Apply_plain c index buf 4 _ (applyACLOperation sx st) eq_refl eq_refl).
    unfold applyACLOperation. rewrite Hd. cbv zeta.
    unfold acl_ops in Hop. rewrite !not_elem_of_cons in Hop.
    destruct Hop as (?&?&?&_).
    rewrite decide_False by (intros [?|?]; done). pick_case.
    eexists. split; [reflexivity|]. split; reflexivity.
  - rewrite (Apply_plain c index buf 5 _ (applyTombstoneOperation sx st) eq_refl eq_refl).
    unfold applyTombstoneOperation. rewrite Hd. cbv zeta.
    unfold tombstone_ops in Hop. rewrite !not_elem_of_cons in Hop.
    destruct Hop as (?&_). pick_case.
    eexists. split; [reflexivity|]. split; reflexivity.
Qed.

(** X6: a session command.  Create calls [SessionCreate] at the index of
    the log entry and responds with the error of the store or, on success,
    with the ID the request carries (the store assigns none: it refuses a
    session without ID); destroy calls [SessionDestroy] on that ID and
    responds with the store's error or [nil]. *)
Theorem Apply_Session_dispatch (c : consulFSM S) (index : Z) (buf : list Z)
    (req : SessionRequest) :
  DecodeSessionRequest sx buf = Some req →
  let x := sr_Session req in
  let applied := Apply sx st c {| log_Index := index;
                                  log_Data := SessionRequestType sx :: buf |} in
  (sr_Op req = SessionCreate_op →
     let r := SessionCreate st index x (fsm_state c) in
     applied = Returns (match r.1 with
                        | Some e => RespErr e
                        | None => RespString (sess_ID x)
                        end, with_state c r.2)) ∧
  (sr_Op req = SessionDestroy_op →
     let r := SessionDestroy st index (sess_ID x) (fsm_state c) in
     applied = Returns (resp_of_err r.1, with_state c r.2)).
Proof.
  intros Hd x applied. subst x applied. cbv beta.
  rewrite (Apply_plain c index buf 3 _ (applySessionOperation sx st) eq_refl eq_refl).
  unfold applySessionOperation. rewrite Hd. cbv zeta.
  split; intros ->; pick_case.
  - by destruct (SessionCreate _ _ _ _) as [[?|] ?].
  - by destruct (SessionDestroy _ _ _ _) as [? ?].
Qed.

(** X7: an ACL command.  The operations force-set and set are one case:
    both call [ACLSet] at the index of the log entry and respond with the
    error of the store or, on success, with the ID of the request's ACL;
    delete calls [ACLDelete] on that ID and responds with the store's error
    or [nil]. *)
Theorem Apply_ACL_dispatch (c : consulFSM S) (index : Z) (buf : list Z)
    (req : ACLRequest) :
  DecodeACLRequest sx buf = Some req →
  let a := ar_ACL req in
  let applied := Apply sx st c {| log_Index := index;
                                  log_Data := ACLRequestType sx :: buf |} in
  (ar_Op req = ACLForceSet_op ∨ ar_Op req = ACLSet_op →
     let r := ACLSet st index a (fsm_state c) in
     applied = Returns (match r.1 with
                        | Some e => RespErr e
                        | None => RespString (acl_ID a)
                        end, with_state c r.2)) ∧
  (ar_Op req = ACLDelete_op →
     let r := ACLDelete st index (acl_ID a) (fsm_state c) in
     applied = Returns (resp_of_err r.1, with_state c r.2)).
Proof.
  intros Hd a applied. subst a applied. cbv beta.
  rewrite (Apply_plain c index buf 4 _ (applyACLOperation sx st) eq_refl eq_refl).
  unfold applyACLOperation. rewrite Hd. cbv zeta.
  split.
  - intros Hop. rewrite decide_True by done.
    by destruct (ACLSet _ _ _ _) as [[?|] ?].
  - intros ->. rewrite decide_False by (intros [?|?]; done). pick_case.
    by destruct (ACLDelete _ _ _ _) as [? ?].
Qed.

(** X8: a tombstone command does not use the index of its log entry: the
    same command at two indexes gives the same outcome.  A reap calls
    [ReapTombstones] with the [ReapIndex] of the request and responds with
    the store's error or [nil]. *)
Theorem Apply_Tombstone_reap (c : consulFSM S) (index index' : Z) (buf : list Z) :
  Apply sx st c {| log_Index := index; log_Data := TombstoneRequestType sx :: buf |}
  = Apply sx st c {| log_Index := index'; log_Data := TombstoneRequestType sx :: buf |}
  ∧ ∀ req, DecodeTombstoneRequest sx buf = Some req →
           tr_Op req = TombstoneReap_op →
           let r := ReapTombstones st (tr_ReapIndex req) (fsm_state c) in
           Apply sx st c {| log_Index := index;
                            log_Data := TombstoneRequestType sx :: buf |}
           = Returns (resp_of_err r.1, with_state c r.2).
Proof.
  rewrite !(Apply_plain c _ buf 5 _ (applyTombstoneOperation sx st) eq_refl eq_refl).
  split; [done|].
  intros req Hd Hop. unfold applyTombstoneOperation. rewrite Hd. cbv zeta.
  rewrite Hop. pick_case.
  by destruct (ReapTombstones _ _ _) as [? ?].
Qed.

End handler_properties.

(** ** More on [Restore] *)

Section Restore_more.
Context {S Snap : Type}.
Variable sx : StructsPkg.
Variable st : StateStoreAPI S Snap.

(** The loop of [Restore] reads the store of the FSM and nothing else of
    it. *)
Lemma restore_loop_state (L : Z) (old : list Frame) :
  ∀ c1 c2, fsm_state c1 = fsm_state c2 →
    (restore_loop sx st L c1 old).2 = (restore_loop sx st L c2 old).2 ∧
    fsm_state (restore_loop sx st L c1 old).1
    = fsm_state (restore_loop sx st L c2 old).1.
Proof.
  remember (length old) as n eqn:Hn.
  revert old Hn. induction n as [n IH] using lt_wf_ind.
  intros old Hn c1 c2 Hc.
  destruct old as [|f old]; [done|].
  destruct f; try done. simpl.
  destruct (b =? RegisterRequestType sx).
  { destruct old as [|[] old]; try done.
    eapply (IH (length old)); [simpl in Hn; lia | done |].
    unfold applyRegister. rewrite Hc.
    by destruct (EnsureRegistration st L r (fsm_state c2)) as [[?|] ?]. }
  destruct (b =? KVSRequestType sx).
  { destruct old as [|[] old]; try done. rewrite Hc.
    destruct (KVSRestore st d (fsm_state c2)) as [[e|] s']; [done|].
    eapply (IH (length old)); [simpl in Hn; lia | done | done]. }
  destruct (b =? SessionRequestType sx).
  { destruct old as [|[] old]; try done. rewrite Hc.
    destruct (SessionRestore st s (fsm_state c2)) as [[e|] s']; [done|].
    eapply (IH (length old)); [simpl in Hn; lia | done | done]. }
  destruct (b =? ACLRequestType sx).
  { destruct old as [|[] old]; try done. rewrite Hc.
    destruct (ACLRestore st a (fsm_state c2)) as [[e|] s']; [done|].
    eapply (IH (length old)); [simpl in Hn; lia | done | done]. }
  destruct (b =? TombstoneRequestType sx).
  { destruct old as [|[] old]; try done. rewrite Hc.
    destruct (TombstoneRestore st _ (fsm_state c2)) as [[e|] s']; [done|].
    eapply (IH (length old)); [simpl in Hn; lia | done | done]. }
  done.
Qed.

(** X9: [Restore] builds on a new store, so what it returns and the store
    it leaves in the FSM do not depend on the store the FSM held before. *)
Theorem Restore_starts_afresh (c1 c2 : consulFSM S) (old : list Frame) :
  (Restore sx st c1 old).2 = (Restore sx st c2 old).2 ∧
  (∀ s0, NewStateStore st = inr s0 →
     fsm_state (Restore sx st c1 old).1 = fsm_state (Restore sx st c2 old).1).
Proof.
  unfold Restore.
  destruct (NewStateStore st) as [err|s0].
  - split; [done|]. by intros ? ?.
  - destruct old as [|[] old]; try done.
    split; [|intros ? _]; by apply restore_loop_state.
Qed.

(** X10: [Restore] drops the result of [applyRegister].  On a snapshot
    made of Register records it never fails, whatever the store answers to
    each registration: every record is registered at the header's
    [LastIndex] on the store the previous one left, refused or not. *)
Theorem Restore_skips_failed_registration
    (c : consulFSM S) (s0 : S) (h : snapshotHeader) (reqs : list RegisterRequest) :
  NewStateStore st = inr s0 →
  ∃ c', Restore sx st c
          (FHeader h :: (reqs ≫= λ req, [FByte (RegisterRequestType sx);
                                         FRegisterRequest req]))
        = (c', None)
      ∧ fsm_state c'
        = foldl (λ s req, (EnsureRegistration st (hdr_LastIndex h) req s).2) s0 reqs.
Proof.
  intros Hnew. unfold Restore. rewrite Hnew.
  assert (∀ c0, ∃ c',
    restore_loop sx st (hdr_LastIndex h) c0
      (reqs ≫= λ req, [FByte (RegisterRequestType sx); FRegisterRequest req])
    = (c', None)
    ∧ fsm_state c'
      = foldl (λ s req, (EnsureRegistration st (hdr_LastIndex h) req s).2)
              (fsm_state c0) reqs) as Hloop.
  { induction reqs as [|req reqs IH]; intros c0; [by eexists|].
    rewrite bind_cons. cbn [app restore_loop]. rewrite Z.eqb_refl.
    destruct (IH (applyRegister st c0 req (hdr_LastIndex h)).2) as (c' & -> & Hc').
    exists c'. split; [done|]. rewrite Hc'. cbn [foldl]. f_equal.
    unfold applyRegister.
    by destruct (EnsureRegistration st (hdr_LastIndex h) req (fsm_state c0))
      as [[?|] ?]. }
  exact (Hloop (with_state c s0)).
Qed.

Hypothesis Hok : message_types_ok sx.

(** On the frames of whole records the loop of [Restore] is
    [restore_records], and what follows a record the store refuses is not
    read. *)
Lemma restore_loop_restore_records (L : Z) (rs : list SnapRecord) (rest : list Frame) :
  ∀ c,
    let r := restore_records st L (fsm_state c) rs in
    match r.2 with
    | Some e =>
        ∃ c', restore_loop sx st L c ((rs ≫= record_frames sx) ++ rest) = (c', Some e)
              ∧ fsm_state c' = r.1
    | None =>
        ∃ c', restore_loop sx st L c (rs ≫= record_frames sx) = (c', None)
              ∧ fsm_state c' = r.1
              ∧ restore_loop sx st L c ((rs ≫= record_frames sx) ++ rest)
                = restore_loop sx st L c' rest
    end.
Proof.
  pose proof (λ i j t u, types_distinct sx Hok i j t u) as Hd.
  induction rs as [|r rs IH]; intros c; cbv zeta.
  { simpl. eauto. }
  rewrite bind_cons, <- app_assoc.
  destruct r; cbn [record_frames app restore_loop restore_records].
  - rewrite Z.eqb_refl.
    specialize (IH (applyRegister st c req L).2). cbv zeta in IH.
    assert (fsm_state (applyRegister st c req L).2
            = (EnsureRegistration st L req (fsm_state c)).2) as Hs.
    { unfold applyRegister.
      by destruct (EnsureRegistration st L req (fsm_state c)) as [[?|] ?]. }
    rewrite Hs in IH. exact IH.
  - rewrite (Hd 2%nat 0%nat _ _ eq_refl eq_refl) by done.
    rewrite Z.eqb_refl.
    destruct (KVSRestore st e (fsm_state c)) as [[x|] s'] eqn:Hcall; cbn [fst snd].
    + eauto.
    + exact (IH (with_state c s')).
  - rewrite (Hd 3%nat 0%nat _ _ eq_refl eq_refl) by done.
    rewrite (Hd 3%nat 2%nat _ _ eq_refl eq_refl) by done.
    rewrite Z.eqb_refl.
    destruct (SessionRestore st x (fsm_state c)) as [[y|] s'] eqn:Hcall; cbn [fst snd].
    + eauto.
    + exact (IH (with_state c s')).
  - rewrite (Hd 4%nat 0%nat _ _ eq_refl eq_refl) by done.
    rewrite (Hd 4%nat 2%nat _ _ eq_refl eq_refl) by done.
    rewrite (Hd 4%nat 3%nat _ _ eq_refl eq_refl) by done.
    rewrite Z.eqb_refl.
    destruct (ACLRestore st a (fsm_state c)) as [[y|] s'] eqn:Hcall; cbn [fst snd].
    + eauto.
    + exact (IH (with_state c s')).
  - rewrite (Hd 5%nat 0%nat _ _ eq_refl eq_refl) by done.
    rewrite (Hd 5%nat 2%nat _ _ eq_refl eq_refl) by done.
    rewrite (Hd 5%nat 3%nat _ _ eq_refl eq_refl) by done.
    rewrite (Hd 5%nat 4%nat _ _ eq_refl eq_refl) by done.
    rewrite Z.eqb_refl.
    replace {| ts_Key := de_Key (fake_entry x); ts_Index := de_ModifyIndex (fake_entry x) |}
      with x by (by destruct x).
    destruct (TombstoneRestore st x (fsm_state c)) as [[y|] s'] eqn:Hcall; cbn [fst snd].
    + eauto.
    + exact (IH (with_state c s')).
Qed.

(** X11: [Restore] on a header followed by whole records goes through
    the records in order, as [restore_records] does: a Register record is
    registered at the header's [LastIndex], a K/V, session or ACL record is
    handed to its restore call, and a tombstone record, written as a K/V
    entry, comes back as the tombstone of that key and index.  When no
    restore call fails [Restore] succeeds; when one fails [Restore] returns
    its error, keeps the store that call left, and reads nothing of what
    follows. *)
Theorem Restore_record_by_record
    (c : consulFSM S) (s0 : S) (h : snapshotHeader) (rs : list SnapRecord)
    (rest : list Frame) :
  NewStateStore st = inr s0 →
  let r := restore_records st (hdr_LastIndex h) s0 rs in
  (r.2 = None →
     ∃ c', Restore sx st c (FHeader h :: (rs ≫= record_frames sx)) = (c', None)
           ∧ fsm_state c' = r.1) ∧
  (∀ e, r.2 = Some e →
     ∃ c', Restore sx st c (FHeader h :: (rs ≫= record_frames sx) ++ rest)
           = (c', Some e)
           ∧ fsm_state c' = r.1).
Proof.
  intros Hnew r. unfold Restore. rewrite Hnew.
  pose proof (restore_loop_restore_records (hdr_LastIndex h) rs rest
                (with_state c s0)) as Hloop.
  cbv zeta in Hloop. cbn [with_state fsm_state] in Hloop. fold r in Hloop.
  split.
  - intros Hr. rewrite Hr in Hloop. destruct Hloop as (c' & Hl & Hs & _). eauto.
  - intros e Hr. rewrite Hr in Hloop. exact Hloop.
Qed.

(** X12: [Restore] has a case for five type bytes and tests the byte as
    it is read, without masking the ignore-if-unknown flag.  A Deregister
    type byte, a recognized type with the flag set, and any byte outside
    the five are refused as unrecognized, with the new, empty store left in
    the FSM and nothing after the byte read. *)
Theorem Restore_type_bytes
    (c : consulFSM S) (s0 : S) (h : snapshotHeader) (rest : list Frame) :
  NewStateStore st = inr s0 →
  let refused (b : Z) :=
    Restore sx st c (FHeader h :: FByte b :: rest)
    = (with_state c s0, Some (msg_unrecognized b)) in
  refused (DeregisterRequestType sx) ∧
  (∀ t, t ∈ recognized_types sx → refused (Z.lor t IgnoreUnknownTypeFlag)) ∧
  (∀ b, b ∉ restorable_types sx → refused b).
Proof.
  intros Hnew refused. subst refused. cbv beta.
  assert (∀ b, b ∉ restorable_types sx →
            Restore sx st c (FHeader h :: FByte b :: rest)
            = (with_state c s0, Some (msg_unrecognized b))) as Hgen.
  { intros b Hb. unfold Restore. rewrite Hnew.
    by apply restore_loop_unrecognized. }
  split; [|split; [|exact Hgen]].
  - apply Hgen. unfold restorable_types. rewrite !not_elem_of_cons.
    repeat split; try apply not_elem_of_nil.
    + intros E. by apply (types_neq sx Hok 1 0 _ _ eq_refl eq_refl).
    + by apply (types_neq sx Hok 1 2 _ _ eq_refl eq_refl).
    + by apply (types_neq sx Hok 1 3 _ _ eq_refl eq_refl).
    + by apply (types_neq sx Hok 1 4 _ _ eq_refl eq_refl).
    + by apply (types_neq sx Hok 1 5 _ _ eq_refl eq_refl).
  - intros t Ht. apply Hgen.
    pose proof (types_low sx Hok t Ht) as Hlow.
    assert (IgnoreUnknownTypeFlag ≤ Z.lor t IgnoreUnknownTypeFlag) as Hhigh.
    { unfold IgnoreUnknownTypeFlag in *.
      assert (Hall : Forall (λ t, 128 ≤ Z.lor t 128) (seqZ 0 128)).
      { refine (bool_decide_unpack _ _); vm_compute; exact I. }
      rewrite Forall_forall in Hall. apply Hall. apply elem_of_seqZ. lia. }
    intros Hin.
    assert (Z.lor t IgnoreUnknownTypeFlag ∈ recognized_types sx) as Hrec.
    { unfold restorable_types in Hin. unfold recognized_types.
      rewrite !elem_of_cons in Hin. rewrite !elem_of_cons. tauto. }
    pose proof (types_low sx Hok _ Hrec). lia.
Qed.

(** X13: the end of the stream is clean only between records.  After
    records that restore, a stream that ends there restores without error;
    the same stream followed by the type byte of a record and nothing else
    fails in the decoder, with the records read so far in the store. *)
Theorem Restore_truncated_record
    (c : consulFSM S) (s0 : S) (h : snapshotHeader) (rs : list SnapRecord) (t : Z) :
  NewStateStore st = inr s0 →
  (restore_records st (hdr_LastIndex h) s0 rs).2 = None →
  t ∈ restorable_types sx →
  (∃ c', Restore sx st c (FHeader h :: (rs ≫= record_frames sx)) = (c', None)
         ∧ fsm_state c' = (restore_records st (hdr_LastIndex h) s0 rs).1) ∧
  (∃ c', Restore sx st c (FHeader h :: (rs ≫= record_frames sx) ++ [FByte t])
         = (c', Some msg_decode)
         ∧ fsm_state c' = (restore_records st (hdr_LastIndex h) s0 rs).1).
Proof.
  intros Hnew Hr Ht. unfold Restore. rewrite Hnew.
  pose proof (restore_loop_restore_records (hdr_LastIndex h) rs [FByte t]
                (with_state c s0)) as Hloop.
  cbv zeta in Hloop. cbn [with_state fsm_state] in Hloop. rewrite Hr in Hloop.
  destruct Hloop as (c' & Hl & Hs & Happ).
  split; [by eauto|].
  exists c'. split; [|done]. rewrite Happ. cbn [restore_loop].
  unfold restorable_types in Ht. rewrite !elem_of_cons in Ht.
  destruct Ht as [->|[->|[->|[->|[->|Ht]]]]]; [..|by apply elem_of_nil in Ht];
    repeat match goal with
           | |- context [?a =? ?b] => destruct (Z.eqb_spec a b)
           end; done.
Qed.

End Restore_more.

(** ** More on [Persist] *)

Section Persist_more.
Context {S Snap : Type}.
Variable sx : StructsPkg.
Variable st : StateStoreAPI S Snap.

Lemma writes_records_refl (sink : Sink) : writes_records sx sink sink.
Proof. exists []. by rewrite app_nil_r. Qed.

Lemma writes_records_trans (k1 k2 k3 : Sink) :
  writes_records sx k1 k2 → writes_records sx k2 k3 → writes_records sx k1 k3.
Proof.
  intros (rs1 & Hd1 & Hc1 & Hf1) (rs2 & Hd2 & Hc2 & Hf2). exists (rs1 ++ rs2)%list.
  rewrite Hd2, Hd1, Hc2, Hc1, bind_app, app_assoc.
  split; [done|]. split; [done|]. by apply Forall_app.
Qed.

Lemma writes_records_intro (sink : Sink) (rs : list SnapRecord) :
  Forall single_registration rs →
  writes_records sx sink
    {| sink_data := sink_data sink ++ (rs ≫= record_frames sx);
       sink_cancel := sink_cancel sink |}.
Proof. intros Hf. by exists rs. Qed.

Lemma register_records_single (n : Node) (services : list NodeService)
    (checks : list HealthCheck) :
  Forall single_registration (register_records n services checks).
Proof.
  unfold register_records. apply Forall_cons. split; [simpl; auto|].
  apply Forall_app. split; apply Forall_fmap, Forall_forall; intros ? _; simpl; auto.
Qed.

Lemma fmap_single {A : Type} (g : A → SnapRecord) (l : list A) :
  (∀ x, single_registration (g x)) → Forall single_registration (g <$> l).
Proof. intros Hg. apply Forall_fmap, Forall_forall. intros x _. apply Hg. Qed.

Lemma writes_records_foldl {A : Type} (g : A → SnapRecord) (t : Z) (f : A → Frame)
    (l : list A) (sink : Sink) :
  (∀ x, record_frames sx (g x) = [FByte t; f x]) →
  foldl (λ k x, emit t (f x) k) sink l
  = {| sink_data := sink_data sink ++ ((g <$> l) ≫= record_frames sx);
       sink_cancel := sink_cancel sink |}.
Proof.
  intros Hg. rewrite foldl_emit. f_equal. f_equal.
  symmetry. by apply bind_fmap_frames.
Qed.

Lemma persistNode_frames (n : Node) (services : list NodeService)
    (checks : list HealthCheck) (sink : Sink) :
  let req := node_request n None None in
  persistNodeChecks sx req checks
    (persistNodeServices sx req services
       (emit (RegisterRequestType sx) (FRegisterRequest req) sink))
  = {| sink_data := sink_data sink
                    ++ (register_records n services checks ≫= record_frames sx);
       sink_cancel := sink_cancel sink |}.
Proof.
  intros req. unfold persistNodeServices, persistNodeChecks. subst req.
  cbn [node_request rr_Datacenter rr_Node rr_Address rr_Check rr_Checks].
  rewrite (writes_records_foldl (λ v, RecRegister (node_request n (Some v) None))
             (RegisterRequestType sx)
             (λ srv, FRegisterRequest (node_request n (Some srv) None))) by done.
  rewrite (writes_records_foldl (λ c, RecRegister (node_request n None (Some c)))
             (RegisterRequestType sx)
             (λ chk, FRegisterRequest (node_request n None (Some chk)))) by done.
  unfold emit, sink_Encode, sink_Write, register_records. cbn [sink_data sink_cancel].
  f_equal. rewrite bind_cons, !bind_app, <- !app_assoc. done.
Qed.

Lemma persistNodes_loop_stream (snap : Snap) (nodes : list Node)
    (services : string → list NodeService) (checks : string → list HealthCheck)
    (sink : Sink) :
  (∀ n, n ∈ nodes → ServiceDump st snap (node_Node n) = inr (services (node_Node n))) →
  (∀ n, n ∈ nodes → CheckDump st snap (node_Node n) = inr (checks (node_Node n))) →
  persistNodes_loop sx st {| snap_state := snap |} nodes sink
  = ({| sink_data :=
          sink_data sink
          ++ ((nodes ≫= λ n, register_records n (services (node_Node n))
                                (checks (node_Node n)))
              ≫= record_frames sx);
        sink_cancel := sink_cancel sink |}, None).
Proof.
  revert sink. induction nodes as [|n nodes IH]; intros sink Hs Hc.
  - simpl. rewrite app_nil_r. by destruct sink.
  - cbn [persistNodes_loop snap_state].
    rewrite (Hs n) by left. rewrite (Hc n) by left.
    pose proof (persistNode_frames n (services (node_Node n)) (checks (node_Node n))
                  sink) as Hn.
    cbv zeta in Hn. unfold node_request in Hn. rewrite Hn.
    rewrite IH by (intros; (apply Hs || apply Hc); by right).
    cbn [sink_data sink_cancel]. rewrite bind_cons, bind_app, <- app_assoc. done.
Qed.

Lemma persistNodes_loop_writes (s : consulSnapshot Snap) (nodes : list Node)
    (sink : Sink) :
  writes_records sx sink (persistNodes_loop sx st s nodes sink).1.
Proof.
  revert sink. induction nodes as [|n nodes IH]; intros sink.
  - apply writes_records_refl.
  - cbn [persistNodes_loop].
    destruct (ServiceDump st (snap_state s) (node_Node n)) as [e|services].
    { pose proof (persistNode_frames n [] [] sink) as Hn.
      cbv zeta in Hn. unfold node_request, persistNodeChecks, persistNodeServices in Hn.
      cbn [foldl] in Hn. cbn [fst]. rewrite Hn.
      apply writes_records_intro, register_records_single. }
    destruct (CheckDump st (snap_state s) (node_Node n)) as [e|checks].
    { pose proof (persistNode_frames n services [] sink) as Hn.
      cbv zeta in Hn. unfold node_request, persistNodeChecks in Hn.
      cbn [foldl] in Hn. cbn [fst]. rewrite Hn.
      apply writes_records_intro, register_records_single. }
    pose proof (persistNode_frames n services checks sink) as Hn.
    cbv zeta in Hn. unfold node_request in Hn. rewrite Hn.
    eapply writes_records_trans; [|apply IH].
    apply writes_records_intro, register_records_single.
Qed.

Lemma persistNodes_writes s sink : writes_records sx sink (persistNodes sx st s sink).1.
Proof.
  unfold persistNodes. destruct (NodeDump st (snap_state s)).
  - apply writes_records_refl.
  - apply persistNodes_loop_writes.
Qed.

Lemma persistSessions_writes s sink :
  writes_records sx sink (persistSessions sx st s sink).1.
Proof.
  unfold persistSessions. destruct (SessionDump st (snap_state s)) as [|l].
  - apply writes_records_refl.
  - cbn [fst]. rewrite (writes_records_foldl RecSession) by done.
    by apply writes_records_intro, fmap_single.
Qed.

Lemma persistACLs_writes s sink : writes_records sx sink (persistACLs sx st s sink).1.
Proof.
  unfold persistACLs. destruct (ACLDump st (snap_state s)) as [|l].
  - apply writes_records_refl.
  - cbn [fst]. rewrite (writes_records_foldl RecACL) by done.
    by apply writes_records_intro, fmap_single.
Qed.

Lemma persistKV_writes s sink : writes_records sx sink (persistKV sx st s sink).1.
Proof.
  unfold persistKV. destruct (KVSDump st (snap_state s)) as [|l].
  - apply writes_records_refl.
  - cbn [fst]. rewrite (writes_records_foldl RecKVS) by done.
    by apply writes_records_intro, fmap_single.
Qed.

Lemma persistTombstones_writes s sink :
  writes_records sx sink (persistTombstones sx st s sink).1.
Proof.
  unfold persistTombstones. destruct (TombstoneDump st (snap_state s)) as [|l].
  - apply writes_records_refl.
  - cbn [fst].
    rewrite (writes_records_foldl RecTombstone _ (λ x, FDirEntry (fake_entry x)))
      by done.
    by apply writes_records_intro, fmap_single.
Qed.

(** [Persist] writes the header and then goes through its five stages;
    the first stage that fails ends it, with the sink cancelled. *)
Lemma Persist_stages (s : consulSnapshot Snap) (sink : Sink) :
  ∃ k, writes_records sx
         (sink_Encode (FHeader {| hdr_LastIndex := LastIndex st (snap_state s) |}) sink)
         k
       ∧ (Persist sx st s sink = (k, None)
          ∨ ∃ e, Persist sx st s sink = (sink_Cancel k, Some e)).
Proof.
  unfold Persist. set (k0 := sink_Encode _ sink).
  pose proof (persistNodes_writes s k0) as H1.
  destruct (persistNodes sx st s k0) as [k1 [e|]]; cbn [fst] in H1; [by eauto|].
  pose proof (writes_records_trans _ _ _ H1 (persistSessions_writes s k1)) as H2.
  destruct (persistSessions sx st s k1) as [k2 [e|]]; cbn [fst] in H2; [by eauto|].
  pose proof (writes_records_trans _ _ _ H2 (persistACLs_writes s k2)) as H3.
  destruct (persistACLs sx st s k2) as [k3 [e|]]; cbn [fst] in H3; [by eauto|].
  pose proof (writes_records_trans _ _ _ H3 (persistKV_writes s k3)) as H4.
  destruct (persistKV sx st s k3) as [k4 [e|]]; cbn [fst] in H4; [by eauto|].
  pose proof (writes_records_trans _ _ _ H4 (persistTombstones_writes s k4)) as H5.
  destruct (persistTombstones sx st s k4) as [k5 [e|]]; cbn [fst] in H5; by eauto.
Qed.

(** X14: what [Persist] leaves in the sink, whether it succeeds or not
    (writes to the sink themselves succeeding): what the sink held, then the
    header with the snapshot's [LastIndex], then whole records, each a type
    byte and one object, where a Register record registers one thing (a
    node alone, with one service or with one check; no datacenter, no list
    of checks).  The sink is cancelled exactly when [Persist] returns an
    error, and its cancel mark is otherwise untouched. *)
Theorem Persist_sink (s : consulSnapshot Snap) (sink : Sink) :
  let r := Persist sx st s sink in
  (∃ rs, sink_data r.1
         = (sink_data sink
            ++ FHeader {| hdr_LastIndex := LastIndex st (snap_state s) |}
               :: (rs ≫= record_frames sx))%list
         ∧ Forall single_registration rs) ∧
  sink_cancel r.1 = match r.2 with Some _ => true | None => sink_cancel sink end.
Proof.
  cbv zeta.
  destruct (Persist_stages s sink) as (k & (rs & Hd & Hc & Hf) & [->|[e ->]]);
    cbn [fst snd sink_Cancel sink_data sink_cancel];
    (split; [|done]); exists rs; (split; [|done]);
    rewrite Hd; cbn [sink_Encode sink_data]; by rewrite <- app_assoc.
Qed.

(** X15: the stream of a snapshot whose dumps succeed: the header, then
    for each node its own registration, one registration per service and
    one per check, then the sessions, the ACLs, the K/V entries and the
    tombstones, in the order of the dumps, appended to what the sink
    held. *)
Theorem Persist_stream (snap : Snap) (sink : Sink)
    (nodes : list Node) (services : string → list NodeService)
    (checks : string → list HealthCheck) (sessions : list Session)
    (acls : list ACL) (entries : list DirEntry) (stones : list Tombstone) :
  NodeDump st snap = inr nodes →
  (∀ n, n ∈ nodes → ServiceDump st snap (node_Node n) = inr (services (node_Node n))) →
  (∀ n, n ∈ nodes → CheckDump st snap (node_Node n) = inr (checks (node_Node n))) →
  SessionDump st snap = inr sessions →
  ACLDump st snap = inr acls →
  KVSDump st snap = inr entries →
  TombstoneDump st snap = inr stones →
  Persist sx st {| snap_state := snap |} sink
  = ({| sink_data :=
          (sink_data sink
           ++ FHeader {| hdr_LastIndex := LastIndex st snap |}
              :: (((nodes ≫= λ n, register_records n (services (node_Node n))
                                     (checks (node_Node n)))
                   ++ (RecSession <$> sessions)
                   ++ (RecACL <$> acls)
                   ++ (RecKVS <$> entries)
                   ++ (RecTombstone <$> stones))
                  ≫= record_frames sx))%list;
        sink_cancel := sink_cancel sink |}, None).
Proof.
  intros Hn Hs Hc Hse Ha Hk Ht.
  unfold Persist, persistNodes, persistSessions, persistACLs, persistKV,
    persistTombstones. cbn [snap_state].
  rewrite Hn, (persistNodes_loop_stream snap nodes services checks) by done.
  rewrite Hse, Ha, Hk, Ht.
  rewrite (writes_records_foldl RecSession) by done.
  rewrite (writes_records_foldl RecACL) by done.
  rewrite (writes_records_foldl RecKVS) by done.
  rewrite (writes_records_foldl RecTombstone _ (λ x, FDirEntry (fake_entry x)))
    by done.
  cbn [sink_data sink_cancel sink_Encode]. f_equal. f_equal.
  rewrite !bind_app, <- !app_assoc. done.
Qed.

(** X16: the round trip of the stream, for any state store.  What
    [Snapshot] and [Persist] write into an empty sink is a header followed
    by whole records, and [Restore] into an FSM made by [NewFSM] reads all
    of it record by record: it cannot fail on the format, only on an error
    of a restore call of the store. *)
Theorem Snapshot_Persist_Restore (c fsm2 : consulFSM S) :
  message_types_ok sx →
  NewFSM st = inr fsm2 →
  let snap := (Snapshot_fsm st c).1 in
  let sink := (Persist sx st snap empty_sink).1 in
  let L := LastIndex st (Snapshot st (fsm_state c)) in
  ∃ rs,
    sink_data sink = FHeader {| hdr_LastIndex := L |} :: (rs ≫= record_frames sx) ∧
    (Restore sx st fsm2 (sink_data sink)).2
    = (restore_records st L (fsm_state fsm2) rs).2 ∧
    fsm_state (Restore sx st fsm2 (sink_data sink)).1
    = (restore_records st L (fsm_state fsm2) rs).1.
Proof.
  intros Hok Hnew snap sink L.
  unfold NewFSM in Hnew.
  destruct (NewStateStore st) as [err|s0] eqn:Hs0; [done|].
  injection Hnew as <-. cbn [fsm_state].
  assert (∃ rs, sink_data sink
                = FHeader {| hdr_LastIndex := L |} :: (rs ≫= record_frames sx))
    as [rs Hd].
  { destruct (Persist_stages snap empty_sink) as (k & (rs & Hd & _) & Hk).
    exists rs. subst sink. by destruct Hk as [->|[e ->]]. }
  exists rs. split; [exact Hd|].
  rewrite Hd. unfold Restore. rewrite Hs0.
  unfold with_state. cbn [hdr_LastIndex fsm_logged fsm_state].
  pose proof (restore_loop_restore_records sx st Hok L rs []
                (with_state {| fsm_state := s0; fsm_logged := [] |} s0)) as Hloop.
  cbv zeta in Hloop. cbn [with_state fsm_state] in Hloop.
  destruct (restore_records st L s0 rs) as [s1 [e|]]; cbn [fst snd] in *.
  - destruct Hloop as (c' & Hl & Hc'). rewrite app_nil_r in Hl.
    unfold with_state in Hl. cbn [fsm_logged fsm_state] in Hl.
    rewrite Hl. done.
  - destruct Hloop as (c' & Hl & Hc' & _).
    unfold with_state in Hl. cbn [fsm_logged fsm_state] in Hl.
    rewrite Hl. done.
Qed.

End Persist_more.

(** ** The theorems above at work *)

Lemma structs_const_ok rr dr kr sr ar tr :
  message_types_ok (structs_const rr dr kr sr ar tr).
Proof. exact structs_demo_ok. Qed.

(** A K/V command whose payload does not decode panics. *)
Lemma Apply_panics_iff_witness :
  message_types_ok structs_demo ∧
  ∃ msg, Apply structs_demo state_store.api (fsm_of state_store.empty)
           {| log_Index := 1; log_Data := [2; 129] |} = Panics msg.
Proof.
  split; [exact structs_demo_ok|].
  apply (proj2 (Apply_panics_iff structs_demo state_store.api structs_demo_ok
                  (fsm_of state_store.empty) 1 2 [129])).
  right. right. left. split; reflexivity.
Defined.

(** The registration of [TestFSM_RegisterNode]. *)
Lemma Apply_Register_witness :
  let req := {| rr_Datacenter := "dc1"; rr_Node := "foo"; rr_Address := "127.0.0.1";
                rr_Service := None; rr_Check := None; rr_Checks := [] |} in
  let sx := structs_const (Some req) None None None None None in
  let c := fsm_of state_store.empty in
  message_types_ok sx ∧ DecodeRegisterRequest sx [] = Some req ∧
  let r := state_store.EnsureRegistration 1 req state_store.empty in
  Apply sx state_store.api c {| log_Index := 1; log_Data := [0] |}
  = Returns
      match r.1 with
      | None => (RespNil, with_state c r.2)
      | Some e =>
          (RespErr e,
           Printf (with_state c r.2)
             ("[INFO] consul.fsm: EnsureRegistration failed: " +:+ e))
      end.
Proof.
  intros req sx c.
  split; [apply structs_const_ok|]. split; [reflexivity|].
  exact (Apply_Register sx state_store.api (structs_const_ok _ _ _ _ _ _) c 1 []
           req eq_refl).
Defined.

(** The delete-cas of [TestFSM_KVSDeleteCheckAndSet]: the index to compare
    is the entry's [ModifyIndex], the key its [Key]. *)
Lemma Apply_KVS_dispatch_witness :
  let d := mk_entry "/test/path" [] "" 1 in
  let req := {| kr_Datacenter := "dc1"; kr_Op := KVSDeleteCAS_op; kr_DirEnt := d |} in
  let sx := structs_const None None (Some req) None None None in
  let s := set_key 1 "/test/path" [116] state_store.empty in
  let r := state_store.KVSDeleteCAS 2 1 "/test/path" s in
  message_types_ok sx ∧ DecodeKVSRequest sx [] = Some req ∧
  kr_Op req = KVSDeleteCAS_op ∧
  Apply sx state_store.api (fsm_of s) {| log_Index := 2; log_Data := [2] |}
  = Returns (match r.1.2 with
             | Some err => RespErr err
             | None => RespBool r.1.1
             end, with_state (fsm_of s) r.2).
Proof.
  intros d req sx s r.
  split; [apply structs_const_ok|]. split; [reflexivity|]. split; [reflexivity|].
  exact (proj1 (proj2 (proj2
           (Apply_KVS_dispatch sx state_store.api (structs_const_ok _ _ _ _ _ _)
              (fsm_of s) 2 [] req eq_refl))) eq_refl).
Defined.

(** A K/V request with an operation the FSM does not know. *)
Lemma Apply_invalid_operation_witness :
  let req := {| kr_Datacenter := "dc1"; kr_Op := "rename";
                kr_DirEnt := mk_entry "/test/path" [] "" 0 |} in
  let sx := structs_const None None (Some req) None None None in
  let c := fsm_of store_foo_db in
  message_types_ok sx ∧ DecodeKVSRequest sx [] = Some req ∧ (kr_Op req ∉ kvs_ops) ∧
  ∃ c', Apply sx state_store.api c {| log_Index := 7; log_Data := [2] |}
          = Returns (RespErr "Invalid KVS operation 'rename'", c')
        ∧ fsm_state c' = store_foo_db
        ∧ fsm_logged c' = ["[WARN] consul.fsm: Invalid KVS operation 'rename'"].
Proof.
  intros req sx c.
  assert (Hop : kr_Op req ∉ kvs_ops).
  { refine (bool_decide_unpack _ _); vm_compute; exact I. }
  split; [apply structs_const_ok|]. split; [reflexivity|]. split; [exact Hop|].
  exact (proj1 (Apply_invalid_operation sx state_store.api
                  (structs_const_ok _ _ _ _ _ _) c 7 []) req eq_refl Hop).
Defined.

(** The session of [TestFSM_SessionCreate_Destroy]. *)
Lemma Apply_Session_dispatch_witness :
  let x := mk_session "session1" "foo" in
  let req := {| sr_Datacenter := "dc1"; sr_Op := SessionCreate_op; sr_Session := x |} in
  let sx := structs_const None None None (Some req) None None in
  let s := (state_store.EnsureNode 1 (mk_node "foo" "127.0.0.1") state_store.empty).2 in
  let r := state_store.SessionCreate 2 x s in
  message_types_ok sx ∧ DecodeSessionRequest sx [] = Some req ∧
  sr_Op req = SessionCreate_op ∧
  Apply sx state_store.api (fsm_of s) {| log_Index := 2; log_Data := [3] |}
  = Returns (match r.1 with
             | Some e => RespErr e
             | None => RespString "session1"
             end, with_state (fsm_of s) r.2).
Proof.
  intros x req sx s r.
  split; [apply structs_const_ok|]. split; [reflexivity|]. split; [reflexivity|].
  exact (proj1 (Apply_Session_dispatch sx state_store.api
                  (structs_const_ok _ _ _ _ _ _) (fsm_of s) 2 [] req eq_refl) eq_refl).
Defined.

(** A forced set of an ACL is applied as a set. *)
Lemma Apply_ACL_dispatch_witness :
  let a := mk_acl "acl1" "User token" in
  let req := {| ar_Datacenter := "dc1"; ar_Op := ACLForceSet_op; ar_ACL := a |} in
  let sx := structs_const None None None None (Some req) None in
  let r := state_store.ACLSet 1 a state_store.empty in
  message_types_ok sx ∧ DecodeACLRequest sx [] = Some req ∧
  (ar_Op req = ACLForceSet_op ∨ ar_Op req = ACLSet_op) ∧
  Apply sx state_store.api (fsm_of state_store.empty) {| log_Index := 1; log_Data := [4] |}
  = Returns (match r.1 with
             | Some e => RespErr e
             | None => RespString "acl1"
             end, with_state (fsm_of state_store.empty) r.2).
Proof.
  intros a req sx r.
  split; [apply structs_const_ok|]. split; [reflexivity|]. split; [by left|].
  exact (proj1 (Apply_ACL_dispatch sx state_store.api
                  (structs_const_ok _ _ _ _ _ _) (fsm_of state_store.empty) 1 [] req
                  eq_refl) (or_introl eq_refl)).
Defined.

(** The reap of [TestFSM_TombstoneReap]: the log entry is at 1, the
    tombstones go up to 12. *)
Lemma Apply_Tombstone_reap_witness :
  let req := {| tr_Datacenter := "dc1"; tr_Op := TombstoneReap_op; tr_ReapIndex := 12 |} in
  let sx := structs_const None None None None None (Some req) in
  let c := fsm_of store_reap in
  let r := ReapTombstones state_store.api (tr_ReapIndex req) (fsm_state c) in
  message_types_ok sx ∧ DecodeTombstoneRequest sx [] = Some req ∧
  tr_Op req = TombstoneReap_op ∧
  Apply sx state_store.api c {| log_Index := 1; log_Data := [5] |}
  = Apply sx state_store.api c {| log_Index := 99; log_Data := [5] |} ∧
  Apply sx state_store.api c {| log_Index := 1; log_Data := [5] |}
  = Returns (resp_of_err r.1, with_state c r.2).
Proof.
  intros req sx c r.
  split; [apply structs_const_ok|]. split; [reflexivity|]. split; [reflexivity|].
  pose proof (Apply_Tombstone_reap sx state_store.api (structs_const_ok _ _ _ _ _ _)
                c 1 99 []) as [Hsame Hreap].
  split; [exact Hsame|]. exact (Hreap req eq_refl eq_refl).
Defined.

(** Two FSMs that hold different stores restore the same snapshot to the
    same store. *)
Lemma Restore_starts_afresh_witness :
  let old := [FHeader {| hdr_LastIndex := 8 |}; FByte 2;
              FDirEntry (mk_entry "/test" [102] "" 8)] in
  NewStateStore state_store.api = inr state_store.empty ∧
  fsm_state (Restore structs_demo state_store.api (fsm_of store_foo_db) old).1
  = fsm_state (Restore structs_demo state_store.api (fsm_of store_reap) old).1.
Proof.
  intros old. split; [reflexivity|].
  exact (proj2 (Restore_starts_afresh structs_demo state_store.api
                  (fsm_of store_foo_db) (fsm_of store_reap) old)
           state_store.empty eq_refl).
Defined.

(** A snapshot whose second registration names a service the node does not
    have: the store refuses it, and the restore succeeds all the same. *)
Lemma Restore_skips_failed_registration_witness :
  let good := {| rr_Datacenter := ""; rr_Node := "foo"; rr_Address := "127.0.0.1";
                 rr_Service := None; rr_Check := None; rr_Checks := [] |} in
  let bad := {| rr_Datacenter := ""; rr_Node := "foo"; rr_Address := "127.0.0.1";
                rr_Service := None;
                rr_Check := Some (mk_check "foo" "nope" "c1" "passing");
                rr_Checks := [] |} in
  let h := {| hdr_LastIndex := 5 |} in
  NewStateStore state_store.api = inr state_store.empty ∧
  (state_store.EnsureRegistration 5 bad
     (state_store.EnsureRegistration 5 good state_store.empty).2).1
  = Some state_store.ErrMissingService ∧
  ∃ c', Restore structs_demo state_store.api (fsm_of state_store.empty)
          (FHeader h :: ([good; bad; good] ≫= λ req,
                           [FByte (RegisterRequestType structs_demo);
                            FRegisterRequest req]))
        = (c', None)
      ∧ fsm_state c'
        = foldl (λ s req, (state_store.EnsureRegistration 5 req s).2)
                state_store.empty [good; bad; good].
Proof.
  intros good bad h. split; [reflexivity|]. split; [vm_compute; reflexivity|].
  exact (Restore_skips_failed_registration structs_demo state_store.api
           (fsm_of state_store.empty) state_store.empty h [good; bad; good] eq_refl).
Defined.

(** A store that refuses the second record: the restore stops there with
    the error of the store, and the session record after it is not read. *)
Lemma Restore_record_by_record_witness :
  let st := stub_store (inr tt) (Some "no space left") None in
  let rs := [RecRegister (node_request (mk_node "foo" "127.0.0.1") None None);
             RecKVS (mk_entry "/test" [102] "" 8)] in
  let h := {| hdr_LastIndex := 8 |} in
  message_types_ok structs_demo ∧ NewStateStore st = inr tt ∧
  (restore_records st 8 tt rs).2 = Some "no space left" ∧
  ∃ c', Restore structs_demo st {| fsm_state := tt; fsm_logged := [] |}
          (FHeader h :: (rs ≫= record_frames structs_demo)
                        ++ [FByte 3; FSession (mk_session "s1" "foo")])
        = (c', Some "no space left")
      ∧ fsm_state c' = (restore_records st 8 tt rs).1.
Proof.
  intros st rs h.
  split; [exact structs_demo_ok|]. split; [reflexivity|]. split; [reflexivity|].
  exact (proj2 (Restore_record_by_record structs_demo st structs_demo_ok
                  {| fsm_state := tt; fsm_logged := [] |} tt h rs
                  [FByte 3; FSession (mk_session "s1" "foo")] eq_refl)
           "no space left" eq_refl).
Defined.

(** Type byte 1 (Deregister) and type byte [128 | 2] in a snapshot. *)
Lemma Restore_type_bytes_witness :
  let h := {| hdr_LastIndex := 8 |} in
  let c := fsm_of store_foo_db in
  message_types_ok structs_demo ∧
  NewStateStore state_store.api = inr state_store.empty ∧
  2 ∈ recognized_types structs_demo ∧
  Restore structs_demo state_store.api c [FHeader h; FByte 1]
  = (with_state c state_store.empty, Some (msg_unrecognized 1)) ∧
  Restore structs_demo state_store.api c
    [FHeader h; FByte (Z.lor 2 IgnoreUnknownTypeFlag);
     FDirEntry (mk_entry "/test" [102] "" 8)]
  = (with_state c state_store.empty,
     Some (msg_unrecognized (Z.lor 2 IgnoreUnknownTypeFlag))).
Proof.
  intros h c.
  assert (Hin : 2 ∈ recognized_types structs_demo).
  { refine (bool_decide_unpack _ _); vm_compute; exact I. }
  split; [exact structs_demo_ok|]. split; [reflexivity|]. split; [exact Hin|].
  pose proof (Restore_type_bytes structs_demo state_store.api structs_demo_ok
                c state_store.empty h) as Hr.
  split.
  - exact (proj1 (Hr [] eq_refl)).
  - exact (proj1 (proj2 (Hr [FDirEntry (mk_entry "/test" [102] "" 8)] eq_refl)) 2 Hin).
Defined.

(** A snapshot cut after the type byte of its second record. *)
Lemma Restore_truncated_record_witness :
  let h := {| hdr_LastIndex := 8 |} in
  let rs := [RecKVS (mk_entry "/test" [102] "" 8)] in
  message_types_ok structs_demo ∧
  NewStateStore state_store.api = inr state_store.empty ∧
  (restore_records state_store.api 8 state_store.empty rs).2 = None ∧
  3 ∈ restorable_types structs_demo ∧
  ∃ c', Restore structs_demo state_store.api (fsm_of state_store.empty)
          (FHeader h :: (rs ≫= record_frames structs_demo) ++ [FByte 3])
        = (c', Some msg_decode)
      ∧ fsm_state c' = (restore_records state_store.api 8 state_store.empty rs).1.
Proof.
  intros h rs.
  assert (Hin : 3 ∈ restorable_types structs_demo).
  { refine (bool_decide_unpack _ _); vm_compute; exact I. }
  split; [exact structs_demo_ok|]. split; [reflexivity|]. split; [reflexivity|].
  split; [exact Hin|].
  exact (proj2 (Restore_truncated_record structs_demo state_store.api structs_demo_ok
                  (fsm_of state_store.empty) state_store.empty h rs 3
                  eq_refl eq_refl Hin)).
Defined.

(** A store whose session dump fails: [Persist] returns the error, the sink
    is cancelled, and the header is all it holds (the store has no node). *)
Lemma Persist_sink_witness :
  let st := stub_store (inr tt) None (Some "read error") in
  let r := Persist structs_demo st {| snap_state := tt |} empty_sink in
  r.2 = Some "read error" ∧ sink_cancel r.1 = true ∧
  sink_data r.1 = [FHeader {| hdr_LastIndex := 0 |}].
Proof.
  intros st r.
  pose proof (Persist_sink structs_demo st {| snap_state := tt |} empty_sink)
    as [_ Hc].
  split; [reflexivity|]. split; [exact Hc | reflexivity].
Defined.

(** The snapshot of the store of [TestFSM_SnapshotRestore]. *)
Lemma Persist_stream_witness :
  let s := store_snapshot_test in
  (Persist structs_demo state_store.api {| snap_state := s |} empty_sink).2 = None ∧
  length (sink_data
            (Persist structs_demo state_store.api {| snap_state := s |} empty_sink).1)
  = 23%nat.
Proof.
  intros s.
  pose proof (Persist_stream structs_demo state_store.api s empty_sink
                (state_store.NodeDump s) (state_store.ServiceDump s)
                (state_store.CheckDump s) (state_store.SessionDump s)
                (state_store.ACLDump s) (state_store.KVSDump s)
                (state_store.TombstoneDump s)
                eq_refl (λ _ _, eq_refl) (λ _ _, eq_refl)
                eq_refl eq_refl eq_refl eq_refl) as Hp.
  rewrite Hp. split; [reflexivity|]. vm_compute. reflexivity.
Defined.

(** The flow of [TestFSM_SnapshotRestore] on its store. *)
Lemma Snapshot_Persist_Restore_witness :
  let c := fsm_of store_snapshot_test in
  let fsm2 := fsm_of state_store.empty in
  let sink := (Persist structs_demo state_store.api
                 (Snapshot_fsm state_store.api c).1 empty_sink).1 in
  message_types_ok structs_demo ∧ NewFSM state_store.api = inr fsm2 ∧
  ∃ rs,
    sink_data sink = FHeader {| hdr_LastIndex := 12 |} :: (rs ≫= record_frames structs_demo) ∧
    (Restore structs_demo state_store.api fsm2 (sink_data sink)).2
    = (restore_records state_store.api 12 state_store.empty rs).2 ∧
    fsm_state (Restore structs_demo state_store.api fsm2 (sink_data sink)).1
    = (restore_records state_store.api 12 state_store.empty rs).1.
Proof.
  intros c fsm2 sink.
  split; [exact structs_demo_ok|]. split; [reflexivity|].
  exact (Snapshot_Persist_Restore structs_demo state_store.api c fsm2
           structs_demo_ok eq_refl).
Defined.
